(** * Starcamp Interview: session runtime, scoring and aggregation

    A shallow embedding of the interview session runtime of the
    starcamp-interview application (Express + Prisma server, React client)
    and the properties of its specification.

    Conventions of the embedding.
    - The PostgreSQL database reached through Prisma is a record of finite
      maps, one per table of [migration.sql].  Tables that the code only
      ever addresses through a unique composite index are keyed by that
      index; generated primary keys and timestamps, which no modelled code
      reads, are left out.
    - A JavaScript [number] is an exact rational ([Q]); integers stored in
      INTEGER columns are [Z].  [toFixed(1)] yields a decimal with one
      fractional digit, kept as its number of tenths.
    - A service method that [throw]s leaves the database as it found it:
      every write is either a single statement or inside [$transaction].
      Such a method is a function [Database -> Thrown + (result * Database)].
    - An Express handler is a function from the database to the HTTP
      response it sends and the database it leaves.  Its caller is the
      user [authMiddleware] has read from the token; the [User] table
      itself is not modelled. *)

From Stdlib Require Import ZArith QArith Qround Ascii String.
From stdpp Require Import gmap strings list fin_maps sorting.

Close Scope Q_scope.
Open Scope string_scope.
Open Scope list_scope.
Open Scope Z_scope.

(** ** Exceptions and HTTP responses *)

(** [throw new Error(message)]; Prisma's own errors are [Error]s too. *)
Inductive Thrown : Type :=
| Error (message : string).

Definition message (e : Thrown) : string :=
  match e with Error m => m end.

Inductive Result (A : Type) : Type :=
| Return (a : A)
| Throw (e : Thrown).
Arguments Return {A} a.
Arguments Throw {A} e.

(** [res.status(code).json(payload)] and [res.status(code).json({ error })]. *)
Inductive Response (A : Type) : Type :=
| Json (status : Z) (payload : A)
| ErrorJson (status : Z) (error : string).
Arguments Json {A} status payload.
Arguments ErrorJson {A} status error.

(** [String.prototype.includes]. *)
Definition includes (needle hay : string) : bool :=
  match String.index 0 needle hay with
  | Some _ => true
  | None => false
  end.

(** Messages Prisma reports for constraint violations (abridged). *)
Definition P2002 : Thrown := Error "Unique constraint failed".
Definition P2003 : Thrown := Error "Foreign key constraint violated".

(** ** The database of [migration.sql] *)

Inductive SessionStatus : Type :=
| SETUP | IN_PROGRESS | COMPLETED | CANCELLED.

#[global] Instance SessionStatus_eq_dec : EqDecision SessionStatus.
Proof. solve_decision. Defined.

Record SectionRow : Type := mkSection {
  name : string;
  defaultDuration : Z }.

Record QuestionRow : Type := mkQuestion {
  sectionId : string;
  text : string }.

Record InterviewSessionRow : Type := mkSession {
  interviewerId : string;
  candidateName : string;
  status : SessionStatus }.

Record InterviewSectionConfigRow : Type := mkSectionConfigRow {
  durationMinutes : Z;
  config_order : Z }.

Record InterviewQuestionRow : Type := mkInterviewQuestionRow {
  question_order : Z }.

Record ScoreRow : Type := mkScoreRow {
  score : Z;
  notes : option string }.

(** The tables [Section] (here [Section_]), [Question] and
    [InterviewSession] are keyed by their [id];
    [InterviewSectionConfig], [InterviewQuestion] and [Score] by their
    unique index on [(interviewId, sectionId)] resp.
    [(interviewId, questionId)]. *)
Record Database : Type := mkDatabase {
  Section_ : gmap string SectionRow;
  Question : gmap string QuestionRow;
  InterviewSession : gmap string InterviewSessionRow;
  InterviewSectionConfig : gmap (string * string) InterviewSectionConfigRow;
  InterviewQuestion : gmap (string * string) InterviewQuestionRow;
  Score : gmap (string * string) ScoreRow }.

Definition set_InterviewSession (f : gmap string InterviewSessionRow) (db : Database) : Database :=
  mkDatabase (Section_ db) (Question db) f
             (InterviewSectionConfig db) (InterviewQuestion db) (Score db).

Definition set_InterviewSectionConfig
  (f : gmap (string * string) InterviewSectionConfigRow) (db : Database) : Database :=
  mkDatabase (Section_ db) (Question db) (InterviewSession db)
             f (InterviewQuestion db) (Score db).

Definition set_InterviewQuestion
  (f : gmap (string * string) InterviewQuestionRow) (db : Database) : Database :=
  mkDatabase (Section_ db) (Question db) (InterviewSession db)
             (InterviewSectionConfig db) f (Score db).

Definition set_Score (f : gmap (string * string) ScoreRow) (db : Database) : Database :=
  mkDatabase (Section_ db) (Question db) (InterviewSession db)
             (InterviewSectionConfig db) (InterviewQuestion db) f.

(** A [Score] object as Prisma returns it and as the client's [ScoreItem]
    receives it. *)
Record ScoreItem : Type := mkScoreItem {
  score_interviewId : string;
  score_questionId : string;
  score_value : Z;
  score_notes : option string }.

Definition ScoreItem_of (key : string * string) (row : ScoreRow) : ScoreItem :=
  mkScoreItem (fst key) (snd key) (score row) (notes row).

(** ** Prisma client calls used by the services *)

Module prisma.

(** [deleteMany({ where: { interviewId } })] on a table keyed by
    [(interviewId, _)]. *)
Definition deleteMany {V : Type} (interviewId : string)
  (table : gmap (string * string) V) : gmap (string * string) V :=
  filter (fun kv => fst (fst kv) ≠ interviewId) table.

(** [findMany({ where: { interviewId } })]. *)
Definition findMany {V : Type} (interviewId : string)
  (table : gmap (string * string) V) : list ((string * string) * V) :=
  filter (fun kv => fst (fst kv) = interviewId) (map_to_list table).

(** [score.upsert({ where: { interviewId_questionId }, create, update })].
    A field given as [undefined] in [update] is left as it is; [create]
    inserts a row, whose foreign keys the database checks. *)
Definition score_upsert (interviewId questionId : string)
  (create : ScoreRow) (update_score : Z) (update_notes : option string)
  (db : Database) : Result (ScoreItem * Database) :=
  let key := (interviewId, questionId) in
  match Score db !! key with
  | Some old =>
      let row := mkScoreRow update_score
                   (match update_notes with
                    | Some n => Some n
                    | None => notes old
                    end) in
      Return (ScoreItem_of key row, set_Score (<[key := row]> (Score db)) db)
  | None =>
      match InterviewSession db !! interviewId, Question db !! questionId with
      | Some _, Some _ =>
          Return (ScoreItem_of key create, set_Score (<[key := create]> (Score db)) db)
      | _, _ => Throw P2003
      end
  end.

End prisma.

(** ** server/src/services/score-service.ts *)

Module ScoreService.

Record UpsertData : Type := mkUpsertData {
  data_interviewId : string;
  data_questionId : string;
  data_score : Z;
  data_notes : option string }.

Definition upsertScore (data : UpsertData) (db : Database)
  : Result (ScoreItem * Database) :=
  prisma.score_upsert (data_interviewId data) (data_questionId data)
    (mkScoreRow (data_score data) (data_notes data))
    (data_score data) (data_notes data) db.

Definition getScoresForInterview (interviewId : string) (db : Database)
  : list ScoreItem :=
  (fun kv => ScoreItem_of (fst kv) (snd kv)) <$> prisma.findMany interviewId (Score db).

End ScoreService.

(** ** server/src/controllers/score-controller.ts *)

Module ScoreController.

(** [req.body]: any field may be missing from the JSON ([undefined]). *)
Record Body : Type := mkBody {
  body_interviewId : option string;
  body_questionId : option string;
  body_score : option Q;
  body_notes : option string }.

(** [!x] for a string-or-undefined [x]. *)
Definition falsy (x : option string) : bool :=
  match x with
  | None => true
  | Some s => if decide (s = EmptyString) then true else false
  end.

Definition Number_isInteger (x : Q) : bool :=
  (Qnum x mod Z.pos (Qden x) =? 0)%Z.

Definition invalid_score (x : Q) : bool :=
  negb (Number_isInteger x) || negb (Qle_bool (1 # 1) x) || negb (Qle_bool x (5 # 1)).

Definition upsert (body : Body) (userId : string) (db : Database)
  : Response ScoreItem * Database :=
  if falsy (body_interviewId body) || falsy (body_questionId body)
     || bool_decide (body_score body = None) then
    (ErrorJson 400 "interviewId, questionId, and score required", db)
  else
    let interviewId := default EmptyString (body_interviewId body) in
    let questionId := default EmptyString (body_questionId body) in
    let score := default (0 # 1)%Q (body_score body) in
    if invalid_score score then
      (ErrorJson 400 "score must be an integer between 1 and 5", db)
    else
      match InterviewSession db !! interviewId with
      | None => (ErrorJson 404 "Interview not found", db)
      | Some interview =>
        if decide (interviewerId interview ≠ userId) then
          (ErrorJson 403 "Unauthorized", db)
        else
          match ScoreService.upsertScore
                  (ScoreService.mkUpsertData interviewId questionId (Qfloor score)
                     (body_notes body)) db with
          | Return (result, db') => (Json 200 result, db')
          | Throw _ => (ErrorJson 500 "Internal server error", db)
          end
      end.

Definition listByInterview (interviewId userId : string) (db : Database)
  : Response (list ScoreItem) * Database :=
  match InterviewSession db !! interviewId with
  | None => (ErrorJson 404 "Interview not found", db)
  | Some interview =>
    if decide (interviewerId interview ≠ userId) then
      (ErrorJson 403 "Unauthorized", db)
    else (Json 200 (ScoreService.getScoresForInterview interviewId db), db)
  end.

End ScoreController.

(** ** server/src/types/interview-types.ts *)

Module interview_types.

Record SectionConfigDTO : Type := mkSectionConfigDTO {
  sectionId : string;
  durationMinutes : Z }.

Record SelectedQuestionDTO : Type := mkSelectedQuestionDTO {
  questionId : string;
  order : Z }.

Record CreateInterviewDTO : Type := mkCreateInterviewDTO {
  candidateName : string;
  sectionConfigs : list SectionConfigDTO;
  selectedQuestions : list SelectedQuestionDTO }.

Record UpdateInterviewDTO : Type := mkUpdateInterviewDTO {
  candidateName' : option string;
  sectionConfigs' : option (list SectionConfigDTO);
  selectedQuestions' : option (list SelectedQuestionDTO) }.

End interview_types.

(** ** server/src/services/interview-service.ts *)

Module InterviewService.

(** [createMany] on a table keyed by [(interviewId, k)]: every row must
    reference an existing [k] and must not repeat an indexed pair. *)
Fixpoint createMany {V : Type} (references : string -> bool) (interviewId : string)
  (rows : list (string * V)) (table : gmap (string * string) V)
  : Result (gmap (string * string) V) :=
  match rows with
  | [] => Return table
  | (k, v) :: rest =>
      if negb (references k) then Throw P2003
      else match table !! (interviewId, k) with
           | Some _ => Throw P2002
           | None => createMany references interviewId rest (<[(interviewId, k) := v]> table)
           end
  end.

Definition sectionConfig_rows (l : list interview_types.SectionConfigDTO)
  : list (string * InterviewSectionConfigRow) :=
  imap (fun idx sc =>
          (interview_types.sectionId sc,
           mkSectionConfigRow (interview_types.durationMinutes sc) (Z.of_nat idx + 1))) l.

Definition interviewQuestion_rows (l : list interview_types.SelectedQuestionDTO)
  : list (string * InterviewQuestionRow) :=
  (fun q => (interview_types.questionId q,
             mkInterviewQuestionRow (interview_types.order q))) <$> l.

Definition has_key {V : Type} (table : gmap string V) (k : string) : bool :=
  bool_decide (is_Some (table !! k)).

(** The identifier Prisma generates for the new session is [newId]. *)
Definition createInterview (newId : string) (data : interview_types.CreateInterviewDTO)
  (interviewerId : string) (db : Database)
  : Result (InterviewSessionRow * Database) :=
  match InterviewSession db !! newId with
  | Some _ => Throw P2002
  | None =>
    let interview := mkSession interviewerId (interview_types.candidateName data) SETUP in
    let tx := set_InterviewSession (<[newId := interview]> (InterviewSession db)) db in
    match createMany (has_key (Section_ tx)) newId
            (sectionConfig_rows (interview_types.sectionConfigs data))
            (InterviewSectionConfig tx) with
    | Throw e => Throw e
    | Return configs =>
      let tx := set_InterviewSectionConfig configs tx in
      match createMany (has_key (Question tx)) newId
              (interviewQuestion_rows (interview_types.selectedQuestions data))
              (InterviewQuestion tx) with
      | Throw e => Throw e
      | Return questions => Return (interview, set_InterviewQuestion questions tx)
      end
    end
  end.

Definition truthy (x : option string) : bool :=
  negb (ScoreController.falsy x).

Definition updateInterview (id : string) (data : interview_types.UpdateInterviewDTO)
  (userId : string) (db : Database)
  : Result (option InterviewSessionRow * Database) :=
  match InterviewSession db !! id with
  | None => Throw (Error "Interview not found")
  | Some interview =>
    if decide (interviewerId interview ≠ userId) then Throw (Error "Unauthorized")
    else if decide (status interview ≠ SETUP) then
      Throw (Error "Can only edit interviews in SETUP status")
    else
      let tx :=
        if truthy (interview_types.candidateName' data) then
          set_InterviewSession
            (<[id := mkSession (interviewerId interview)
                       (default EmptyString (interview_types.candidateName' data))
                       (status interview)]> (InterviewSession db)) db
        else db in
      match
        match interview_types.sectionConfigs' data with
        | None => Return tx
        | Some l =>
          match createMany (has_key (Section_ tx)) id (sectionConfig_rows l)
                  (prisma.deleteMany id (InterviewSectionConfig tx)) with
          | Throw e => Throw e
          | Return configs => Return (set_InterviewSectionConfig configs tx)
          end
        end
      with
      | Throw e => Throw e
      | Return tx =>
        match
          match interview_types.selectedQuestions' data with
          | None => Return tx
          | Some l =>
            match createMany (has_key (Question tx)) id (interviewQuestion_rows l)
                    (prisma.deleteMany id (InterviewQuestion tx)) with
            | Throw e => Throw e
            | Return questions => Return (set_InterviewQuestion questions tx)
            end
          end
        with
        | Throw e => Throw e
        | Return tx => Return (InterviewSession tx !! id, tx)
        end
      end
  end.

Definition set_status (id : string) (interview : InterviewSessionRow)
  (st : SessionStatus) (db : Database) : InterviewSessionRow * Database :=
  let updated := mkSession (interviewerId interview) (candidateName interview) st in
  (updated, set_InterviewSession (<[id := updated]> (InterviewSession db)) db).

Definition startInterview (id userId : string) (db : Database)
  : Result (InterviewSessionRow * Database) :=
  match InterviewSession db !! id with
  | None => Throw (Error "Interview not found")
  | Some interview =>
    if decide (interviewerId interview ≠ userId) then Throw (Error "Unauthorized")
    else if decide (status interview ≠ SETUP) then
      Throw (Error "Can only start interviews in SETUP status")
    else Return (set_status id interview IN_PROGRESS db)
  end.

Definition completeInterview (id userId : string) (db : Database)
  : Result (InterviewSessionRow * Database) :=
  match InterviewSession db !! id with
  | None => Throw (Error "Interview not found")
  | Some interview =>
    if decide (interviewerId interview ≠ userId) then Throw (Error "Unauthorized")
    else if decide (status interview ≠ IN_PROGRESS) then
      Throw (Error "Can only complete interviews in IN_PROGRESS status")
    else Return (set_status id interview COMPLETED db)
  end.

Definition deleteInterview (id userId : string) (db : Database)
  : Result (unit * Database) :=
  match InterviewSession db !! id with
  | None => Throw (Error "Interview not found")
  | Some interview =>
    if decide (interviewerId interview ≠ userId) then Throw (Error "Unauthorized")
    else
      let tx := set_Score (prisma.deleteMany id (Score db)) db in
      let tx := set_InterviewQuestion (prisma.deleteMany id (InterviewQuestion tx)) tx in
      let tx := set_InterviewSectionConfig (prisma.deleteMany id (InterviewSectionConfig tx)) tx in
      Return (tt, set_InterviewSession (delete id (InterviewSession tx)) tx)
  end.

End InterviewService.

(** ** server/src/controllers/interview-controller.ts *)

Module InterviewController.

Definition create (body : interview_types.UpdateInterviewDTO) (newId userId : string)
  (db : Database) : Response InterviewSessionRow * Database :=
  match ScoreController.falsy (interview_types.candidateName' body),
        interview_types.candidateName' body,
        interview_types.sectionConfigs' body,
        interview_types.selectedQuestions' body with
  | false, Some candidateName, Some sectionConfigs, Some selectedQuestions =>
      match InterviewService.createInterview newId
              (interview_types.mkCreateInterviewDTO candidateName sectionConfigs selectedQuestions)
              userId db with
      | Return (interview, db') => (Json 201 interview, db')
      | Throw _ => (ErrorJson 500 "Internal server error", db)
      end
  | _, _, _, _ =>
      (ErrorJson 400 "candidateName, sectionConfigs, and selectedQuestions required", db)
  end.

(** The [catch] blocks: [update] and [start] answer 400 to a message that
    mentions SETUP; [complete] and [remove] have no such branch. *)
Definition catch_with_SETUP {A : Type} (e : Thrown) : Response A :=
  let msg := message e in
  if decide (msg = "Interview not found") then ErrorJson 404 msg
  else if decide (msg = "Unauthorized") then ErrorJson 403 msg
  else if includes "SETUP" msg then ErrorJson 400 msg
  else ErrorJson 500 "Internal server error".

Definition catch_plain {A : Type} (e : Thrown) : Response A :=
  let msg := message e in
  if decide (msg = "Interview not found") then ErrorJson 404 msg
  else if decide (msg = "Unauthorized") then ErrorJson 403 msg
  else ErrorJson 500 "Internal server error".

Definition update (id : string) (body : interview_types.UpdateInterviewDTO)
  (userId : string) (db : Database)
  : Response (option InterviewSessionRow) * Database :=
  match InterviewService.updateInterview id body userId db with
  | Return (interview, db') => (Json 200 interview, db')
  | Throw e => (catch_with_SETUP e, db)
  end.

Definition start (id userId : string) (db : Database)
  : Response InterviewSessionRow * Database :=
  match InterviewService.startInterview id userId db with
  | Return (interview, db') => (Json 200 interview, db')
  | Throw e => (catch_with_SETUP e, db)
  end.

Definition complete (id userId : string) (db : Database)
  : Response InterviewSessionRow * Database :=
  match InterviewService.completeInterview id userId db with
  | Return (interview, db') => (Json 200 interview, db')
  | Throw e => (catch_plain e, db)
  end.

Definition remove (id userId : string) (db : Database)
  : Response unit * Database :=
  match InterviewService.deleteInterview id userId db with
  | Return (_, db') => (Json 204 tt, db')
  | Throw e => (catch_plain e, db)
  end.

End InterviewController.

(** ** The routes that write: one authenticated request at a time *)

Inductive Request : Type :=
| CreateInterview (newId : string) (body : interview_types.UpdateInterviewDTO)
| UpdateInterview (id : string) (body : interview_types.UpdateInterviewDTO)
| StartInterview (id : string)
| CompleteInterview (id : string)
| RemoveInterview (id : string)
| UpsertScore (body : ScoreController.Body).

Definition http_status {A : Type} (r : Response A) : Z :=
  match r with
  | Json st _ => st
  | ErrorJson st _ => st
  end.

(** [userId] is what [authMiddleware] read from the caller's token. *)
Definition handle (userId : string) (r : Request) (db : Database) : Z * Database :=
  match r with
  | CreateInterview newId body =>
      let '(res, db') := InterviewController.create body newId userId db in (http_status res, db')
  | UpdateInterview id body =>
      let '(res, db') := InterviewController.update id body userId db in (http_status res, db')
  | StartInterview id =>
      let '(res, db') := InterviewController.start id userId db in (http_status res, db')
  | CompleteInterview id =>
      let '(res, db') := InterviewController.complete id userId db in (http_status res, db')
  | RemoveInterview id =>
      let '(res, db') := InterviewController.remove id userId db in (http_status res, db')
  | UpsertScore body =>
      let '(res, db') := ScoreController.upsert body userId db in (http_status res, db')
  end.

(** A history of requests, each with its caller. *)
Definition serve (history : list (string * Request)) (db : Database) : Database :=
  foldl (fun db ur => snd (handle (fst ur) (snd ur) db)) db history.

(** ** The interview object of [getInterviewData] / client/src/types/interview.ts *)

Record SectionConfig : Type := mkSectionConfig {
  config_sectionId : string;
  config_durationMinutes : Z;
  config_section_name : string }.

Record InterviewQuestionItem : Type := mkInterviewQuestionItem {
  item_questionId : string;
  item_question_sectionId : string;
  item_question_section_name : string }.

Record Interview : Type := mkInterview {
  interview_status : SessionStatus;
  sectionConfigs : list SectionConfig;
  selectedQuestions : list InterviewQuestionItem;
  scores : list ScoreItem }.

(** ** JavaScript library functions *)

(** [new Map(entries)]: a later entry replaces an earlier one with its key. *)
Definition new_Map {V : Type} (entries : list (string * V)) : gmap string V :=
  foldl (fun m kv => <[fst kv := snd kv]> m) ∅ entries.

(** [array.reduce((sum, x) => sum + f(x), 0)]. *)
Definition reduce_sum {A : Type} (f : A -> Q) (l : list A) : Q :=
  foldl (fun sum x => (sum + f x)%Q) (0 # 1)%Q l.

Definition array_length {A : Type} (l : list A) : Q :=
  inject_Z (Z.of_nat (length l)).

(** [x.toFixed(1)], as the number of tenths of the decimal it prints: the
    nearest one, the larger of two equally near. *)
Definition toFixed1 (x : Q) : Z :=
  if Qle_bool (0 # 1) x then Qfloor (x * (10 # 1) + (1 # 2))%Q
  else - Qfloor (- x * (10 # 1) + (1 # 2))%Q.

(** [parseFloat] of a string printed by [toFixed(1)]. *)
Definition parseFloat (tenths : Z) : Q := (tenths # 10)%Q.

(** ** server/src/services/export-service.ts *)

Module ExportService.

Definition scoreMap (interview : Interview) : gmap string ScoreItem :=
  new_Map ((fun s => (score_questionId s, s)) <$> scores interview).

Definition sectionQs (interview : Interview) (sc : SectionConfig)
  : list InterviewQuestionItem :=
  filter (fun q => item_question_section_name q = config_section_name sc)
         (selectedQuestions interview).

(** [.map(q => scoreMap.get(q.questionId)).filter(s => !!s)]. *)
Definition sScores (interview : Interview) (sc : SectionConfig) : list ScoreItem :=
  omap (fun q => scoreMap interview !! item_questionId q) (sectionQs interview sc).

Definition average (l : list ScoreItem) : Q :=
  (reduce_sum (fun s => inject_Z (score_value s)) l / array_length l)%Q.

(** The loop that fills [sectionAvgs]. *)
Definition sectionAvgs (interview : Interview) : list Q :=
  foldl (fun avgs sc =>
           let l := sScores interview sc in
           if (0 <? Z.of_nat (length l))%Z then avgs ++ [average l] else avgs)
        [] (sectionConfigs interview).

Definition overall (interview : Interview) : option Q :=
  let avgs := sectionAvgs interview in
  if (0 <? Z.of_nat (length avgs))%Z then Some (reduce_sum id avgs / array_length avgs)%Q
  else None.

(** [avgScore]: [None] is the text N/A. *)
Definition generateExcel_avgScore (interview : Interview) : option Z :=
  toFixed1 <$> overall interview.

Definition generatePdf_avgScore (interview : Interview) : option Z :=
  toFixed1 <$> overall interview.

(** The rows of the Section Averages sheet and the section headers of the
    PDF: section name and [sectionAvg]. *)
Definition sectionAvg (interview : Interview) (sc : SectionConfig) : option Z :=
  let l := sScores interview sc in
  if (0 <? Z.of_nat (length l))%Z then Some (toFixed1 (average l)) else None.

Definition generateExcel_sectionAvgs (interview : Interview) : list (string * option Z) :=
  (fun sc => (config_section_name sc, sectionAvg interview sc)) <$> sectionConfigs interview.

Definition generatePdf_sectionAvgs (interview : Interview) : list (string * option Z) :=
  (fun sc => (config_section_name sc, sectionAvg interview sc)) <$> sectionConfigs interview.

End ExportService.

(** ** client/src/pages/interview-results-page.tsx *)

Module InterviewResultsPage.

Record SectionGroup : Type := mkSectionGroup {
  group_section_name : string;
  group_questions : list InterviewQuestionItem;
  group_scores : list ScoreItem;
  group_avg : option Z }.

(** [scores] is the answer of [scoreService.listByInterview]. *)
Definition scoreMap (scores : list ScoreItem) : gmap string ScoreItem :=
  new_Map ((fun s => (score_questionId s, s)) <$> scores).

Definition sectionGroups (interview : Interview) (scores : list ScoreItem)
  : list SectionGroup :=
  (fun sc =>
     let sectionQuestions :=
       filter (fun q => item_question_sectionId q = config_sectionId sc)
              (selectedQuestions interview) in
     let sectionScores :=
       omap (fun q => scoreMap scores !! item_questionId q) sectionQuestions in
     let sectionAvg :=
       if (0 <? Z.of_nat (length sectionScores))%Z
       then Some (toFixed1 (reduce_sum (fun s => inject_Z (score_value s)) sectionScores
                            / array_length sectionScores)%Q)
       else None in
     mkSectionGroup (config_section_name sc) sectionQuestions sectionScores sectionAvg)
  <$> sectionConfigs interview.

Definition scoredSections (interview : Interview) (scores : list ScoreItem)
  : list SectionGroup :=
  filter (fun g => group_avg g ≠ None) (sectionGroups interview scores).

(** [avgScore]: [None] is the dash the page shows. *)
Definition avgScore (interview : Interview) (scores : list ScoreItem) : option Z :=
  let scored := scoredSections interview scores in
  if (0 <? Z.of_nat (length scored))%Z
  then Some (toFixed1 (reduce_sum (fun g => parseFloat (default 0%Z (group_avg g))) scored
                       / array_length scored)%Q)
  else None.

End InterviewResultsPage.

(** ** client/src/pages/interview-list-page.tsx *)

Module InterviewListPage.

Definition getOverallScore (interview : Interview) : option Q :=
  if bool_decide (length (scores interview) = 0%nat)
     || bool_decide (length (sectionConfigs interview) = 0%nat)
     || bool_decide (length (selectedQuestions interview) = 0%nat)
  then None
  else
    let scoreMap := new_Map ((fun s => (score_questionId s, score_value s)) <$> scores interview) in
    let sectionAvgs :=
      foldl (fun avgs sc =>
               let sectionScores :=
                 filter (fun s => (0 < s)%Z)
                   (omap (fun q => scoreMap !! item_questionId q)
                      (filter (fun q => item_question_sectionId q = config_sectionId sc)
                         (selectedQuestions interview))) in
               if (0 <? Z.of_nat (length sectionScores))%Z
               then avgs ++ [(reduce_sum inject_Z sectionScores / array_length sectionScores)%Q]
               else avgs)
            [] (sectionConfigs interview) in
    if (0 <? Z.of_nat (length sectionAvgs))%Z
    then Some (reduce_sum id sectionAvgs / array_length sectionAvgs)%Q
    else None.

(** The pill shows [score.toFixed(1)]. *)
Definition ScorePill (interview : Interview) : option Z :=
  toFixed1 <$> getOverallScore interview.

End InterviewListPage.

(** ** client/src/components/section-timer.tsx *)

Module SectionTimer.

Record Props : Type := mkProps {
  startTime : Z;          (* [startTime.getTime()], milliseconds *)
  durationMinutes : Z }.

(** [useState(0)]. *)
Definition initial_elapsed : Z := 0.

(** The interval callback, run when the clock reads [now]:
    [setElapsed(new Date().getTime() - startTime.getTime())]. *)
Definition tick (props : Props) (now : Z) : Z :=
  now - startTime props.

(** What one render derives from the [elapsed] state (the width of the
    progress bar apart). *)
Record View : Type := mkView {
  remaining : Z;
  warning : bool;
  minutes : Z;
  seconds : Z }.

Definition render (props : Props) (elapsed : Z) : View :=
  let totalMs := durationMinutes props * 60 * 1000 in
  let remaining := Z.max 0 (totalMs - elapsed) in
  let warning := remaining <? 60000 in
  let minutes := remaining / 60000 in
  let seconds := Z.rem remaining 60000 / 1000 in
  mkView remaining warning minutes seconds.

End SectionTimer.

(** ** client/src/pages/live-interview-page.tsx *)

Module LiveInterviewPage.

Record Entry : Type := mkEntry {
  entry_score : Z;
  entry_notes : string }.

Record State : Type := mkState {
  currentSectionIdx : Z;
  currentQuestionIdx : Z;
  sectionStartTime : Z;
  state_scores : gmap string Entry }.

(** The requests one run of [saveScores] sends: [Object.entries(scores)]
    filtered on [data.score > 0], one [scoreService.upsert] each.  They are
    sent together ([Promise.all]) and are for distinct questions; the
    server is taken to answer them one after the other. *)
Definition saveScores (id : option string) (scores : gmap string Entry)
  : list ScoreController.Body :=
  if ScoreController.falsy id || bool_decide (length (map_to_list scores) = 0%nat) then []
  else
    (fun kv =>
       ScoreController.mkBody id (Some (fst kv))
         (Some (inject_Z (entry_score (snd kv)))) (Some (entry_notes (snd kv))))
    <$> filter (fun kv => 0 < entry_score (snd kv)) (map_to_list scores).

Definition handleNextSection (id : option string) (interview : Interview) (now : Z)
  (st : State) : list Request * State :=
  let saved := UpsertScore <$> saveScores id (state_scores st) in
  if currentSectionIdx st <? Z.of_nat (length (sectionConfigs interview)) - 1 then
    (saved, mkState (currentSectionIdx st + 1) 0 now (state_scores st))
  else
    match id with
    | Some i => if ScoreController.falsy id then (saved, st)
                else (saved ++ [CompleteInterview i], st)
    | None => (saved, st)
    end.


(** [prev[questionId]?.notes || ''] and [prev[questionId]?.score || 0]. *)
Definition updateScore (questionId : string) (score : Z) (prev : gmap string Entry)
  : gmap string Entry :=
  <[questionId := mkEntry score (default EmptyString (entry_notes <$> prev !! questionId))]> prev.

Definition updateNotes (questionId : string) (notes : string) (prev : gmap string Entry)
  : gmap string Entry :=
  <[questionId := mkEntry (default 0 (entry_score <$> prev !! questionId)) notes]> prev.

End LiveInterviewPage.

(** ** The aggregation of section 4.5 of the specification, in its words *)

Module Aggregation.

Definition sum (l : list Q) : Q := foldr Qplus (0 # 1)%Q l.

(** The arithmetic mean; there is none of no numbers. *)
Definition mean (l : list Q) : option Q :=
  match l with
  | [] => None
  | _ => Some (sum l / inject_Z (Z.of_nat (length l)))%Q
  end.

(** The scores of the section's questions: for each selected question of
    the section, its score entries with [score > 0]. *)
Definition sectionScores (interview : Interview) (sc : SectionConfig) : list Q :=
  flat_map
    (fun q =>
       (fun e => inject_Z (score_value e)) <$>
       filter (fun e => score_questionId e = item_questionId q ∧ 0 < score_value e)
              (scores interview))
    (filter (fun q => item_question_sectionId q = config_sectionId sc)
            (selectedQuestions interview)).

(** One average per section with a scored question, in plan order. *)
Definition sectionAverages (interview : Interview) : list Q :=
  omap (fun sc => mean (sectionScores interview sc)) (sectionConfigs interview).

Definition overallScore (interview : Interview) : option Q :=
  mean (sectionAverages interview).

(** The mean of all individual scores, which the overall score is not. *)
Definition flatMean (interview : Interview) : option Q :=
  mean (flat_map (sectionScores interview) (sectionConfigs interview)).

End Aggregation.

(** Equality of optional numbers, up to the representation of fractions. *)
Definition oQeq (a b : option Q) : Prop :=
  match a, b with
  | Some x, Some y => (x == y)%Q
  | None, None => True
  | _, _ => False
  end.

(** What the database guarantees of an interview object: one score row per
    question (the unique index of [Score]), scores as the controller lets
    them in, and section names that identify sections (the unique index
    on [Section.name]). *)
Record persisted (interview : Interview) : Prop := mkPersisted {
  persisted_unique : NoDup (score_questionId <$> scores interview);
  persisted_positive : ∀ s, s ∈ scores interview → 0 < score_value s;
  persisted_names : ∀ q sc,
    q ∈ selectedQuestions interview → sc ∈ sectionConfigs interview →
    (item_question_section_name q = config_section_name sc
     ↔ item_question_sectionId q = config_sectionId sc) }.

(** ** Concrete data *)

Module Examples.

(** A question bank of two sections and three questions, and one interview
    of user u1 in progress, for which only q1 was selected. *)
Definition bank_sections : gmap string SectionRow :=
  <["s1" := mkSection "Coding" 30]> (<["s2" := mkSection "Design" 20]> ∅).

Definition bank_questions : gmap string QuestionRow :=
  <["q1" := mkQuestion "s1" "Reverse a list"]>
    (<["q2" := mkQuestion "s1" "Find a cycle"]>
       (<["q3" := mkQuestion "s2" "Design a cache"]> ∅)).

Definition db_running : Database :=
  mkDatabase bank_sections bank_questions
    (<["i1" := mkSession "u1" "Ada" IN_PROGRESS]> ∅)
    (<[("i1", "s1") := mkSectionConfigRow 30 1]> ∅)
    (<[("i1", "q1") := mkInterviewQuestionRow 1]> ∅)
    ∅.

(** The same with a score and notes stored for q1. *)
Definition db_scored : Database :=
  set_Score (<[("i1", "q1") := mkScoreRow 2 (Some "slow start")]> ∅) db_running.

Definition db_setup : Database :=
  set_InterviewSession (<["i1" := mkSession "u1" "Ada" SETUP]> ∅) db_running.

Definition body (questionId : string) (score : Q) (notes : option string)
  : ScoreController.Body :=
  ScoreController.mkBody (Some "i1") (Some questionId) (Some score) notes.

(** The page on the last (only) section of i1, with a score for q1. *)
Definition interview_i1 : Interview :=
  mkInterview IN_PROGRESS [mkSectionConfig "s1" 30 "Coding"]
    [mkInterviewQuestionItem "q1" "s1" "Coding"] [].

Definition page_last_section : LiveInterviewPage.State :=
  LiveInterviewPage.mkState 0 0 0 (<["q1" := LiveInterviewPage.mkEntry 4 "ok"]> ∅).

(** A buffer with a scored question and a notes-only one. *)
Definition buffer_notes_only : gmap string LiveInterviewPage.Entry :=
  LiveInterviewPage.updateNotes "q2" "think aloud"
    (LiveInterviewPage.updateScore "q1" 4 ∅).

(** The database once the page has run [handleNextSection] on its last
    section and the server has answered the requests of user u1. *)
Definition db_completed : Database :=
  serve ((fun r => ("u1", r)) <$>
           fst (LiveInterviewPage.handleNextSection (Some "i1") interview_i1 1000
                  page_last_section))
        db_running.

Definition item (questionId sectionId sectionName : string) : InterviewQuestionItem :=
  mkInterviewQuestionItem questionId sectionId sectionName.

Definition scored (questionId : string) (score : Z) : ScoreItem :=
  mkScoreItem "i1" questionId score None.

(** Section A with scores 5, 3, 4 and section B with scores 1, 1. *)
Definition scenario_AB : Interview :=
  mkInterview COMPLETED
    [mkSectionConfig "sA" 30 "A"; mkSectionConfig "sB" 20 "B"]
    [item "a1" "sA" "A"; item "a2" "sA" "A"; item "a3" "sA" "A";
     item "b1" "sB" "B"; item "b2" "sB" "B"]
    [scored "a1" 5; scored "a2" 3; scored "a3" 4; scored "b1" 1; scored "b2" 1].

(** Section A scored, section B not scored at all. *)
Definition scenario_A_only : Interview :=
  mkInterview COMPLETED
    [mkSectionConfig "sA" 30 "A"; mkSectionConfig "sB" 20 "B"]
    [item "a1" "sA" "A"; item "a2" "sA" "A"; item "a3" "sA" "A";
     item "b1" "sB" "B"; item "b2" "sB" "B"]
    [scored "a1" 5; scored "a2" 3; scored "a3" 4].

(** Sections A and B with scores 1, 2, 2 each and section C with score 1. *)
Definition scenario_rounding : Interview :=
  mkInterview COMPLETED
    [mkSectionConfig "sA" 30 "A"; mkSectionConfig "sB" 20 "B"; mkSectionConfig "sC" 10 "C"]
    [item "a1" "sA" "A"; item "a2" "sA" "A"; item "a3" "sA" "A";
     item "b1" "sB" "B"; item "b2" "sB" "B"; item "b3" "sB" "B";
     item "c1" "sC" "C"]
    [scored "a1" 1; scored "a2" 2; scored "a3" 2;
     scored "b1" 1; scored "b2" 2; scored "b3" 2; scored "c1" 1].

End Examples.

(** ** Notions the properties are stated with *)

(** A number that is an integer between 1 and 5. *)
Definition integer_1_to_5 (x : Q) : Prop :=
  ∃ n : Z, 1 ≤ n ≤ 5 ∧ (x == inject_Z n)%Q.

(** The foreign keys of [Score]: each row references an existing session
    and an existing question of the bank. *)
Definition Score_foreign_keys (db : Database) : Prop :=
  ∀ interviewId questionId row,
    Score db !! (interviewId, questionId) = Some row →
    is_Some (InterviewSession db !! interviewId)
    ∧ is_Some (Question db !! questionId).

(** What the specification asks for: each score row is for a question of
    its session's selection. *)
Definition Score_within_selection (db : Database) : Prop :=
  ∀ interviewId questionId row,
    Score db !! (interviewId, questionId) = Some row →
    is_Some (InterviewQuestion db !! (interviewId, questionId)).

(** One step of a session's life cycle, or none. *)
Definition forward (old new : SessionStatus) : Prop :=
  new = old
  ∨ (old = SETUP ∧ new = IN_PROGRESS)
  ∨ (old = IN_PROGRESS ∧ new = COMPLETED).

Definition status_rank (st : SessionStatus) : Z :=
  match st with
  | SETUP => 0
  | IN_PROGRESS => 1
  | COMPLETED => 2
  | CANCELLED => 2
  end.

(** * More of the code *)

Definition set_Question (f : gmap string QuestionRow) (db : Database) : Database :=
  mkDatabase (Section_ db) f (InterviewSession db)
             (InterviewSectionConfig db) (InterviewQuestion db) (Score db).

(** ** server/src/services/question-service.ts

    Of the question bank's service, the method that reads no column left
    out of [QuestionRow]. *)

Module QuestionService.

(** [deleteMany({ where: { questionId } })] on a table keyed by
    [(_, questionId)]. *)
Definition deleteMany {V : Type} (questionId : string)
  (table : gmap (string * string) V) : gmap (string * string) V :=
  filter (fun kv => snd (fst kv) ≠ questionId) table.

(** Three statements in a row, not a transaction; after the rows that
    reference the question are gone nothing restricts its deletion. *)
Definition deleteQuestion (id : string) (db : Database)
  : Result (QuestionRow * Database) :=
  match Question db !! id with
  | None => Throw (Error "Question not found")
  | Some question =>
    let db := set_Score (deleteMany id (Score db)) db in
    let db := set_InterviewQuestion (deleteMany id (InterviewQuestion db)) db in
    Return (question, set_Question (delete id (Question db)) db)
  end.

End QuestionService.

(** ** server/src/controllers/question-controller.ts *)

Module QuestionController.

Definition remove (id : string) (db : Database) : Response unit * Database :=
  match QuestionService.deleteQuestion id db with
  | Return (_, db') => (Json 204 tt, db')
  | Throw e =>
    if decide (message e = "Question not found")
    then (ErrorJson 404 "Question not found", db)
    else (ErrorJson 500 "Internal server error", db)
  end.

End QuestionController.

(** ** The interview with its relations: [ExportService.getInterviewData]
    and [InterviewService.getInterview] *)

(** The scalar fields of the session and the included relations. *)
Record InterviewData : Type := mkInterviewData {
  data_session : InterviewSessionRow;
  data_interview : Interview }.

Module InterviewData.

Fixpoint traverse {A B : Type} (f : A → Result B) (l : list A) : Result (list B) :=
  match l with
  | [] => Return []
  | x :: l =>
    match f x with
    | Throw e => Throw e
    | Return y =>
      match traverse f l with
      | Throw e => Throw e
      | Return ys => Return (y :: ys)
      end
    end
  end.

(** [orderBy: { order: 'asc' }]. *)
Definition orderBy {V : Type} (order : V → Z) (rows : list ((string * string) * V))
  : list ((string * string) * V) :=
  @merge_sort _ (fun a b => order (snd a) ≤ order (snd b))
    (fun a b => Z_le_dec (order (snd a)) (order (snd b))) rows.

(** A required relation that is missing makes Prisma throw. *)
Definition inconsistent : Thrown := Error "Inconsistent query result".

(** [include: { section: true }]. *)
Definition include_section (db : Database)
  (row : (string * string) * InterviewSectionConfigRow) : Result SectionConfig :=
  match Section_ db !! snd (fst row) with
  | Some section =>
      Return (mkSectionConfig (snd (fst row)) (durationMinutes (snd row)) (name section))
  | None => Throw inconsistent
  end.

(** [include: { question: { include: { section: true } } }]. *)
Definition include_question (db : Database)
  (row : (string * string) * InterviewQuestionRow) : Result InterviewQuestionItem :=
  match Question db !! snd (fst row) with
  | Some question =>
    match Section_ db !! sectionId question with
    | Some section =>
        Return (mkInterviewQuestionItem (snd (fst row)) (sectionId question) (name section))
    | None => Throw inconsistent
    end
  | None => Throw inconsistent
  end.

Definition findUnique_with_relations (id : string) (db : Database)
  : Result (option InterviewData) :=
  match InterviewSession db !! id with
  | None => Return None
  | Some session =>
    match traverse (include_section db)
            (orderBy config_order (prisma.findMany id (InterviewSectionConfig db))) with
    | Throw e => Throw e
    | Return configs =>
      match traverse (include_question db)
              (orderBy question_order (prisma.findMany id (InterviewQuestion db))) with
      | Throw e => Throw e
      | Return questions =>
          Return (Some (mkInterviewData session
                          (mkInterview (status session) configs questions
                             (ScoreService.getScoresForInterview id db))))
      end
    end
  end.

(** [ExportService.getInterviewData]. *)
Definition getInterviewData (id : string) (db : Database) : Result InterviewData :=
  match findUnique_with_relations id db with
  | Throw e => Throw e
  | Return None => Throw (Error "Interview not found")
  | Return (Some interview) => Return interview
  end.

(** [InterviewService.getInterview]. *)
Definition getInterview (id userId : string) (db : Database) : Result InterviewData :=
  match findUnique_with_relations id db with
  | Throw e => Throw e
  | Return None => Throw (Error "Interview not found")
  | Return (Some interview) =>
    if decide (interviewerId (data_session interview) ≠ userId)
    then Throw (Error "Unauthorized")
    else Return interview
  end.

(** [InterviewController.getById]. *)
Definition getById (id userId : string) (db : Database) : Response InterviewData :=
  match getInterview id userId db with
  | Return interview => Json 200 interview
  | Throw e => InterviewController.catch_plain e
  end.

End InterviewData.

(** ** server/src/controllers/export-controller.ts *)

Module ExportController.

(** What [res.send(buffer)] sends with its two headers, or the error. *)
Inductive Download (Buffer : Type) : Type :=
| Sent (contentType contentDisposition : string) (buffer : Buffer)
| Refused (status : Z) (error : string).
Arguments Sent {Buffer} contentType contentDisposition buffer.
Arguments Refused {Buffer} status error.

Definition code (c : ascii) : N := N_of_ascii c.

(** The class [a-zA-Z0-9\-_ ]. *)
Definition kept (c : ascii) : bool :=
  ((97 <=? code c) && (code c <=? 122) || (65 <=? code c) && (code c <=? 90)
   || (48 <=? code c) && (code c <=? 57)
   || (code c =? 45) || (code c =? 95) || (code c =? 32))%N.

(** The class [\s], among the characters of a [string]. *)
Definition whitespace (c : ascii) : bool :=
  ((9 <=? code c) && (code c <=? 13) || (code c =? 32) || (code c =? 160))%N.

(** [.replace(/[^a-zA-Z0-9\-_ ]/g, '')]. *)
Fixpoint remove_others (s : string) : string :=
  match s with
  | EmptyString => EmptyString
  | String c s => if kept c then String c (remove_others s) else remove_others s
  end.

(** [.replace(/\s+/g, '-')]: [in_run] tells that the character before was
    whitespace, whose run already gave its dash. *)
Fixpoint dash_runs (in_run : bool) (s : string) : string :=
  match s with
  | EmptyString => EmptyString
  | String c s =>
    if whitespace c
    then (if in_run then dash_runs true s else String "-" (dash_runs true s))
    else String c (dash_runs false s)
  end.

Definition sanitized (candidateName : string) : string :=
  dash_runs false (remove_others candidateName).

Definition quote : string := String (ascii_of_N 34) EmptyString.

(** [today] is [new Date().toISOString().split('T')[0]]. *)
Definition filename (candidateName today extension : string) : string :=
  "starcamp-interview-" ++ sanitized candidateName ++ "-" ++ today ++ extension.

Definition attachment (name : string) : string :=
  "attachment; filename=" ++ quote ++ name ++ quote.

Section Rendering.

(** The document the libraries write from the interview's data. *)
Context {Buffer : Type} (generatePdf generateExcel : InterviewData → Buffer).

Definition export (generate : InterviewData → Buffer) (contentType extension : string)
  (id userId today : string) (db : Database) : Download Buffer :=
  match InterviewData.getInterviewData id db with
  | Throw e =>
    if decide (message e = "Interview not found") then Refused 404 (message e)
    else Refused 500 "Internal server error"
  | Return interview =>
    if decide (interviewerId (data_session interview) ≠ userId)
    then Refused 403 "Unauthorized"
    else
      match InterviewData.getInterviewData id db with
      | Throw e =>
        if decide (message e = "Interview not found") then Refused 404 (message e)
        else Refused 500 "Internal server error"
      | Return again =>
        Sent contentType
             (attachment (filename (candidateName (data_session interview)) today extension))
             (generate again)
      end
  end.

Definition exportPdf : string → string → string → Database → Download Buffer :=
  export generatePdf "application/pdf" ".pdf".

Definition exportExcel : string → string → string → Database → Download Buffer :=
  export generateExcel
    "application/vnd.openxmlformats-officedocument.spreadsheetml.sheet" ".xlsx".

End Rendering.

End ExportController.

(** ** client/src/pages/live-interview-page.tsx: loading, navigation and
    the scoring panel *)

Module LiveInterview.

(** [array[i]], which is [undefined] outside the array. *)
Definition at_index {A : Type} (l : list A) (i : Z) : option A :=
  if i <? 0 then None else l !! Z.to_nat i.

(** The [scoreMap] that [loadInterview] fills from the listed scores:
    [scoreMap[s.questionId] = { score: s.score, notes: s.notes || '' }]. *)
Definition scoreMap (existingScores : list ScoreItem) : gmap string LiveInterviewPage.Entry :=
  foldl (fun scoreMap s =>
           <[score_questionId s :=
               LiveInterviewPage.mkEntry (score_value s)
                 (default EmptyString (score_notes s))]> scoreMap)
        ∅ existingScores.

(** The state [loadInterview] leaves: the interview, the buffer, and
    whether the error was set (and the page left). *)
Record Loaded : Type := mkLoaded {
  loaded_interview : option InterviewData;
  loaded_scores : gmap string LiveInterviewPage.Entry;
  loaded_error : bool }.

(** A response outside 2xx makes axios reject, which the [catch] takes. *)
Definition loadInterview (id : option string) (userId : string) (db : Database)
  : Loaded * Database :=
  match id with
  | None => (mkLoaded None ∅ false, db)
  | Some i =>
    if ScoreController.falsy id then (mkLoaded None ∅ false, db)
    else
      match InterviewData.getById i userId db with
      | ErrorJson _ _ => (mkLoaded None ∅ true, db)
      | Json _ data =>
        let started :=
          if decide (status (data_session data) = SETUP)
          then match InterviewController.start i userId db with
               | (Json _ _, db') => Some db'
               | (ErrorJson _ _, _) => None
               end
          else Some db in
        match started with
        | None => (mkLoaded (Some data) ∅ true, db)
        | Some db' =>
          match ScoreController.listByInterview i userId db' with
          | (Json _ existingScores, db'') =>
              (mkLoaded (Some data) (scoreMap existingScores) false, db'')
          | (ErrorJson _ _, db'') => (mkLoaded (Some data) ∅ true, db'')
          end
        end
      end
  end.

Definition currentSection (interview : Interview) (st : LiveInterviewPage.State)
  : option SectionConfig :=
  at_index (sectionConfigs interview) (LiveInterviewPage.currentSectionIdx st).

(** [questionsInSection]; there is none when [currentSection] is
    [undefined], as reading its [sectionId] throws. *)
Definition questionsInSection (interview : Interview) (st : LiveInterviewPage.State)
  : option (list InterviewQuestionItem) :=
  (fun section =>
     filter (fun q => item_question_sectionId q = config_sectionId section)
            (selectedQuestions interview))
  <$> currentSection interview st.

Definition currentQuestion (interview : Interview) (st : LiveInterviewPage.State)
  : option InterviewQuestionItem :=
  match questionsInSection interview st with
  | Some questions => at_index questions (LiveInterviewPage.currentQuestionIdx st)
  | None => None
  end.

Definition setCurrentQuestionIdx (idx : Z) (st : LiveInterviewPage.State)
  : LiveInterviewPage.State :=
  LiveInterviewPage.mkState (LiveInterviewPage.currentSectionIdx st) idx
    (LiveInterviewPage.sectionStartTime st) (LiveInterviewPage.state_scores st).

Definition setScores
  (f : gmap string LiveInterviewPage.Entry → gmap string LiveInterviewPage.Entry)
  (st : LiveInterviewPage.State) : LiveInterviewPage.State :=
  LiveInterviewPage.mkState (LiveInterviewPage.currentSectionIdx st)
    (LiveInterviewPage.currentQuestionIdx st)
    (LiveInterviewPage.sectionStartTime st) (f (LiveInterviewPage.state_scores st)).

Definition handleNextQuestion (questions : list InterviewQuestionItem)
  (st : LiveInterviewPage.State) : LiveInterviewPage.State :=
  if LiveInterviewPage.currentQuestionIdx st <? Z.of_nat (length questions) - 1
  then setCurrentQuestionIdx (LiveInterviewPage.currentQuestionIdx st + 1) st
  else st.

Definition handlePrevQuestion (st : LiveInterviewPage.State) : LiveInterviewPage.State :=
  if 0 <? LiveInterviewPage.currentQuestionIdx st
  then setCurrentQuestionIdx (LiveInterviewPage.currentQuestionIdx st - 1) st
  else st.

(** [isQuestionScored(idx)]. *)
Definition isQuestionScored (questions : list InterviewQuestionItem)
  (st : LiveInterviewPage.State) (idx : Z) : bool :=
  match at_index questions idx with
  | Some q =>
    match LiveInterviewPage.state_scores st !! item_questionId q with
    | Some entry => 0 <? LiveInterviewPage.entry_score entry
    | None => false
    end
  | None => false
  end.

(** What the interviewer can do on the rendered page: the two question
    buttons, a progress dot, the section button, a radio button of the
    scoring panel and its text area. *)
Inductive Action : Type :=
| NextQuestion
| PrevQuestion
| ProgressDot (idx : nat)
| NextSection (now : Z)
| ScoreChange (s : Z)
| NotesChange (notes : string).

(** The state after an action; [None] when the render has thrown.  A dot
    is there for each question of the section, the radio buttons for the
    scores 1 to 5, and the panel when there is a current question. *)
Definition act (id : option string) (interview : Interview) (a : Action)
  (st : LiveInterviewPage.State) : option LiveInterviewPage.State :=
  match questionsInSection interview st with
  | None => None
  | Some questions =>
    Some
      match a with
      | NextQuestion => handleNextQuestion questions st
      | PrevQuestion => handlePrevQuestion st
      | ProgressDot idx =>
          if bool_decide (idx < length questions)%nat
          then setCurrentQuestionIdx (Z.of_nat idx) st else st
      | NextSection now => snd (LiveInterviewPage.handleNextSection id interview now st)
      | ScoreChange s =>
          match at_index questions (LiveInterviewPage.currentQuestionIdx st) with
          | Some q =>
              if bool_decide (s ∈ [1; 2; 3; 4; 5])
              then setScores (LiveInterviewPage.updateScore (item_questionId q) s) st
              else st
          | None => st
          end
      | NotesChange notes =>
          match at_index questions (LiveInterviewPage.currentQuestionIdx st) with
          | Some q => setScores (LiveInterviewPage.updateNotes (item_questionId q) notes) st
          | None => st
          end
      end
  end.

Fixpoint run (id : option string) (interview : Interview) (actions : list Action)
  (st : LiveInterviewPage.State) : option LiveInterviewPage.State :=
  match actions with
  | [] => Some st
  | a :: actions =>
    match act id interview a st with
    | Some st' => run id interview actions st'
    | None => None
    end
  end.

(** [useState(0)], [useState(0)], [useState(new Date())] and the buffer
    that [loadInterview] has set. *)
Definition initial (now : Z) (scores : gmap string LiveInterviewPage.Entry)
  : LiveInterviewPage.State :=
  LiveInterviewPage.mkState 0 0 now scores.

End LiveInterview.

(** ** client/src/pages/interview-setup-page.tsx *)

Module InterviewSetupPage.


(** [data.forEach(s => (times[s.id] = s.defaultDuration))]. *)
Definition initial_times (sections : list (string * SectionRow)) : gmap string Z :=
  foldl (fun times s => <[fst s := defaultDuration (snd s)]> times) ∅ sections.

(** [parseInt(e.target.value) || 1]; [None] is [NaN]. *)
Definition parseInt_or_1 (value : option Z) : Z :=
  match value with
  | Some n => if decide (n = 0) then 1 else n
  | None => 1
  end.

(** The time input's [onChange]. *)
Definition setSectionTime (sectionId : string) (value : option Z)
  (sectionTimes : gmap string Z) : gmap string Z :=
  <[sectionId := parseInt_or_1 value]> sectionTimes.



Definition times (sections : list (string * SectionRow)) (edits : list (string * option Z))
  : gmap string Z :=
  foldl (fun sectionTimes e => setSectionTime (fst e) (snd e) sectionTimes)
        (initial_times sections) edits.

End InterviewSetupPage.

(** ** Notions the further properties are stated with *)

(** Every stored score is one the controller lets in. *)
Definition Score_in_range (db : Database) : Prop :=
  ∀ key row, Score db !! key = Some row → 1 ≤ score row ≤ 5.

(** The foreign keys and the unique index of [migration.sql] that the
    modelled tables carry. *)
Record constraints (db : Database) : Prop := mkConstraints {
  Question_sectionId_fkey : ∀ q row,
    Question db !! q = Some row → is_Some (Section_ db !! sectionId row);
  InterviewSectionConfig_interviewId_fkey : ∀ i s row,
    InterviewSectionConfig db !! (i, s) = Some row → is_Some (InterviewSession db !! i);
  InterviewSectionConfig_sectionId_fkey : ∀ i s row,
    InterviewSectionConfig db !! (i, s) = Some row → is_Some (Section_ db !! s);
  InterviewQuestion_interviewId_fkey : ∀ i q row,
    InterviewQuestion db !! (i, q) = Some row → is_Some (InterviewSession db !! i);
  InterviewQuestion_questionId_fkey : ∀ i q row,
    InterviewQuestion db !! (i, q) = Some row → is_Some (Question db !! q);
  Score_fkeys : Score_foreign_keys db;
  Section_name_key : ∀ s1 s2 row1 row2,
    Section_ db !! s1 = Some row1 → Section_ db !! s2 = Some row2 →
    name row1 = name row2 → s1 = s2 }.

(** The characters left in the candidate's part of a download's file
    name: letters, digits, the hyphen and the underscore. *)
Definition filename_safe (c : ascii) : bool :=
  ((97 <=? ExportController.code c) && (ExportController.code c <=? 122)
   || (65 <=? ExportController.code c) && (ExportController.code c <=? 90)
   || (48 <=? ExportController.code c) && (ExportController.code c <=? 57)
   || (ExportController.code c =? 45) || (ExportController.code c =? 95))%N.

(** The row an upsert of [saveScores] leaves, created or updated. *)
Definition saved_row (entry : LiveInterviewPage.Entry) : ScoreRow :=
  mkScoreRow (LiveInterviewPage.entry_score entry)
    (Some (LiveInterviewPage.entry_notes entry)).

(** The body [saveScores] sends for an entry of the buffer. *)
Definition saved_body (id : string) (kv : string * LiveInterviewPage.Entry)
  : ScoreController.Body :=
  ScoreController.mkBody (Some id) (Some (fst kv))
    (Some (inject_Z (LiveInterviewPage.entry_score (snd kv))))
    (Some (LiveInterviewPage.entry_notes (snd kv))).

(** The buffer entry [loadInterview] makes of a stored row. *)
Definition loaded_entry (row : ScoreRow) : LiveInterviewPage.Entry :=
  LiveInterviewPage.mkEntry (score row) (default EmptyString (notes row)).

(** The live page's state fits its interview: the current section is one
    of the plan, the current question one of the section unless the
    section has none, and the buffer holds scores from 0 (not scored) to 5,
    for questions it was loaded with or questions of the plan. *)
Record fits (interview : Interview) (loaded : gmap string LiveInterviewPage.Entry)
  (st : LiveInterviewPage.State) : Prop := mkFits {
  fits_section :
    0 ≤ LiveInterviewPage.currentSectionIdx st
      < Z.of_nat (length (sectionConfigs interview));
  fits_question : ∀ questions,
    LiveInterview.questionsInSection interview st = Some questions →
    (0 ≤ LiveInterviewPage.currentQuestionIdx st < Z.of_nat (length questions))
    ∨ (LiveInterviewPage.currentQuestionIdx st = 0 ∧ questions = []);
  fits_scores : ∀ q entry,
    LiveInterviewPage.state_scores st !! q = Some entry →
    0 ≤ LiveInterviewPage.entry_score entry ≤ 5
    ∧ (is_Some (loaded !! q) ∨ q ∈ item_questionId <$> selectedQuestions interview) }.

(** What [include] makes of a row of the plan. *)
Definition config_of (db : Database) (row : (string * string) * InterviewSectionConfigRow)
  (sc : SectionConfig) : Prop :=
  ∃ section, Section_ db !! snd (fst row) = Some section
             ∧ sc = mkSectionConfig (snd (fst row)) (durationMinutes (snd row)) (name section).

Definition question_of (db : Database) (row : (string * string) * InterviewQuestionRow)
  (item : InterviewQuestionItem) : Prop :=
  ∃ question section,
    Question db !! snd (fst row) = Some question
    ∧ Section_ db !! sectionId question = Some section
    ∧ item = mkInterviewQuestionItem (snd (fst row)) (sectionId question) (name section).

(** ** More concrete data *)

Module MoreExamples.

(** A request to create an interview with both sections and two questions. *)
Definition create_body : interview_types.UpdateInterviewDTO :=
  interview_types.mkUpdateInterviewDTO (Some "Grace")
    (Some [interview_types.mkSectionConfigDTO "s1" 25;
           interview_types.mkSectionConfigDTO "s2" 15])
    (Some [interview_types.mkSelectedQuestionDTO "q3" 1;
           interview_types.mkSelectedQuestionDTO "q1" 2]).

End MoreExamples.

(** * Properties *)

(** ** The section timer *)

(** C6. After the interval callback has run at wall-clock time [now], the
    render shows [remaining = max(0, durationMinutes*60000 - (now - startTime))],
    which is never negative, and [warning] holds exactly when fewer than
    60000 ms remain.  With one minute allocated and an anchor 70 seconds
    in the past, [remaining] is 0 and [warning] is set. *)
Theorem SectionTimer_remaining_and_warning :
  (∀ props now,
     let view := SectionTimer.render props (SectionTimer.tick props now) in
     SectionTimer.remaining view
       = Z.max 0 (SectionTimer.durationMinutes props * 60000
                  - (now - SectionTimer.startTime props))
     ∧ 0 ≤ SectionTimer.remaining view
     ∧ (SectionTimer.warning view = true ↔ SectionTimer.remaining view < 60000))
  ∧ (∀ anchor,
       let props := SectionTimer.mkProps anchor 1 in
       let view := SectionTimer.render props (SectionTimer.tick props (anchor + 70000)) in
       SectionTimer.remaining view = 0 ∧ SectionTimer.warning view = true).
Proof.
  split.
  - intros props now view. subst view.
    unfold SectionTimer.render, SectionTimer.tick. cbn [SectionTimer.remaining SectionTimer.warning].
    repeat split.
    + f_equal. lia.
    + lia.
    + intros H. apply Z.ltb_lt in H. exact H.
    + intros H. apply Z.ltb_lt. exact H.
  - intros anchor props view. subst view props.
    unfold SectionTimer.render, SectionTimer.tick. cbn [SectionTimer.remaining SectionTimer.warning
      SectionTimer.durationMinutes SectionTimer.startTime].
    replace (1 * 60 * 1000 - (anchor + 70000 - anchor)) with (-10000) by lia.
    split; reflexivity.
Qed.

(** ** Score validation and ownership *)

Section ScoreValidation.

Lemma Number_isInteger_spec x :
  ScoreController.Number_isInteger x = true ↔ ∃ n : Z, (x == inject_Z n)%Q.
Proof.
  unfold ScoreController.Number_isInteger. rewrite Z.eqb_eq.
  destruct x as [a b]. cbn [Qnum Qden]. unfold Qeq. cbn [Qnum Qden inject_Z].
  rewrite Z.mod_divide by discriminate. unfold Z.divide.
  split; intros [n Hn]; exists n; lia.
Qed.

Lemma invalid_score_spec x :
  ScoreController.invalid_score x = false ↔ integer_1_to_5 x.
Proof.
  unfold ScoreController.invalid_score, integer_1_to_5.
  rewrite !orb_false_iff, !negb_false_iff, Number_isInteger_spec, !Qle_bool_iff.
  split.
  - intros [[[n Hn] H1] H5]. exists n. split; [|exact Hn].
    rewrite Hn in H1, H5.
    change (1 # 1)%Q with (inject_Z 1) in H1. change (5 # 1)%Q with (inject_Z 5) in H5.
    rewrite <- Zle_Qle in H1, H5. lia.
  - intros (n & Hr & Hn). rewrite Hn.
    change (1 # 1)%Q with (inject_Z 1). change (5 # 1)%Q with (inject_Z 5).
    rewrite <- !Zle_Qle. repeat split; [by exists n | lia | lia].
Qed.

Lemma Qfloor_integer x n : (x == inject_Z n)%Q → Qfloor x = n.
Proof. intros H. rewrite H. apply Qfloor_Z. Qed.

Lemma falsy_Some s : s ≠ EmptyString → ScoreController.falsy (Some s) = false.
Proof. intros H. unfold ScoreController.falsy. by destruct (decide (s = EmptyString)). Qed.

End ScoreValidation.

(** C7. Every request whose score is not an integer of [1,5] is answered
    400 and changes nothing, with "score must be an integer between 1 and
    5" when it names its interview and question; every request for an
    interview that exists and is not the caller's is answered with an error
    and changes nothing, with 403 "Unauthorized" when it passed the checks
    before; and a request with an integer score of [1,5] from the owner of
    an existing interview passes both checks and gets the answer of
    [ScoreService.upsertScore]. *)
Theorem upsert_rejects_invalid_score_and_foreign_caller
  (body : ScoreController.Body) (userId : string) (db : Database) :
  let unnamed :=
    ScoreController.falsy (ScoreController.body_interviewId body)
    || ScoreController.falsy (ScoreController.body_questionId body) in
  (∀ score,
     ScoreController.body_score body = Some score → ¬ integer_1_to_5 score →
     ScoreController.upsert body userId db
     = (ErrorJson 400
          (if unnamed then "interviewId, questionId, and score required"
           else "score must be an integer between 1 and 5"), db))
  ∧ (∀ interviewId interview,
       ScoreController.body_interviewId body = Some interviewId →
       InterviewSession db !! interviewId = Some interview →
       interviewerId interview ≠ userId →
       ∃ code error,
         ScoreController.upsert body userId db = (ErrorJson code error, db)
         ∧ (unnamed = false →
            ∀ score, ScoreController.body_score body = Some score → integer_1_to_5 score →
                     code = 403 ∧ error = "Unauthorized"))
  ∧ (∀ interviewId questionId score interview,
       ScoreController.body_interviewId body = Some interviewId →
       ScoreController.body_questionId body = Some questionId →
       ScoreController.body_score body = Some score →
       unnamed = false → integer_1_to_5 score →
       InterviewSession db !! interviewId = Some interview →
       interviewerId interview = userId →
       ScoreController.upsert body userId db
       = match ScoreService.upsertScore
                 (ScoreService.mkUpsertData interviewId questionId (Qfloor score)
                    (ScoreController.body_notes body)) db with
         | Return (result, db') => (Json 200 result, db')
         | Throw _ => (ErrorJson 500 "Internal server error", db)
         end).
Proof.
  intros unnamed. unfold ScoreController.upsert. fold unnamed.
  split; [|split].
  - intros score Hs Hbad. rewrite Hs. rewrite bool_decide_eq_false_2 by discriminate.
    rewrite orb_false_r. destruct unnamed; [reflexivity|].
    cbn [default from_option id].
    destruct (ScoreController.invalid_score score) eqn:E; [reflexivity|].
    apply invalid_score_spec in E. contradiction.
  - intros interviewId interview Hi Hlook Hother. rewrite Hi.
    cbn [default from_option id].
    destruct (unnamed || bool_decide (ScoreController.body_score body = None)) eqn:Hreq.
    + eexists _, _. split; [reflexivity|]. intros Hn score Hs _.
      rewrite Hn, Hs in Hreq. cbn in Hreq. discriminate.
    + destruct (ScoreController.invalid_score _) eqn:E.
      * eexists _, _. split; [reflexivity|]. intros _ score Hs Hok.
        rewrite Hs in E. cbn in E. apply invalid_score_spec in Hok. congruence.
      * rewrite Hlook.
        destruct (decide (interviewerId interview ≠ userId)); [|contradiction].
        eexists _, _. split; [reflexivity|]. by intros.
  - intros interviewId questionId score interview Hi Hq Hs Hn Hok Hlook Howner.
    rewrite Hi, Hq, Hs, Hn. rewrite bool_decide_eq_false_2 by discriminate.
    cbn [orb default from_option id].
    apply invalid_score_spec in Hok. rewrite Hok, Hlook.
    destruct (decide (interviewerId interview ≠ userId)); [contradiction | reflexivity].
Qed.

Lemma upsert_rejects_invalid_score_and_foreign_caller_witness :
  ScoreController.upsert (Examples.body "q1" (9 # 1)%Q None) "u1" Examples.db_running
  = (ErrorJson 400 "score must be an integer between 1 and 5", Examples.db_running)
  ∧ ∃ code error,
      ScoreController.upsert (Examples.body "q1" (3 # 1)%Q None) "u2" Examples.db_running
      = (ErrorJson code error, Examples.db_running)
      ∧ code = 403 ∧ error = "Unauthorized".
Proof.
  split.
  - refine (proj1 (upsert_rejects_invalid_score_and_foreign_caller
                     (Examples.body "q1" (9 # 1)%Q None) "u1" Examples.db_running)
              (9 # 1)%Q _ _).
    + reflexivity.
    + intros (n & Hn & Heq). unfold Qeq in Heq. simpl in Heq. lia.
  - destruct (proj1 (proj2 (upsert_rejects_invalid_score_and_foreign_caller
                     (Examples.body "q1" (3 # 1)%Q None) "u2" Examples.db_running))
                "i1" (mkSession "u1" "Ada" IN_PROGRESS)) as (code & error & Hres & Hkind).
    + reflexivity.
    + reflexivity.
    + discriminate.
    + exists code, error. split; [exact Hres|].
      apply (Hkind eq_refl (3 # 1)%Q); [reflexivity|].
      exists 3. split; [lia | reflexivity].
Defined.

(** ** Writing and reading scores *)

Section ScoreRoundTrip.

Lemma upsert_accepted interviewId questionId n notes userId db interview :
  interviewId ≠ EmptyString → questionId ≠ EmptyString → 1 ≤ n ≤ 5 →
  InterviewSession db !! interviewId = Some interview →
  interviewerId interview = userId →
  ScoreController.upsert
    (ScoreController.mkBody (Some interviewId) (Some questionId) (Some (inject_Z n)) notes)
    userId db
  = match ScoreService.upsertScore
            (ScoreService.mkUpsertData interviewId questionId n notes) db with
    | Return (result, db') => (Json 200 result, db')
    | Throw _ => (ErrorJson 500 "Internal server error", db)
    end.
Proof.
  intros Hi Hq Hn Hlook Howner. unfold ScoreController.upsert.
  cbn [ScoreController.body_interviewId ScoreController.body_questionId
       ScoreController.body_score ScoreController.body_notes default from_option id].
  rewrite !falsy_Some by assumption.
  rewrite bool_decide_eq_false_2 by discriminate. cbn [orb].
  assert (ScoreController.invalid_score (inject_Z n) = false) as ->.
  { apply invalid_score_spec. exists n. split; [lia | reflexivity]. }
  rewrite Hlook, Qfloor_Z.
  destruct (decide (interviewerId interview ≠ userId)); [contradiction | reflexivity].
Qed.

Lemma upsertScore_update interviewId questionId n notes' db old :
  Score db !! (interviewId, questionId) = Some old →
  let row := mkScoreRow n (match notes' with Some t => Some t | None => notes old end) in
  ScoreService.upsertScore (ScoreService.mkUpsertData interviewId questionId n notes') db
  = Return (ScoreItem_of (interviewId, questionId) row,
            set_Score (<[(interviewId, questionId) := row]> (Score db)) db).
Proof.
  intros Hold row. unfold ScoreService.upsertScore, prisma.score_upsert.
  cbn [ScoreService.data_interviewId ScoreService.data_questionId
       ScoreService.data_score ScoreService.data_notes].
  by rewrite Hold.
Qed.

Lemma upsertScore_create interviewId questionId n notes' db :
  Score db !! (interviewId, questionId) = None →
  is_Some (InterviewSession db !! interviewId) →
  is_Some (Question db !! questionId) →
  let row := mkScoreRow n notes' in
  ScoreService.upsertScore (ScoreService.mkUpsertData interviewId questionId n notes') db
  = Return (ScoreItem_of (interviewId, questionId) row,
            set_Score (<[(interviewId, questionId) := row]> (Score db)) db).
Proof.
  intros Hnone [i Hi] [q Hq] row. unfold ScoreService.upsertScore, prisma.score_upsert.
  cbn [ScoreService.data_interviewId ScoreService.data_questionId
       ScoreService.data_score ScoreService.data_notes].
  by rewrite Hnone, Hi, Hq.
Qed.

Lemma elem_of_getScoresForInterview item interviewId db :
  item ∈ ScoreService.getScoresForInterview interviewId db
  ↔ ∃ questionId row,
      Score db !! (interviewId, questionId) = Some row
      ∧ item = ScoreItem_of (interviewId, questionId) row.
Proof.
  unfold ScoreService.getScoresForInterview, prisma.findMany.
  rewrite list_elem_of_fmap. split.
  - intros ([[i q] row] & -> & Hin).
    apply list_elem_of_filter in Hin as [Hi Hin]. cbn in Hi. subst i.
    apply elem_of_map_to_list in Hin. by exists q, row.
  - intros (q & row & Hlook & ->). exists ((interviewId, q), row). split; [reflexivity|].
    apply list_elem_of_filter. split; [reflexivity|]. by apply elem_of_map_to_list.
Qed.

End ScoreRoundTrip.

(** C10. When a score row exists, an upsert for the same interview and
    question that carries no notes replaces the score and keeps the stored
    notes, in the service and through the controller. *)
Theorem upsert_without_notes_keeps_notes
  (interviewId questionId : string) (n : Z) (userId : string) (db : Database)
  (interview : InterviewSessionRow) (old : ScoreRow) :
  interviewId ≠ EmptyString → questionId ≠ EmptyString → 1 ≤ n ≤ 5 →
  InterviewSession db !! interviewId = Some interview →
  interviewerId interview = userId →
  Score db !! (interviewId, questionId) = Some old →
  let row := mkScoreRow n (notes old) in
  let db' := set_Score (<[(interviewId, questionId) := row]> (Score db)) db in
  ScoreService.upsertScore (ScoreService.mkUpsertData interviewId questionId n None) db
  = Return (ScoreItem_of (interviewId, questionId) row, db')
  ∧ ScoreController.upsert
      (ScoreController.mkBody (Some interviewId) (Some questionId) (Some (inject_Z n)) None)
      userId db
    = (Json 200 (ScoreItem_of (interviewId, questionId) row), db')
  ∧ Score db' !! (interviewId, questionId) = Some row.
Proof.
  intros Hi Hq Hn Hlook Howner Hold row db'.
  pose proof (upsertScore_update interviewId questionId n None db old Hold) as Hup.
  cbn zeta in Hup. repeat split.
  - exact Hup.
  - rewrite (upsert_accepted _ _ _ _ _ _ interview) by assumption. by rewrite Hup.
  - subst db'. cbn [Score set_Score]. apply lookup_insert_eq.
Qed.

Lemma upsert_without_notes_keeps_notes_witness :
  Score (snd (ScoreController.upsert (Examples.body "q1" (inject_Z 5) None) "u1"
                Examples.db_scored))
    !! ("i1", "q1")
  = Some (mkScoreRow 5 (Some "slow start")).
Proof.
  destruct (upsert_without_notes_keeps_notes "i1" "q1" 5 "u1" Examples.db_scored
              (mkSession "u1" "Ada" IN_PROGRESS) (mkScoreRow 2 (Some "slow start")))
    as (_ & Hc & Hs).
  - discriminate.
  - discriminate.
  - lia.
  - reflexivity.
  - reflexivity.
  - reflexivity.
  - unfold Examples.body. rewrite Hc. exact Hs.
Defined.



(** ** The life cycle of a session *)

Section LifeCycle.

Lemma createMany_Return {V : Type} references interviewId
  (rows : list (string * V)) table table' :
  InterviewService.createMany references interviewId rows table = Return table' →
  ∀ k, fst k ≠ interviewId → table' !! k = table !! k.
Proof.
  revert table. induction rows as [|[k v] rows IH]; intros table H key Hkey; cbn in H.
  - by injection H as ->.
  - destruct (negb (references k)); [discriminate|].
    destruct (table !! (interviewId, k)); [discriminate|].
    rewrite (IH _ H key Hkey). apply lookup_insert_ne. intros <-. by apply Hkey.
Qed.

Lemma createInterview_tables newId data userId db interview db' :
  InterviewService.createInterview newId data userId db = Return (interview, db') →
  InterviewSession db !! newId = None
  ∧ status interview = SETUP
  ∧ InterviewSession db' = <[newId := interview]> (InterviewSession db)
  ∧ Score db' = Score db ∧ Question db' = Question db ∧ Section_ db' = Section_ db.
Proof.
  unfold InterviewService.createInterview.
  destruct (InterviewSession db !! newId); [discriminate|].
  destruct (InterviewService.createMany _ _ _ _); [|discriminate].
  destruct (InterviewService.createMany _ _ _ _); [|discriminate].
  intros [= <- <-]. by repeat split.
Qed.

Lemma updateInterview_tables id data userId db result db' :
  InterviewService.updateInterview id data userId db = Return (result, db') →
  ∃ old, InterviewSession db !! id = Some old
    ∧ interviewerId old = userId ∧ status old = SETUP
    ∧ (InterviewSession db' = InterviewSession db
       ∨ ∃ renamed, InterviewSession db'
           = <[id := mkSession (interviewerId old) renamed (status old)]> (InterviewSession db))
    ∧ Score db' = Score db ∧ Question db' = Question db ∧ Section_ db' = Section_ db.
Proof.
  unfold InterviewService.updateInterview.
  destruct (InterviewSession db !! id) as [old|]; [|discriminate].
  destruct (decide (interviewerId old ≠ userId)) as [|Howner]; [discriminate|].
  destruct (decide (status old ≠ SETUP)) as [|Hst]; [discriminate|].
  apply dec_stable in Howner. apply dec_stable in Hst.
  intros H. exists old. split; [reflexivity|]. split; [exact Howner|]. split; [exact Hst|].
  set (tx := if InterviewService.truthy (interview_types.candidateName' data) then _ else db) in H.
  assert ((InterviewSession tx = InterviewSession db
           ∨ ∃ renamed, InterviewSession tx
               = <[id := mkSession (interviewerId old) renamed (status old)]> (InterviewSession db))
          ∧ Score tx = Score db ∧ Question tx = Question db ∧ Section_ tx = Section_ db) as Htx.
  { subst tx. destruct (InterviewService.truthy _); cbn; (split; [|done]);
      [right; eexists; reflexivity | by left]. }
  clearbody tx.
  destruct (interview_types.sectionConfigs' data);
    [destruct (InterviewService.createMany _ _ _ _); [|discriminate]|];
    (destruct (interview_types.selectedQuestions' data);
     [destruct (InterviewService.createMany _ _ _ _); [|discriminate]|]);
    injection H as <- <-; exact Htx.
Qed.

Lemma startInterview_Return id userId db old :
  InterviewSession db !! id = Some old → interviewerId old = userId → status old = SETUP →
  InterviewService.startInterview id userId db
  = Return (InterviewService.set_status id old IN_PROGRESS db).
Proof.
  intros Hlook Howner Hst. unfold InterviewService.startInterview. rewrite Hlook.
  destruct (decide (interviewerId old ≠ userId)); [contradiction|].
  destruct (decide (status old ≠ SETUP)); [contradiction | reflexivity].
Qed.

Lemma startInterview_Throw id userId db old :
  InterviewSession db !! id = Some old → interviewerId old = userId → status old ≠ SETUP →
  InterviewService.startInterview id userId db
  = Throw (Error "Can only start interviews in SETUP status").
Proof.
  intros Hlook Howner Hst. unfold InterviewService.startInterview. rewrite Hlook.
  destruct (decide (interviewerId old ≠ userId)); [contradiction|].
  destruct (decide (status old ≠ SETUP)); [reflexivity | contradiction].
Qed.

Lemma startInterview_inv id userId db interview db' :
  InterviewService.startInterview id userId db = Return (interview, db') →
  ∃ old, InterviewSession db !! id = Some old
    ∧ interviewerId old = userId ∧ status old = SETUP
    ∧ (interview, db') = InterviewService.set_status id old IN_PROGRESS db.
Proof.
  unfold InterviewService.startInterview.
  destruct (InterviewSession db !! id) as [old|]; [|discriminate].
  destruct (decide (interviewerId old ≠ userId)) as [|Howner]; [discriminate|].
  destruct (decide (status old ≠ SETUP)) as [|Hst]; [discriminate|].
  apply dec_stable in Howner. apply dec_stable in Hst.
  intros H. exists old. repeat split; try done. congruence.
Qed.

Lemma completeInterview_Return id userId db old :
  InterviewSession db !! id = Some old → interviewerId old = userId →
  status old = IN_PROGRESS →
  InterviewService.completeInterview id userId db
  = Return (InterviewService.set_status id old COMPLETED db).
Proof.
  intros Hlook Howner Hst. unfold InterviewService.completeInterview. rewrite Hlook.
  destruct (decide (interviewerId old ≠ userId)); [contradiction|].
  destruct (decide (status old ≠ IN_PROGRESS)); [contradiction | reflexivity].
Qed.

Lemma completeInterview_Throw id userId db old :
  InterviewSession db !! id = Some old → interviewerId old = userId →
  status old ≠ IN_PROGRESS →
  InterviewService.completeInterview id userId db
  = Throw (Error "Can only complete interviews in IN_PROGRESS status").
Proof.
  intros Hlook Howner Hst. unfold InterviewService.completeInterview. rewrite Hlook.
  destruct (decide (interviewerId old ≠ userId)); [contradiction|].
  destruct (decide (status old ≠ IN_PROGRESS)); [reflexivity | contradiction].
Qed.

Lemma completeInterview_inv id userId db interview db' :
  InterviewService.completeInterview id userId db = Return (interview, db') →
  ∃ old, InterviewSession db !! id = Some old
    ∧ interviewerId old = userId ∧ status old = IN_PROGRESS
    ∧ (interview, db') = InterviewService.set_status id old COMPLETED db.
Proof.
  unfold InterviewService.completeInterview.
  destruct (InterviewSession db !! id) as [old|]; [|discriminate].
  destruct (decide (interviewerId old ≠ userId)) as [|Howner]; [discriminate|].
  destruct (decide (status old ≠ IN_PROGRESS)) as [|Hst]; [discriminate|].
  apply dec_stable in Howner. apply dec_stable in Hst.
  intros H. exists old. repeat split; try done. congruence.
Qed.

Lemma deleteInterview_tables id userId db db' :
  InterviewService.deleteInterview id userId db = Return (tt, db') →
  InterviewSession db' = delete id (InterviewSession db)
  ∧ Score db' = prisma.deleteMany id (Score db)
  ∧ Question db' = Question db ∧ Section_ db' = Section_ db.
Proof.
  unfold InterviewService.deleteInterview.
  destruct (InterviewSession db !! id) as [old|]; [|discriminate].
  destruct (decide (interviewerId old ≠ userId)); [discriminate|].
  intros [= <-]. by repeat split.
Qed.

Lemma upsert_tables body userId db :
  let db' := snd (ScoreController.upsert body userId db) in
  InterviewSession db' = InterviewSession db
  ∧ Question db' = Question db ∧ Section_ db' = Section_ db
  ∧ InterviewQuestion db' = InterviewQuestion db.
Proof.
  unfold ScoreController.upsert.
  repeat (match goal with
          | |- context [if ?b then _ else _] => destruct b
          | |- context [match ?x with Some _ => _ | None => _ end] => destruct x eqn:?
          end; cbn; try done).
  unfold ScoreService.upsertScore, prisma.score_upsert.
  repeat (match goal with
          | |- context [match ?x with Some _ => _ | None => _ end] => destruct x eqn:?
          end; cbn; try done).
Qed.

End LifeCycle.

Section Requests.

Lemma forward_refl st : forward st st.
Proof. by left. Qed.

Lemma forward_rank old new : forward old new → status_rank old ≤ status_rank new.
Proof. intros [->|[[-> ->]|[-> ->]]]; cbn; lia. Qed.

Lemma set_status_lookup id old st db :
  InterviewSession (snd (InterviewService.set_status id old st db)) !! id
  = Some (mkSession (interviewerId old) (candidateName old) st).
Proof. cbn. apply lookup_insert_eq. Qed.

Lemma set_status_lookup_ne id id' old st db :
  id ≠ id' →
  InterviewSession (snd (InterviewService.set_status id old st db)) !! id'
  = InterviewSession db !! id'.
Proof. intros H. cbn. by apply lookup_insert_ne. Qed.

(** What a request may do to a session that exists: remove it, or leave
    its owner and move its status by at most one step. *)
Lemma handle_session userId r db id old :
  InterviewSession db !! id = Some old →
  let db' := snd (handle userId r db) in
  (InterviewSession db' !! id = None ∧ r = RemoveInterview id)
  ∨ ∃ new, InterviewSession db' !! id = Some new
      ∧ interviewerId new = interviewerId old
      ∧ forward (status old) (status new).
Proof.
  intros Hold db'. subst db'.
  assert (∃ new, InterviewSession db !! id = Some new
            ∧ interviewerId new = interviewerId old
            ∧ forward (status old) (status new)) as Hsame.
  { exists old. split; [exact Hold|]. split; [reflexivity | apply forward_refl]. }
  destruct r as [newId body|id' body|id'|id'|id'|body]; cbn [handle].
  - unfold InterviewController.create.
    destruct (ScoreController.falsy _), (interview_types.candidateName' body),
      (interview_types.sectionConfigs' body), (interview_types.selectedQuestions' body);
      cbn; try (right; exact Hsame).
    destruct (InterviewService.createInterview _ _ _ _) as [[i db']|] eqn:E;
      cbn; [|right; exact Hsame].
    apply createInterview_tables in E as (Hfresh & _ & -> & _).
    right. exists old. rewrite lookup_insert_ne by congruence.
    split; [exact Hold|]. split; [reflexivity | apply forward_refl].
  - unfold InterviewController.update.
    destruct (InterviewService.updateInterview _ _ _ _) as [[i db']|] eqn:E;
      cbn; [|right; exact Hsame].
    apply updateInterview_tables in E as (old' & Hold' & _ & _ & [->|[renamed ->]] & _);
      [right; exact Hsame|].
    right. destruct (decide (id' = id)) as [->|Hne].
    + rewrite Hold in Hold'. injection Hold' as <-.
      eexists. rewrite lookup_insert_eq. split; [reflexivity|].
      split; [reflexivity | apply forward_refl].
    + rewrite lookup_insert_ne by exact Hne. exact Hsame.
  - unfold InterviewController.start.
    destruct (InterviewService.startInterview _ _ _) as [[i db']|] eqn:E;
      cbn; [|right; exact Hsame].
    apply startInterview_inv in E as (old' & Hold' & _ & Hst & E).
    assert (db' = snd (InterviewService.set_status id' old' IN_PROGRESS db)) as ->
      by (by rewrite <- E).
    right. destruct (decide (id' = id)) as [->|Hne].
    + rewrite Hold in Hold'. injection Hold' as <-.
      eexists. rewrite set_status_lookup. split; [reflexivity|].
      split; [reflexivity|]. right. left. by split.
    + rewrite set_status_lookup_ne by exact Hne. exact Hsame.
  - unfold InterviewController.complete.
    destruct (InterviewService.completeInterview _ _ _) as [[i db']|] eqn:E;
      cbn; [|right; exact Hsame].
    apply completeInterview_inv in E as (old' & Hold' & _ & Hst & E).
    assert (db' = snd (InterviewService.set_status id' old' COMPLETED db)) as ->
      by (by rewrite <- E).
    right. destruct (decide (id' = id)) as [->|Hne].
    + rewrite Hold in Hold'. injection Hold' as <-.
      eexists. rewrite set_status_lookup. split; [reflexivity|].
      split; [reflexivity|]. right. right. by split.
    + rewrite set_status_lookup_ne by exact Hne. exact Hsame.
  - unfold InterviewController.remove.
    destruct (InterviewService.deleteInterview _ _ _) as [[[] db']|] eqn:E;
      cbn; [|right; exact Hsame].
    apply deleteInterview_tables in E as (-> & _).
    destruct (decide (id' = id)) as [->|Hne].
    + left. split; [apply lookup_delete_eq | reflexivity].
    + right. rewrite lookup_delete_ne by exact Hne. exact Hsame.
  - right.
    destruct (ScoreController.upsert body userId db) as [res db'] eqn:E. cbn.
    pose proof (upsert_tables body userId db) as (Hs & _). rewrite E in Hs. cbn in Hs.
    rewrite Hs. exact Hsame.
Qed.

(** Over any history of requests that does not remove the session, its
    status never ranks lower than before. *)
Lemma serve_status_rank history db id old :
  InterviewSession db !! id = Some old →
  (∀ userId, (userId, RemoveInterview id) ∉ history) →
  ∃ new, InterviewSession (serve history db) !! id = Some new
    ∧ status_rank (status old) ≤ status_rank (status new).
Proof.
  revert db old. induction history as [|[userId r] history IH]; intros db old Hold Hkeep.
  - exists old. split; [exact Hold | lia].
  - change (serve ((userId, r) :: history) db)
      with (serve history (snd (handle userId r db))).
    destruct (handle_session userId r db id old Hold) as [[_ ->]|(mid & Hmid & _ & Hf)].
    + exfalso. apply (Hkeep userId). by left.
    + destruct (IH _ mid Hmid) as (new & Hnew & Hrank).
      { intros u Hu. apply (Hkeep u). by right. }
      exists new. split; [exact Hnew|]. apply forward_rank in Hf. lia.
Qed.

End Requests.

(** C5. For its owner [start] succeeds from SETUP and leaves the session
    IN_PROGRESS, and [complete] succeeds from IN_PROGRESS and leaves it
    COMPLETED; neither succeeds otherwise: from any other status the
    service throws, the handler answers with an error, and an answer that
    is an error leaves the database as it was, so a second
    [start] is answered 400 "Can only start interviews in SETUP status";
    no request moves the status of a session other than one step forward,
    and over any history of requests that keeps the session its status
    never ranks lower than it did. *)
Theorem status_only_moves_forward :
  (∀ id userId db old,
     InterviewSession db !! id = Some old → interviewerId old = userId →
     (status old = SETUP →
        ∃ db', InterviewController.start id userId db
               = (Json 200 (mkSession userId (candidateName old) IN_PROGRESS), db')
             ∧ InterviewSession db' !! id
               = Some (mkSession userId (candidateName old) IN_PROGRESS))
     ∧ (status old ≠ SETUP →
        InterviewService.startInterview id userId db
        = Throw (Error "Can only start interviews in SETUP status")
        ∧ InterviewController.start id userId db
          = (ErrorJson 400 "Can only start interviews in SETUP status", db))
     ∧ (status old = IN_PROGRESS →
        ∃ db', InterviewController.complete id userId db
               = (Json 200 (mkSession userId (candidateName old) COMPLETED), db')
             ∧ InterviewSession db' !! id
               = Some (mkSession userId (candidateName old) COMPLETED))
     ∧ (status old ≠ IN_PROGRESS →
        InterviewService.completeInterview id userId db
        = Throw (Error "Can only complete interviews in IN_PROGRESS status")
        ∧ InterviewController.complete id userId db
          = (ErrorJson 500 "Internal server error", db)))
  ∧ (∀ id userId db code result db',
       (InterviewController.start id userId db = (Json code result, db') →
        ∃ old, InterviewSession db !! id = Some old ∧ interviewerId old = userId
          ∧ status old = SETUP ∧ status result = IN_PROGRESS)
       ∧ (InterviewController.complete id userId db = (Json code result, db') →
          ∃ old, InterviewSession db !! id = Some old ∧ interviewerId old = userId
            ∧ status old = IN_PROGRESS ∧ status result = COMPLETED))
  ∧ (∀ id userId db code msg db',
       (InterviewController.start id userId db = (ErrorJson code msg, db')
        ∨ InterviewController.complete id userId db = (ErrorJson code msg, db')) →
       db' = db)
  ∧ (∀ id userId db first db1,
       InterviewController.start id userId db = (Json 200 first, db1) →
       InterviewController.start id userId db1
       = (ErrorJson 400 "Can only start interviews in SETUP status", db1))
  ∧ (∀ userId request db id old new,
       InterviewSession db !! id = Some old →
       InterviewSession (snd (handle userId request db)) !! id = Some new →
       forward (status old) (status new))
  ∧ (∀ history db id old,
       InterviewSession db !! id = Some old →
       (∀ userId, (userId, RemoveInterview id) ∉ history) →
       ∃ new, InterviewSession (serve history db) !! id = Some new
         ∧ status_rank (status old) ≤ status_rank (status new)).
Proof.
  split; [|split; [|split; [|split; [|split]]]]; [| | | | |exact serve_status_rank].
  - intros id userId db old Hold Howner. subst userId. repeat split.
    + intros Hst. unfold InterviewController.start.
      rewrite (startInterview_Return _ _ _ old) by done.
      eexists. split; [reflexivity|]. cbn. apply lookup_insert_eq.
    + by apply (startInterview_Throw _ _ _ old).
    + unfold InterviewController.start.
      by rewrite (startInterview_Throw _ _ _ old).
    + intros Hst. unfold InterviewController.complete.
      rewrite (completeInterview_Return _ _ _ old) by done.
      eexists. split; [reflexivity|]. cbn. apply lookup_insert_eq.
    + by apply (completeInterview_Throw _ _ _ old).
    + unfold InterviewController.complete.
      by rewrite (completeInterview_Throw _ _ _ old).
  - intros id userId db code result db'. split; intros H.
    + unfold InterviewController.start in H.
      destruct (InterviewService.startInterview id userId db) as [[i d]|e] eqn:E.
      * injection H as _ <- <-.
        apply startInterview_inv in E as (old & Hold & Howner & Hst & E).
        injection E as -> _. by exists old.
      * unfold InterviewController.catch_with_SETUP in H.
        repeat (match type of H with context [if ?b then _ else _] => destruct b end);
          discriminate.
    + unfold InterviewController.complete in H.
      destruct (InterviewService.completeInterview id userId db) as [[i d]|e] eqn:E.
      * injection H as _ <- <-.
        apply completeInterview_inv in E as (old & Hold & Howner & Hst & E).
        injection E as -> _. by exists old.
      * unfold InterviewController.catch_plain in H.
        repeat (match type of H with context [if ?b then _ else _] => destruct b end);
          discriminate.
  - intros id userId db code msg db' [H|H].
    + unfold InterviewController.start in H.
      destruct (InterviewService.startInterview _ _ _) as [[i d]|]; [discriminate|].
      by injection H as _ <-.
    + unfold InterviewController.complete in H.
      destruct (InterviewService.completeInterview _ _ _) as [[i d]|]; [discriminate|].
      by injection H as _ <-.
  - intros id userId db first db1 H. unfold InterviewController.start in H.
    destruct (InterviewService.startInterview id userId db) as [[i d]|e] eqn:E.
    + injection H as <- <-.
      apply startInterview_inv in E as (old & Hold & Howner & Hst & E).
      injection E as -> ->.
      unfold InterviewController.start.
      rewrite (startInterview_Throw _ _ _ (mkSession (interviewerId old) (candidateName old) IN_PROGRESS));
        [reflexivity | apply lookup_insert_eq | exact Howner | discriminate].
    + exfalso. unfold InterviewController.catch_with_SETUP in H.
      repeat (match type of H with context [if ?b then _ else _] => destruct b end);
        discriminate.
  - intros userId request db id old new Hold Hnew.
    destruct (handle_session userId request db id old Hold) as [[Hnone _]|(new' & Hnew' & _ & Hf)].
    + rewrite Hnone in Hnew. discriminate.
    + rewrite Hnew' in Hnew. by injection Hnew as <-.
Qed.

Lemma status_only_moves_forward_witness :
  ∃ first db1,
    InterviewController.start "i1" "u1" Examples.db_setup = (Json 200 first, db1)
    ∧ InterviewController.start "i1" "u1" db1
      = (ErrorJson 400 "Can only start interviews in SETUP status", db1).
Proof.
  destruct status_only_moves_forward as (Hstart & _ & _ & Htwice & _).
  destruct (Hstart "i1" "u1" Examples.db_setup (mkSession "u1" "Ada" SETUP))
    as ((db1 & H1 & _) & _).
  - reflexivity.
  - reflexivity.
  - reflexivity.
  - exists (mkSession "u1" "Ada" IN_PROGRESS), db1. split; [exact H1|].
    apply (Htwice "i1" "u1" Examples.db_setup (mkSession "u1" "Ada" IN_PROGRESS)).
    exact H1.
Defined.

(** ** Scores and the status of their session *)

(** C1 (the code accepts what the claim forbids).  After the page has
    advanced past its last section the session is COMPLETED and holds the
    saved score; the owner's next upserts are answered 200 all the same,
    one overwriting that score and one creating a new row. *)
Theorem upsert_on_completed_session_is_accepted :
  status <$> InterviewSession Examples.db_completed !! "i1" = Some COMPLETED
  ∧ Score Examples.db_completed !! ("i1", "q1") = Some (mkScoreRow 4 (Some "ok"))
  ∧ fst (ScoreController.upsert (Examples.body "q1" (2 # 1)%Q (Some "changed")) "u1"
           Examples.db_completed)
    = Json 200 (mkScoreItem "i1" "q1" 2 (Some "changed"))
  ∧ Score (snd (ScoreController.upsert (Examples.body "q1" (2 # 1)%Q (Some "changed")) "u1"
                  Examples.db_completed)) !! ("i1", "q1")
    = Some (mkScoreRow 2 (Some "changed"))
  ∧ fst (ScoreController.upsert (Examples.body "q3" (5 # 1)%Q None) "u1"
           Examples.db_completed)
    = Json 200 (mkScoreItem "i1" "q3" 5 None).
Proof. repeat split; vm_compute; reflexivity. Qed.

(** ** Which questions a score row may be for *)

Section ForeignKeys.

(** The only change [upsert] makes: one row, for an existing session and a
    question that is in the bank or had a row already. *)
Lemma upsert_scores body userId db :
  let db' := snd (ScoreController.upsert body userId db) in
  db' = db
  ∨ ∃ interviewId questionId row,
      ScoreController.body_interviewId body = Some interviewId
      ∧ ScoreController.body_questionId body = Some questionId
      ∧ Score db' = <[(interviewId, questionId) := row]> (Score db)
      ∧ is_Some (InterviewSession db !! interviewId)
      ∧ (is_Some (Score db !! (interviewId, questionId))
         ∨ is_Some (Question db !! questionId)).
Proof.
  unfold ScoreController.upsert.
  destruct (ScoreController.body_interviewId body) as [i|]; [|by left].
  destruct (ScoreController.body_questionId body) as [q|];
    [|rewrite orb_true_r; by left].
  destruct (_ || _); [by left|].
  destruct (ScoreController.invalid_score _); [by left|].
  cbn [default from_option id].
  destruct (InterviewSession db !! i) as [interview|] eqn:Hlook; [|by left].
  destruct (decide (interviewerId interview ≠ userId)); [by left|].
  unfold ScoreService.upsertScore, prisma.score_upsert.
  cbn [ScoreService.data_interviewId ScoreService.data_questionId
       ScoreService.data_score ScoreService.data_notes].
  destruct (Score db !! (i, q)) as [old|] eqn:Hold.
  - right. eexists i, q, _.
    do 2 (split; [reflexivity|]). split; [reflexivity|]. split; [by eexists|]. left. by eexists.
  - rewrite Hlook. destruct (Question db !! q) as [question|] eqn:Hq; [|by left].
    right. eexists i, q, _.
    do 2 (split; [reflexivity|]). split; [reflexivity|]. split; [by eexists|]. right. by eexists.
Qed.

Lemma handle_foreign_keys userId r db :
  Score_foreign_keys db →
  Score_foreign_keys (snd (handle userId r db))
  ∧ Question (snd (handle userId r db)) = Question db.
Proof.
  intros Hfk.
  destruct r as [newId body|id' body|id'|id'|id'|body]; cbn [handle].
  - unfold InterviewController.create.
    destruct (ScoreController.falsy _), (interview_types.candidateName' body),
      (interview_types.sectionConfigs' body), (interview_types.selectedQuestions' body);
      cbn; try (split; [exact Hfk | reflexivity]).
    destruct (InterviewService.createInterview _ _ _ _) as [[i db']|] eqn:E;
      cbn; [|split; [exact Hfk | reflexivity]].
    apply createInterview_tables in E as (_ & _ & Hs & Hsc & Hq & _).
    split; [|exact Hq]. intros iid qid row. rewrite Hs, Hsc, Hq. intros Hrow.
    destruct (Hfk _ _ _ Hrow) as [Hi Hb]. split; [|exact Hb].
    rewrite lookup_insert_is_Some. destruct (decide (newId = iid)); auto.
  - unfold InterviewController.update.
    destruct (InterviewService.updateInterview _ _ _ _) as [[i db']|] eqn:E;
      cbn; [|split; [exact Hfk | reflexivity]].
    apply updateInterview_tables in E as (old & Hold & _ & _ & Hs & Hsc & Hq & _).
    split; [|exact Hq]. intros iid qid row. rewrite Hsc, Hq. intros Hrow.
    destruct (Hfk _ _ _ Hrow) as [Hi Hb]. split; [|exact Hb].
    destruct Hs as [->|[renamed ->]]; [exact Hi|].
    rewrite lookup_insert_is_Some. destruct (decide (id' = iid)); auto.
  - unfold InterviewController.start.
    destruct (InterviewService.startInterview _ _ _) as [[i db']|] eqn:E;
      cbn; [|split; [exact Hfk | reflexivity]].
    apply startInterview_inv in E as (old & Hold & _ & _ & E). injection E as -> ->.
    split; [|reflexivity]. intros iid qid row. cbn. intros Hrow.
    destruct (Hfk _ _ _ Hrow) as [Hi Hb]. split; [|exact Hb].
    rewrite lookup_insert_is_Some. destruct (decide (id' = iid)); auto.
  - unfold InterviewController.complete.
    destruct (InterviewService.completeInterview _ _ _) as [[i db']|] eqn:E;
      cbn; [|split; [exact Hfk | reflexivity]].
    apply completeInterview_inv in E as (old & Hold & _ & _ & E). injection E as -> ->.
    split; [|reflexivity]. intros iid qid row. cbn. intros Hrow.
    destruct (Hfk _ _ _ Hrow) as [Hi Hb]. split; [|exact Hb].
    rewrite lookup_insert_is_Some. destruct (decide (id' = iid)); auto.
  - unfold InterviewController.remove.
    destruct (InterviewService.deleteInterview _ _ _) as [[[] db']|] eqn:E;
      cbn; [|split; [exact Hfk | reflexivity]].
    apply deleteInterview_tables in E as (Hs & Hsc & Hq & _).
    split; [|exact Hq]. intros iid qid row. rewrite Hs, Hsc, Hq. unfold prisma.deleteMany.
    intros Hrow. apply map_lookup_filter_Some in Hrow as [Hrow Hne]. cbn in Hne.
    destruct (Hfk _ _ _ Hrow) as [Hi Hb]. split; [|exact Hb].
    rewrite lookup_delete_ne by congruence. exact Hi.
  - destruct (ScoreController.upsert body userId db) as [res db'] eqn:E. cbn.
    pose proof (upsert_tables body userId db) as (Hs & Hq & _).
    pose proof (upsert_scores body userId db) as Hsc.
    rewrite E in Hs, Hq, Hsc. cbn in Hs, Hq, Hsc.
    split; [|exact Hq]. destruct Hsc as [->|(i & q & new & _ & _ & Hsc & Hi & Hb)]; [exact Hfk|].
    intros iid qid row. rewrite Hs, Hq, Hsc. intros Hrow.
    destruct (decide ((i, q) = (iid, qid))) as [[= <- <-]|Hne].
    + split; [exact Hi|]. destruct Hb as [[old Hold]|Hb]; [|exact Hb].
      by destruct (Hfk _ _ _ Hold).
    + rewrite lookup_insert_ne in Hrow by exact Hne. by apply (Hfk _ _ _ Hrow).
Qed.

Lemma serve_foreign_keys history db :
  Score_foreign_keys db →
  Score_foreign_keys (serve history db) ∧ Question (serve history db) = Question db.
Proof.
  revert db. induction history as [|[userId r] history IH]; intros db Hfk.
  - by split.
  - change (serve ((userId, r) :: history) db)
      with (serve history (snd (handle userId r db))).
    destruct (handle_foreign_keys userId r db Hfk) as [Hfk' Hq].
    destruct (IH _ Hfk') as [Hfk'' Hq']. split; [exact Hfk''|]. by rewrite Hq'.
Qed.

End ForeignKeys.

(** C3 as the claim has it fails: an upsert for a question of the bank that
    was not selected for the session creates a row outside the selection. *)
Lemma score_outside_selection_is_created :
  Score_within_selection Examples.db_running
  ∧ fst (ScoreController.upsert (Examples.body "q2" (3 # 1)%Q None) "u1" Examples.db_running)
    = Json 200 (mkScoreItem "i1" "q2" 3 None)
  ∧ ¬ Score_within_selection
        (snd (ScoreController.upsert (Examples.body "q2" (3 # 1)%Q None) "u1"
                Examples.db_running)).
Proof.
  split; [|split].
  - intros i q row H. cbn in H. by rewrite lookup_empty in H.
  - vm_compute. reflexivity.
  - intros H. specialize (H "i1" "q2" (mkScoreRow 3 None)).
    assert (is_Some (InterviewQuestion
              (snd (ScoreController.upsert (Examples.body "q2" (3 # 1)%Q None) "u1"
                      Examples.db_running)) !! ("i1", "q2"))) as [x Hx].
    { apply H. vm_compute. reflexivity. }
    vm_compute in Hx. discriminate.
Qed.

(** C3, amended.  From a database whose score rows reference existing
    sessions and questions, whatever requests are served, every score row
    is for a question of the bank and for an existing session, and the
    bank itself is untouched; an upsert cannot create a row for a question
    that is not in the bank. *)
Theorem scores_reference_questions_of_the_bank
  (history : list (string * Request)) (db : Database) :
  Score_foreign_keys db →
  Score_foreign_keys (serve history db)
  ∧ Question (serve history db) = Question db
  ∧ (∀ userId body questionId,
       Question (serve history db) !! questionId = None →
       ∀ interviewId,
         Score (snd (ScoreController.upsert body userId (serve history db)))
           !! (interviewId, questionId) = None).
Proof.
  intros Hfk. destruct (serve_foreign_keys history db Hfk) as [Hfk' Hq].
  split; [exact Hfk'|]. split; [exact Hq|].
  intros userId body questionId Hnone interviewId.
  set (db1 := serve history db) in *.
  assert (Score db1 !! (interviewId, questionId) = None) as Hbefore.
  { destruct (Score db1 !! (interviewId, questionId)) as [row|] eqn:Hrow; [|reflexivity].
    destruct (Hfk' _ _ _ Hrow) as [_ [x Hx]]. congruence. }
  destruct (upsert_scores body userId db1) as [->|(i & q & row & _ & _ & -> & _ & Hb)];
    [exact Hbefore|].
  destruct (decide ((i, q) = (interviewId, questionId))) as [[= -> ->]|Hne].
  - exfalso. destruct Hb as [[x Hx]|[x Hx]]; congruence.
  - by rewrite lookup_insert_ne.
Qed.

Lemma scores_reference_questions_of_the_bank_witness :
  Score_foreign_keys
    (serve [("u1", UpsertScore (Examples.body "q2" (3 # 1)%Q None));
            ("u1", UpsertScore (Examples.body "q9" (3 # 1)%Q None))]
       Examples.db_running)
  ∧ Score (serve [("u1", UpsertScore (Examples.body "q2" (3 # 1)%Q None));
                  ("u1", UpsertScore (Examples.body "q9" (3 # 1)%Q None))]
             Examples.db_running) !! ("i1", "q9") = None.
Proof.
  assert (Score_foreign_keys Examples.db_running) as Hfk.
  { intros i q row H. cbn in H. by rewrite lookup_empty in H. }
  split.
  - apply (scores_reference_questions_of_the_bank
             [("u1", UpsertScore (Examples.body "q2" (3 # 1)%Q None));
              ("u1", UpsertScore (Examples.body "q9" (3 # 1)%Q None))]
             Examples.db_running Hfk).
  - apply (proj2 (proj2 (scores_reference_questions_of_the_bank
             [("u1", UpsertScore (Examples.body "q2" (3 # 1)%Q None))]
             Examples.db_running Hfk)) "u1" (Examples.body "q9" (3 # 1)%Q None) "q9").
    vm_compute. reflexivity.
Defined.

(** ** The save cycle of the live page *)

Section SaveCycle.

Lemma saveScores_unfold id scores :
  id ≠ EmptyString →
  LiveInterviewPage.saveScores (Some id) scores
  = (fun kv =>
       ScoreController.mkBody (Some id) (Some (fst kv))
         (Some (inject_Z (LiveInterviewPage.entry_score (snd kv))))
         (Some (LiveInterviewPage.entry_notes (snd kv))))
    <$> filter (fun kv => 0 < LiveInterviewPage.entry_score (snd kv)) (map_to_list scores).
Proof.
  intros Hid. unfold LiveInterviewPage.saveScores. rewrite falsy_Some by exact Hid.
  cbn [orb]. case_bool_decide as Hlen; [|reflexivity].
  apply nil_length_inv in Hlen. by rewrite Hlen.
Qed.


End SaveCycle.



(** ** The overall score *)

Section Means.

Lemma reduce_sum_from {A : Type} (f : A → Q) (l : list A) (a : Q) :
  (foldl (fun sum x => sum + f x) a l == a + Aggregation.sum (f <$> l))%Q.
Proof.
  revert a. induction l as [|x l IH]; intros a; cbn.
  - by rewrite Qplus_0_r.
  - rewrite IH, Qplus_assoc. reflexivity.
Qed.

Lemma reduce_sum_sum {A : Type} (f : A → Q) (l : list A) :
  (reduce_sum f l == Aggregation.sum (f <$> l))%Q.
Proof. unfold reduce_sum. rewrite reduce_sum_from. apply Qplus_0_l. Qed.

Lemma sum_Qeq (l k : list Q) :
  Forall2 Qeq l k → (Aggregation.sum l == Aggregation.sum k)%Q.
Proof. induction 1 as [|x y l k Hxy _ IH]; cbn; [reflexivity|]. by rewrite Hxy, IH. Qed.

(** [array.length > 0 ? reduce / length : nothing] is the mean. *)
Lemma reduce_mean {A : Type} (f : A → Q) (l : list A) (k : list Q) :
  Forall2 Qeq (f <$> l) k →
  oQeq (if (0 <? Z.of_nat (length l))%Z then Some (reduce_sum f l / array_length l)%Q else None)
       (Aggregation.mean k).
Proof.
  intros H. pose proof (Forall2_length _ _ _ H) as Hlen. rewrite length_fmap in Hlen.
  destruct l as [|x l], k as [|y k]; try discriminate; [exact I|].
  cbn [length] in *. replace (0 <? Z.of_nat (S (length l)))%Z with true by (symmetry; apply Z.ltb_lt; lia).
  cbn [Aggregation.mean oQeq]. unfold array_length. cbn [length]. rewrite Hlen.
  rewrite reduce_sum_sum, (sum_Qeq _ _ H). reflexivity.
Qed.

(** The loop that pushes an average for each section that has scores
    collects the averages of exactly those sections, in order. *)
Lemma push_loop {A B : Type} (g : A → bool) (h : A → B) (l : list A) (acc : list B) :
  foldl (fun avgs x => if g x then avgs ++ [h x] else avgs) acc l
  = acc ++ (h <$> filter (fun x => g x = true) l).
Proof.
  revert acc. induction l as [|x l IH]; intros acc.
  - cbn. by rewrite app_nil_r.
  - rewrite filter_cons. cbn [foldl]. rewrite IH. destruct (g x) eqn:E.
    + rewrite decide_True by reflexivity. rewrite fmap_cons, <- app_assoc. reflexivity.
    + rewrite decide_False by discriminate. reflexivity.
Qed.

Lemma averages_of_sections {A : Type} (zs : A → list Z) (qs : A → list Q) (l : list A) :
  (∀ sc, sc ∈ l → qs sc = inject_Z <$> zs sc) →
  Forall2 Qeq
    ((fun sc => (reduce_sum inject_Z (zs sc) / array_length (zs sc))%Q)
       <$> filter (fun sc => (0 <? Z.of_nat (length (zs sc)))%Z = true) l)
    (omap (fun sc => Aggregation.mean (qs sc)) l).
Proof.
  induction l as [|sc l IH]; intros Hl; [constructor|].
  rewrite filter_cons. cbn [omap list_omap].
  assert (Forall2 Qeq
    ((fun sc => (reduce_sum inject_Z (zs sc) / array_length (zs sc))%Q)
       <$> filter (fun sc => (0 <? Z.of_nat (length (zs sc)))%Z = true) l)
    (omap (fun sc => Aggregation.mean (qs sc)) l)) as IH'.
  { apply IH. intros sc' Hsc'. apply Hl. by right. }
  pose proof (reduce_mean inject_Z (zs sc) (qs sc)) as Hm.
  rewrite (Hl sc) in Hm |- * by left.
  specialize (Hm ltac:(apply Forall2_same_length_lookup_2; [done|]; intros i x y Hx Hy;
                        rewrite Hx in Hy; injection Hy as ->; reflexivity)).
  destruct (0 <? Z.of_nat (length (zs sc)))%Z eqn:E.
  - rewrite decide_True by reflexivity.
    destruct (Aggregation.mean (inject_Z <$> zs sc)) as [m|]; [|contradiction].
    cbn. constructor; assumption.
  - rewrite decide_False by discriminate.
    destruct (Aggregation.mean (inject_Z <$> zs sc)) as [m|]; [contradiction|].
    exact IH'.
Qed.

End Means.

Section ScoreMaps.

Lemma new_Map_snoc {V : Type} (l : list (string * V)) k v :
  new_Map (l ++ [(k, v)]) = <[k := v]> (new_Map l).
Proof. unfold new_Map. by rewrite foldl_app. Qed.

Lemma new_Map_fmap {V : Type} (g : ScoreItem → V) (l : list ScoreItem) :
  new_Map ((fun s => (score_questionId s, g s)) <$> l)
  = g <$> new_Map ((fun s => (score_questionId s, s)) <$> l).
Proof.
  induction l as [|s l IH] using rev_ind.
  - cbn. by rewrite fmap_empty.
  - rewrite !fmap_app. cbn [fmap list_fmap]. rewrite !new_Map_snoc, IH.
    by rewrite fmap_insert.
Qed.

Lemma filter_ext_in {A : Type} (P Q : A → Prop)
  `{!∀ x, Decision (P x), !∀ x, Decision (Q x)} (l : list A) :
  (∀ x, x ∈ l → (P x ↔ Q x)) → filter P l = filter Q l.
Proof.
  induction l as [|x l IH]; intros Hext; [reflexivity|].
  rewrite !filter_cons, IH by (intros y Hy; apply Hext; by right).
  destruct (decide (P x)) as [HP|HP], (decide (Q x)) as [HQ|HQ]; try reflexivity.
  - exfalso. apply HQ, (Hext x); [by left | exact HP].
  - exfalso. apply HP, (Hext x); [by left | exact HQ].
Qed.

(** With one row per question, the rows of a question are what the map
    built by [new Map] holds for it. *)
Lemma rows_of_question (l : list ScoreItem) (q : string) :
  NoDup (score_questionId <$> l) →
  filter (fun e => score_questionId e = q) l
  = option_list (new_Map ((fun s => (score_questionId s, s)) <$> l) !! q).
Proof.
  induction l as [|s l IH] using rev_ind; intros Hnd.
  - reflexivity.
  - rewrite fmap_app in Hnd. apply NoDup_app in Hnd as (Hnd & Hfresh & _).
    rewrite filter_app, fmap_app. cbn [fmap list_fmap]. rewrite new_Map_snoc.
    specialize (IH Hnd). rewrite filter_cons, filter_nil.
    destruct (decide (score_questionId s = q)) as [<-|Hne].
    + rewrite lookup_insert_eq. cbn.
      destruct (filter (fun e => score_questionId e = score_questionId s) l) as [|e rest] eqn:E;
        [reflexivity|].
      exfalso. assert (e ∈ filter (fun e => score_questionId e = score_questionId s) l) as He
        by (rewrite E; by left).
      apply list_elem_of_filter in He as [Heq He].
      apply (Hfresh (score_questionId s)); [|by left].
      rewrite <- Heq. by apply list_elem_of_fmap_2.
    + rewrite lookup_insert_ne by exact Hne. by rewrite app_nil_r.
Qed.

Lemma flat_map_option_list {A B C : Type} (f : A → option B) (g : B → C) (l : list A) :
  flat_map (fun q => g <$> option_list (f q)) l = g <$> omap f l.
Proof.
  induction l as [|x l IH]; [reflexivity|]. cbn. rewrite IH. by destruct (f x).
Qed.

Lemma flat_map_option_list_filter {A B C : Type} (f : A → option B) (g : B → C)
  (P : B → Prop) `{!∀ x, Decision (P x)} (l : list A) :
  flat_map (fun q => g <$> filter P (option_list (f q))) l = g <$> filter P (omap f l).
Proof.
  induction l as [|x l IH]; [reflexivity|].
  cbn [flat_map omap list_omap]. rewrite IH. destruct (f x) as [y|].
  - change (option_list (Some y)) with [y].
    rewrite !filter_cons, filter_nil. by destruct (decide (P y)).
  - reflexivity.
Qed.

Lemma flat_map_ext_in {A B : Type} (f g : A → list B) (l : list A) :
  (∀ x, x ∈ l → f x = g x) → flat_map f l = flat_map g l.
Proof.
  induction l as [|x l IH]; intros H; [reflexivity|].
  cbn. rewrite (H x) by left. rewrite IH; [reflexivity|]. intros y Hy. apply H. by right.
Qed.

(** The scores the list page averages for a section are those of the
    specification. *)
Lemma list_page_sectionScores (interview : Interview) (sc : SectionConfig) :
  NoDup (score_questionId <$> scores interview) →
  Aggregation.sectionScores interview sc
  = inject_Z <$>
    filter (fun s => 0 < s)
      (omap (fun q => new_Map ((fun s => (score_questionId s, score_value s))
                                 <$> scores interview) !! item_questionId q)
         (filter (fun q => item_question_sectionId q = config_sectionId sc)
            (selectedQuestions interview))).
Proof.
  intros Hnd. unfold Aggregation.sectionScores.
  rewrite <- flat_map_option_list_filter. apply flat_map_ext_in. intros q _.
  rewrite (new_Map_fmap score_value), lookup_fmap.
  rewrite (list_filter_iff _ (fun e => 0 < score_value e ∧ score_questionId e = item_questionId q))
    by (intros e; tauto).
  rewrite <- list_filter_filter, (rows_of_question _ _ Hnd).
  destruct (new_Map _ !! item_questionId q) as [e|]; [|reflexivity].
  change (option_list (score_value <$> Some e)) with [score_value e].
  change (option_list (Some e)) with [e].
  rewrite !filter_cons, !filter_nil. by destruct (decide (0 < score_value e)).
Qed.

(** So are those the exports average, when section names identify
    sections and every stored score is positive. *)
Lemma export_sectionScores (interview : Interview) (sc : SectionConfig) :
  persisted interview → sc ∈ sectionConfigs interview →
  Aggregation.sectionScores interview sc
  = inject_Z <$> (score_value <$> ExportService.sScores interview sc).
Proof.
  intros [Hnd Hpos Hnames] Hsc.
  unfold Aggregation.sectionScores, ExportService.sScores, ExportService.sectionQs,
    ExportService.scoreMap.
  rewrite (filter_ext_in (fun q => item_question_section_name q = config_section_name sc)
             (fun q => item_question_sectionId q = config_sectionId sc))
    by (intros q Hq; by apply Hnames).
  rewrite <- list_fmap_compose, <- flat_map_option_list. apply flat_map_ext_in. intros q _.
  rewrite (filter_ext_in _ (fun e => score_questionId e = item_questionId q))
    by (intros e He; specialize (Hpos e He); tauto).
  by rewrite (rows_of_question _ _ Hnd).
Qed.

Lemma export_average (l : list ScoreItem) :
  ExportService.average l
  = (reduce_sum inject_Z (score_value <$> l) / array_length (score_value <$> l))%Q.
Proof.
  unfold ExportService.average, reduce_sum, array_length.
  rewrite length_fmap. f_equal.
  generalize (0 # 1)%Q. induction l as [|x l IH]; intros a; [reflexivity|]. cbn. apply IH.
Qed.

End ScoreMaps.

Section Overall.

Lemma overallScore_None (interview : Interview) :
  (∀ sc, sc ∈ sectionConfigs interview → Aggregation.sectionScores interview sc = []) →
  Aggregation.overallScore interview = None.
Proof.
  unfold Aggregation.overallScore, Aggregation.sectionAverages.
  induction (sectionConfigs interview) as [|sc l IH]; intros H; [reflexivity|].
  cbn [omap list_omap]. rewrite (H sc) by left. cbn [Aggregation.mean].
  apply IH. intros sc' Hsc'. apply H. by right.
Qed.

Lemma flat_map_nil {A B : Type} (f : A → list B) (l : list A) :
  (∀ x, f x = []) → flat_map f l = [].
Proof. intros H. induction l as [|x l IH]; [reflexivity|]. cbn. by rewrite H, IH. Qed.

Lemma list_page_overall (interview : Interview) :
  NoDup (score_questionId <$> scores interview) →
  oQeq (InterviewListPage.getOverallScore interview) (Aggregation.overallScore interview).
Proof.
  intros Hnd. unfold InterviewListPage.getOverallScore.
  destruct (_ || _) eqn:Hguard.
  - rewrite overallScore_None; [exact I|]. intros sc Hin.
    unfold Aggregation.sectionScores.
    apply orb_true_iff in Hguard as [Hguard|Hsel];
      [apply orb_true_iff in Hguard as [Hsc|Hcf]|].
    + apply bool_decide_eq_true, nil_length_inv in Hsc.
      apply flat_map_nil. intros q. by rewrite Hsc.
    + apply bool_decide_eq_true, nil_length_inv in Hcf. rewrite Hcf in Hin.
      by apply elem_of_nil in Hin.
    + apply bool_decide_eq_true, nil_length_inv in Hsel. by rewrite Hsel.
  - set (zs := fun sc : SectionConfig =>
        filter (fun s => 0 < s)
          (omap (fun q => new_Map ((fun s => (score_questionId s, score_value s))
                                     <$> scores interview) !! item_questionId q)
             (filter (fun q => item_question_sectionId q = config_sectionId sc)
                (selectedQuestions interview)))).
    change (foldl _ [] (sectionConfigs interview))
      with (foldl (fun avgs sc =>
                     if (0 <? Z.of_nat (length (zs sc)))%Z
                     then avgs ++ [(reduce_sum inject_Z (zs sc) / array_length (zs sc))%Q]
                     else avgs) [] (sectionConfigs interview)).
    rewrite (push_loop (fun sc => (0 <? Z.of_nat (length (zs sc)))%Z)
               (fun sc => (reduce_sum inject_Z (zs sc) / array_length (zs sc))%Q)).
    rewrite app_nil_l. apply reduce_mean. rewrite list_fmap_id.
    apply averages_of_sections. intros sc _. by apply list_page_sectionScores.
Qed.

Lemma export_overall (interview : Interview) :
  persisted interview →
  oQeq (ExportService.overall interview) (Aggregation.overallScore interview).
Proof.
  intros Hp. unfold ExportService.overall, ExportService.sectionAvgs.
  set (zs := fun sc : SectionConfig => score_value <$> ExportService.sScores interview sc).
  change (foldl _ [] (sectionConfigs interview))
    with (foldl (fun avgs sc =>
                   if (0 <? Z.of_nat (length (ExportService.sScores interview sc)))%Z
                   then avgs ++ [ExportService.average (ExportService.sScores interview sc)]
                   else avgs) [] (sectionConfigs interview)).
  rewrite (push_loop (fun sc => (0 <? Z.of_nat (length (ExportService.sScores interview sc)))%Z)
             (fun sc => ExportService.average (ExportService.sScores interview sc))).
  rewrite app_nil_l. apply reduce_mean. rewrite list_fmap_id.
  rewrite (list_fmap_ext _ (fun sc => (reduce_sum inject_Z (zs sc) / array_length (zs sc))%Q))
    by (intros i sc _; apply export_average).
  rewrite (list_filter_iff _ (fun sc => (0 <? Z.of_nat (length (zs sc)))%Z = true))
    by (intros sc; subst zs; cbn beta; by rewrite length_fmap).
  apply averages_of_sections. intros sc Hsc. by apply export_sectionScores.
Qed.

Lemma persisted_intro (interview : Interview) :
  NoDup (score_questionId <$> scores interview) →
  Forall (fun s => 0 < score_value s) (scores interview) →
  Forall (fun q =>
            Forall (fun sc =>
                      item_question_section_name q = config_section_name sc
                      ↔ item_question_sectionId q = config_sectionId sc)
                   (sectionConfigs interview))
         (selectedQuestions interview) →
  persisted interview.
Proof.
  intros Hnd Hpos Hnames. constructor.
  - exact Hnd.
  - by apply Forall_forall.
  - intros q sc Hq Hsc. rewrite Forall_forall in Hnames.
    specialize (Hnames q Hq). rewrite Forall_forall in Hnames. by apply Hnames.
Qed.

Lemma oQeq_None (a : option Q) : oQeq a None → a = None.
Proof. by destruct a. Qed.

End Overall.

(** C2. The overall score of the list page, and that of the exports for
    an interview as the database holds it, is the arithmetic mean, over the
    sections that have a scored question, of the section's mean score;
    when no section has a scored question there is no overall score.
    With sections scored (5,3,4) and (1,1) it is 5/2, not the mean 14/5
    of the five scores; with the second section unscored the result is 4. *)
Theorem overallScore_is_mean_of_section_means :
  (∀ interview,
     NoDup (score_questionId <$> scores interview) →
     oQeq (InterviewListPage.getOverallScore interview) (Aggregation.overallScore interview)
     ∧ ((∀ sc, sc ∈ sectionConfigs interview →
               Aggregation.sectionScores interview sc = []) →
        InterviewListPage.getOverallScore interview = None))
  ∧ (∀ interview,
       persisted interview →
       oQeq (ExportService.overall interview) (Aggregation.overallScore interview)
       ∧ ((∀ sc, sc ∈ sectionConfigs interview →
                 Aggregation.sectionScores interview sc = []) →
          ExportService.overall interview = None
          ∧ ExportService.generateExcel_avgScore interview = None
          ∧ ExportService.generatePdf_avgScore interview = None))
  ∧ oQeq (InterviewListPage.getOverallScore Examples.scenario_AB) (Some (5 # 2)%Q)
  ∧ oQeq (ExportService.overall Examples.scenario_AB) (Some (5 # 2)%Q)
  ∧ oQeq (Aggregation.flatMean Examples.scenario_AB) (Some (14 # 5)%Q)
  ∧ oQeq (InterviewListPage.getOverallScore Examples.scenario_A_only) (Some (4 # 1)%Q)
  ∧ oQeq (ExportService.overall Examples.scenario_A_only) (Some (4 # 1)%Q).
Proof.
  split; [|split].
  - intros interview Hnd. pose proof (list_page_overall interview Hnd) as H.
    split; [exact H|]. intros Hnone. rewrite overallScore_None in H by exact Hnone.
    by apply oQeq_None.
  - intros interview Hp. pose proof (export_overall interview Hp) as H.
    split; [exact H|]. intros Hnone. rewrite overallScore_None in H by exact Hnone.
    apply oQeq_None in H.
    unfold ExportService.generateExcel_avgScore, ExportService.generatePdf_avgScore.
    by rewrite H.
  - repeat split; vm_compute; reflexivity.
Qed.

Lemma overallScore_is_mean_of_section_means_witness :
  oQeq (InterviewListPage.getOverallScore Examples.scenario_AB)
       (Aggregation.overallScore Examples.scenario_AB)
  ∧ oQeq (ExportService.overall Examples.scenario_AB)
         (Aggregation.overallScore Examples.scenario_AB).
Proof.
  assert (NoDup (score_questionId <$> scores Examples.scenario_AB)) as Hnd.
  { apply (bool_decide_unpack _). vm_compute. exact I. }
  split.
  - apply (proj1 (proj1 overallScore_is_mean_of_section_means Examples.scenario_AB Hnd)).
  - apply (proj1 (proj1 (proj2 overallScore_is_mean_of_section_means) Examples.scenario_AB
                    (persisted_intro Examples.scenario_AB Hnd
                       ltac:(apply (bool_decide_unpack _); vm_compute; exact I)
                       ltac:(apply (bool_decide_unpack _); vm_compute; exact I)))).
Defined.

(** ** The same numbers on every surface *)

Section Surfaces.

Lemma toFixed1_comp (x y : Q) : (x == y)%Q → toFixed1 x = toFixed1 y.
Proof.
  intros H. unfold toFixed1.
  assert (Qle_bool (0 # 1) x = Qle_bool (0 # 1) y) as ->.
  { destruct (Qle_bool (0 # 1) x) eqn:Ex, (Qle_bool (0 # 1) y) eqn:Ey; try reflexivity.
    - apply Qle_bool_iff in Ex. rewrite H in Ex. apply Qle_bool_iff in Ex. congruence.
    - apply Qle_bool_iff in Ey. rewrite <- H in Ey. apply Qle_bool_iff in Ey. congruence. }
  destruct (Qle_bool (0 # 1) y); by rewrite H.
Qed.

Lemma oQeq_toFixed1 (a b : option Q) : oQeq a b → toFixed1 <$> a = toFixed1 <$> b.
Proof.
  destruct a as [x|], b as [y|]; cbn; try contradiction; [|reflexivity].
  intros H. by rewrite (toFixed1_comp x y H).
Qed.

Lemma oQeq_trans_sym (a b c : option Q) : oQeq a c → oQeq b c → oQeq a b.
Proof.
  destruct a, b, c; cbn; try contradiction; try done.
  intros H1 H2. by rewrite H1, H2.
Qed.

(** The list page and the two exports print the same overall score. *)
Lemma list_page_and_exports_agree (interview : Interview) :
  persisted interview →
  InterviewListPage.ScorePill interview = ExportService.generateExcel_avgScore interview
  ∧ ExportService.generateExcel_avgScore interview
    = ExportService.generatePdf_avgScore interview.
Proof.
  intros Hp. split; [|reflexivity].
  unfold InterviewListPage.ScorePill, ExportService.generateExcel_avgScore.
  apply oQeq_toFixed1.
  apply (oQeq_trans_sym _ _ (Aggregation.overallScore interview)).
  - apply list_page_overall. by destruct Hp.
  - by apply export_overall.
Qed.

End Surfaces.

(** C4 (the code does not do what the claim says).  For three sections
    scored (1,2,2), (1,2,2) and (1), data the database can hold, every
    surface prints the section averages 1.7, 1.7 and 1.0, and the Excel
    export, the PDF export and the list page print the overall score 1.4;
    the results page, which averages the printed section averages, prints
    1.5. *)
Theorem results_page_overall_differs_from_exports :
  persisted Examples.scenario_rounding
  ∧ InterviewResultsPage.group_avg
      <$> InterviewResultsPage.sectionGroups Examples.scenario_rounding
            (scores Examples.scenario_rounding)
    = [Some 17; Some 17; Some 10]
  ∧ snd <$> ExportService.generateExcel_sectionAvgs Examples.scenario_rounding
    = [Some 17; Some 17; Some 10]
  ∧ snd <$> ExportService.generatePdf_sectionAvgs Examples.scenario_rounding
    = [Some 17; Some 17; Some 10]
  ∧ ExportService.generateExcel_avgScore Examples.scenario_rounding = Some 14
  ∧ ExportService.generatePdf_avgScore Examples.scenario_rounding = Some 14
  ∧ InterviewListPage.ScorePill Examples.scenario_rounding = Some 14
  ∧ InterviewResultsPage.avgScore Examples.scenario_rounding
      (scores Examples.scenario_rounding) = Some 15.
Proof.
  split.
  - apply persisted_intro; apply (bool_decide_unpack _); vm_compute; exact I.
  - repeat split; vm_compute; reflexivity.
Qed.


(** * Further properties *)

(** ** Reading scores *)

(** X1. Listing the scores of an interview answers 404 when there is no
    such interview and 403 to anyone but its owner; the owner gets exactly
    the score rows of that interview, each question once, and no row of
    any other interview. *)
Theorem listByInterview_returns_the_interviews_own_rows
  (interviewId userId : string) (db : Database) :
  (InterviewSession db !! interviewId = None →
   ScoreController.listByInterview interviewId userId db
   = (ErrorJson 404 "Interview not found", db))
  ∧ (∀ interview,
       InterviewSession db !! interviewId = Some interview →
       interviewerId interview ≠ userId →
       ScoreController.listByInterview interviewId userId db
       = (ErrorJson 403 "Unauthorized", db))
  ∧ (∀ interview,
       InterviewSession db !! interviewId = Some interview →
       interviewerId interview = userId →
       ∃ listed,
         ScoreController.listByInterview interviewId userId db = (Json 200 listed, db)
         ∧ (∀ questionId row,
              Score db !! (interviewId, questionId) = Some row
              ↔ mkScoreItem interviewId questionId (score row) (notes row) ∈ listed)
         ∧ (∀ entry, entry ∈ listed → score_interviewId entry = interviewId)
         ∧ NoDup (score_questionId <$> listed)).
Proof.
  unfold ScoreController.listByInterview. split; [|split].
  - by intros ->.
  - intros interview -> Hother.
    destruct (decide (interviewerId interview ≠ userId)); [reflexivity | contradiction].
  - intros interview -> Howner.
    destruct (decide (interviewerId interview ≠ userId)); [contradiction|].
    eexists. split; [reflexivity|]. split; [|split].
    + intros q row. rewrite elem_of_getScoresForInterview. split.
      * intros Hrow. by exists q, row.
      * intros (q' & row' & Hrow' & Heq). unfold ScoreItem_of in Heq. cbn in Heq.
        injection Heq as -> Hs Hn. destruct row, row'. cbn in *. by subst.
    + intros entry Hin. apply elem_of_getScoresForInterview in Hin as (q & row & _ & ->).
      reflexivity.
    + unfold ScoreService.getScoresForInterview, prisma.findMany.
      rewrite <- list_fmap_compose. apply (NoDup_fmap_2_strong _).
      * intros [[i1 q1] r1] [[i2 q2] r2] H1 H2 Heq. cbn in Heq. subst q2.
        apply list_elem_of_filter in H1 as [Hi1 H1]. apply list_elem_of_filter in H2 as [Hi2 H2].
        cbn in Hi1, Hi2. subst i1 i2.
        apply elem_of_map_to_list in H1. apply elem_of_map_to_list in H2.
        rewrite H1 in H2. by injection H2 as ->.
      * apply NoDup_filter, NoDup_map_to_list.
Qed.

(** ** Writing scores *)


Section UpsertEffect.

(** All that an upsert can change: nothing, or the one row it names, for
    a session of the caller, with a score the controller has let in. *)
Lemma upsert_effect body userId db :
  snd (ScoreController.upsert body userId db) = db
  ∨ ∃ i q x interview row,
      ScoreController.body_interviewId body = Some i
      ∧ ScoreController.body_questionId body = Some q
      ∧ ScoreController.body_score body = Some x
      ∧ integer_1_to_5 x
      ∧ InterviewSession db !! i = Some interview
      ∧ interviewerId interview = userId
      ∧ snd (ScoreController.upsert body userId db)
        = set_Score (<[(i, q) := row]> (Score db)) db
      ∧ score row = Qfloor x.
Proof.
  unfold ScoreController.upsert.
  destruct (ScoreController.body_interviewId body) as [i|]; [|by left].
  destruct (ScoreController.body_questionId body) as [q|];
    [|rewrite orb_true_r; by left].
  destruct (ScoreController.body_score body) as [x|];
    [|rewrite orb_true_r; by left].
  destruct (_ || _); [by left|].
  cbn [default from_option id].
  destruct (ScoreController.invalid_score x) eqn:Hx; [by left|].
  apply invalid_score_spec in Hx.
  destruct (InterviewSession db !! i) as [interview|] eqn:Hlook; [|by left].
  destruct (decide (interviewerId interview ≠ userId)) as [|Howner]; [by left|].
  apply dec_stable in Howner.
  unfold ScoreService.upsertScore, prisma.score_upsert.
  cbn [ScoreService.data_interviewId ScoreService.data_questionId
       ScoreService.data_score ScoreService.data_notes].
  destruct (Score db !! (i, q)) as [old|].
  - right. eexists i, q, x, interview, _. by repeat (split; [reflexivity || assumption|]).
  - rewrite Hlook. destruct (Question db !! q); [|by left].
    right. eexists i, q, x, interview, _. by repeat (split; [reflexivity || assumption|]).
Qed.

(** A request other than an upsert adds no score row and changes none. *)
Lemma handle_scores userId r db key row :
  Score (snd (handle userId r db)) !! key = Some row →
  Score db !! key = Some row ∨ ∃ body, r = UpsertScore body.
Proof.
  destruct r as [newId body|id' body|id'|id'|id'|body]; cbn [handle]; [| | | | |eauto].
  - unfold InterviewController.create.
    destruct (ScoreController.falsy _), (interview_types.candidateName' body),
      (interview_types.sectionConfigs' body), (interview_types.selectedQuestions' body);
      cbn; try (by left).
    destruct (InterviewService.createInterview _ _ _ _) as [[i db']|] eqn:E;
      cbn; [|by left].
    apply createInterview_tables in E as (_ & _ & _ & -> & _). by left.
  - unfold InterviewController.update.
    destruct (InterviewService.updateInterview _ _ _ _) as [[i db']|] eqn:E;
      cbn; [|by left].
    apply updateInterview_tables in E as (old & _ & _ & _ & _ & -> & _). by left.
  - unfold InterviewController.start.
    destruct (InterviewService.startInterview _ _ _) as [[i db']|] eqn:E;
      cbn; [|by left].
    apply startInterview_inv in E as (old & _ & _ & _ & E). injection E as -> ->. by left.
  - unfold InterviewController.complete.
    destruct (InterviewService.completeInterview _ _ _) as [[i db']|] eqn:E;
      cbn; [|by left].
    apply completeInterview_inv in E as (old & _ & _ & _ & E). injection E as -> ->. by left.
  - unfold InterviewController.remove.
    destruct (InterviewService.deleteInterview _ _ _) as [[[] db']|] eqn:E;
      cbn; [|by left].
    apply deleteInterview_tables in E as (_ & -> & _). unfold prisma.deleteMany.
    intros H. apply map_lookup_filter_Some in H as [H _]. by left.
Qed.

Lemma handle_in_range userId r db :
  Score_in_range db → Score_in_range (snd (handle userId r db)).
Proof.
  intros Hr key row Hrow.
  destruct (handle_scores userId r db key row Hrow) as [Hold|[body ->]];
    [by apply (Hr key)|].
  cbn [handle] in Hrow.
  destruct (ScoreController.upsert body userId db) as [res db'] eqn:E. cbn in Hrow.
  pose proof (upsert_effect body userId db) as Heff. rewrite E in Heff. cbn [snd] in Heff.
  destruct Heff as [->|(i & q & x & interview & new & _ & _ & _ & (n & Hn & Hx) & _ & _ & -> & Hs)];
    [by apply (Hr key)|].
  cbn [Score set_Score] in Hrow.
  destruct (decide ((i, q) = key)) as [<-|Hne].
  - rewrite lookup_insert_eq in Hrow. injection Hrow as <-.
    rewrite Hs, (Qfloor_integer x n Hx). exact Hn.
  - rewrite lookup_insert_ne in Hrow by exact Hne. by apply (Hr key).
Qed.

End UpsertEffect.

(** X3. Whatever requests are served, from whomever, every stored score
    stays an integer of [1,5] when those stored before were. *)
Theorem stored_scores_stay_in_range (history : list (string * Request)) (db : Database) :
  Score_in_range db → Score_in_range (serve history db).
Proof.
  revert db. induction history as [|[userId r] history IH]; intros db Hr; [exact Hr|].
  change (serve ((userId, r) :: history) db)
    with (serve history (snd (handle userId r db))).
  by apply IH, handle_in_range.
Qed.

Lemma stored_scores_stay_in_range_witness :
  Score_in_range
    (serve [("u1", UpsertScore (Examples.body "q1" (5 # 1)%Q None));
            ("u1", UpsertScore (Examples.body "q2" (7 # 1)%Q None));
            ("u1", CompleteInterview "i1")]
       Examples.db_running).
Proof.
  apply (stored_scores_stay_in_range
           [("u1", UpsertScore (Examples.body "q1" (5 # 1)%Q None));
            ("u1", UpsertScore (Examples.body "q2" (7 # 1)%Q None));
            ("u1", CompleteInterview "i1")]
           Examples.db_running).
  intros key row H. cbn in H. by rewrite lookup_empty in H.
Defined.

(** ** Creating, editing and deleting interviews *)

Section CreateMany.

Context {V : Type} (references : string → bool) (interviewId : string).

(** [createMany] goes through exactly when every row references an
    existing key, no two rows have the same key and none is there yet. *)
Lemma createMany_Return_iff (rows : list (string * V)) (table : gmap (string * string) V) :
  (∃ table', InterviewService.createMany references interviewId rows table = Return table')
  ↔ Forall (fun kv => references (fst kv) = true) rows
    ∧ NoDup (fst <$> rows)
    ∧ Forall (fun kv => table !! (interviewId, fst kv) = None) rows.
Proof.
  revert table. induction rows as [|[k v] rows IH]; intros table; cbn.
  - split; [intros _; repeat constructor | intros _; by eexists].
  - destruct (references k) eqn:Hk; cbn.
    2:{ split.
        - intros [t' Ht']. discriminate.
        - intros (H & _). apply Forall_cons in H as [H _]. cbn in H. congruence. }
    destruct (table !! (interviewId, k)) eqn:Hfresh.
    { split.
      - intros [t' Ht']. discriminate.
      - intros (_ & _ & H). apply Forall_cons in H as [H _]. cbn in H. congruence. }
    rewrite IH. split.
    + intros (Href & Hnd & Hnone). split; [by constructor|]. split.
      * constructor; [|exact Hnd]. intros Hin. apply list_elem_of_fmap in Hin as ([k' v'] & -> & Hin).
        rewrite Forall_forall in Hnone. specialize (Hnone _ Hin). cbn in Hnone.
        by rewrite lookup_insert_eq in Hnone.
      * constructor; [exact Hfresh|]. rewrite Forall_forall in Hnone |- *.
        intros [k' v'] Hin. specialize (Hnone _ Hin). cbn in *.
        destruct (decide (k = k')) as [->|Hne]; [by rewrite lookup_insert_eq in Hnone|].
        rewrite lookup_insert_ne in Hnone by congruence. exact Hnone.
    + intros (Href & Hnd & Hnone). apply Forall_cons in Href as [_ Href].
      apply NoDup_cons in Hnd as [Hk' Hnd]. apply Forall_cons in Hnone as [_ Hnone].
      split; [exact Href|]. split; [exact Hnd|].
      rewrite Forall_forall in Hnone |- *. intros [k' v'] Hin. specialize (Hnone _ Hin). cbn in *.
      rewrite lookup_insert_ne; [exact Hnone|]. intros [= ->]. apply Hk'.
      apply list_elem_of_fmap. by exists (k', v').
Qed.

(** The table it leaves holds the old rows and the new ones. *)
Lemma createMany_lookup (rows : list (string * V)) (table table' : gmap (string * string) V) :
  InterviewService.createMany references interviewId rows table = Return table' →
  ∀ key v, table' !! key = Some v
           ↔ table !! key = Some v ∨ ∃ k, key = (interviewId, k) ∧ (k, v) ∈ rows.
Proof.
  revert table. induction rows as [|[k v] rows IH]; intros table H key w; cbn in H.
  - injection H as ->. split; [by left|]. intros [H|(k & _ & H)]; [exact H|].
    by apply elem_of_nil in H.
  - destruct (references k); [|discriminate]. cbn in H.
    destruct (table !! (interviewId, k)) eqn:Hfresh; [discriminate|].
    rewrite (IH _ H). split.
    + intros [Hin|(k' & -> & Hin)].
      * destruct (decide ((interviewId, k) = key)) as [<-|Hne].
        -- rewrite lookup_insert_eq in Hin. injection Hin as ->. right. exists k.
           split; [reflexivity | by left].
        -- rewrite lookup_insert_ne in Hin by exact Hne. by left.
      * right. exists k'. split; [reflexivity | by right].
    + intros [Hin|(k' & -> & Hin)].
      * left. rewrite lookup_insert_ne; [exact Hin|]. intros <-. congruence.
      * apply elem_of_cons in Hin as [[= -> ->]|Hin].
        -- left. apply lookup_insert_eq.
        -- right. by exists k'.
Qed.

End CreateMany.

Section InterviewRows.

Lemma deleteMany_lookup {V : Type} (id : string) (table : gmap (string * string) V) key :
  prisma.deleteMany id table !! key = if decide (fst key = id) then None else table !! key.
Proof.
  unfold prisma.deleteMany. destruct (decide (fst key = id)) as [Heq|Hne].
  - apply map_lookup_filter_None. right. intros v _ Hk. by apply Hk.
  - destruct (table !! key) as [v|] eqn:Hv.
    + apply map_lookup_filter_Some. by split.
    + apply map_lookup_filter_None. by left.
Qed.

(** What a successful [createInterview] leaves in the two tables of rows. *)
Lemma createInterview_rows newId data userId db interview db' :
  InterviewService.createInterview newId data userId db = Return (interview, db') →
  interview = mkSession userId (interview_types.candidateName data) SETUP
  ∧ InterviewService.createMany (InterviewService.has_key (Section_ db)) newId
      (InterviewService.sectionConfig_rows (interview_types.sectionConfigs data))
      (InterviewSectionConfig db) = Return (InterviewSectionConfig db')
  ∧ InterviewService.createMany (InterviewService.has_key (Question db)) newId
      (InterviewService.interviewQuestion_rows (interview_types.selectedQuestions data))
      (InterviewQuestion db) = Return (InterviewQuestion db').
Proof.
  unfold InterviewService.createInterview.
  destruct (InterviewSession db !! newId); [discriminate|].
  cbn [Section_ Question InterviewSectionConfig InterviewQuestion
       set_InterviewSession set_InterviewSectionConfig].
  destruct (InterviewService.createMany _ _ _ (InterviewSectionConfig db)) as [configs|];
    [|discriminate].
  destruct (InterviewService.createMany _ _ _ (InterviewQuestion db)) as [questions|];
    [|discriminate].
  intros [= <- <-]. by repeat split.
Qed.

(** What a successful [updateInterview] leaves in them. *)
Lemma updateInterview_rows id data userId db result db' :
  InterviewService.updateInterview id data userId db = Return (result, db') →
  match interview_types.sectionConfigs' data with
  | None => InterviewSectionConfig db' = InterviewSectionConfig db
  | Some l =>
    InterviewService.createMany (InterviewService.has_key (Section_ db)) id
      (InterviewService.sectionConfig_rows l)
      (prisma.deleteMany id (InterviewSectionConfig db)) = Return (InterviewSectionConfig db')
  end
  ∧ match interview_types.selectedQuestions' data with
    | None => InterviewQuestion db' = InterviewQuestion db
    | Some l =>
      InterviewService.createMany (InterviewService.has_key (Question db)) id
        (InterviewService.interviewQuestion_rows l)
        (prisma.deleteMany id (InterviewQuestion db)) = Return (InterviewQuestion db')
    end.
Proof.
  unfold InterviewService.updateInterview.
  destruct (InterviewSession db !! id) as [old|]; [|discriminate].
  destruct (decide (interviewerId old ≠ userId)); [discriminate|].
  destruct (decide (status old ≠ SETUP)); [discriminate|].
  set (tx := if InterviewService.truthy (interview_types.candidateName' data) then _ else db).
  assert (Section_ tx = Section_ db ∧ Question tx = Question db
          ∧ InterviewSectionConfig tx = InterviewSectionConfig db
          ∧ InterviewQuestion tx = InterviewQuestion db) as (Hs & Hq & Hc & Hi).
  { subst tx. by destruct (InterviewService.truthy _). }
  clearbody tx. rewrite Hs, Hc.
  destruct (interview_types.sectionConfigs' data) as [l|].
  - destruct (InterviewService.createMany _ _ _ _) as [configs|]; [|discriminate].
    cbn [Question InterviewQuestion set_InterviewSectionConfig]. rewrite Hq, Hi.
    destruct (interview_types.selectedQuestions' data) as [l'|].
    + destruct (InterviewService.createMany _ _ _ _) as [questions|]; [|discriminate].
      intros [= _ <-]. by split.
    + intros [= _ <-]. by split.
  - rewrite Hq, Hi. destruct (interview_types.selectedQuestions' data) as [l'|].
    + destruct (InterviewService.createMany _ _ _ _) as [questions|]; [|discriminate].
      intros [= _ <-]. by split.
    + intros [= _ <-]. by split.
Qed.

End InterviewRows.

Section Isolation.


End Isolation.



Section Editing.

Lemma update_Json_inv id body userId db code result db' :
  InterviewController.update id body userId db = (Json code result, db') →
  InterviewService.updateInterview id body userId db = Return (result, db').
Proof.
  unfold InterviewController.update.
  destruct (InterviewService.updateInterview id body userId db) as [[r d]|e].
  - by intros [= _ -> ->].
  - unfold InterviewController.catch_with_SETUP. intros H.
    repeat (match type of H with context [if ?b then _ else _] => destruct b end);
      discriminate.
Qed.

End Editing.


Section Selections.

Lemma elem_of_interviewQuestion_rows l q row :
  (q, row) ∈ InterviewService.interviewQuestion_rows l
  ↔ ∃ x, x ∈ l ∧ interview_types.questionId x = q
         ∧ row = mkInterviewQuestionRow (interview_types.order x).
Proof.
  unfold InterviewService.interviewQuestion_rows. rewrite list_elem_of_fmap. split.
  - intros (x & [= -> ->] & Hx). by exists x.
  - intros (x & Hx & <- & ->). by exists x.
Qed.

Lemma fst_interviewQuestion_rows l :
  fst <$> InterviewService.interviewQuestion_rows l = interview_types.questionId <$> l.
Proof.
  unfold InterviewService.interviewQuestion_rows. rewrite <- list_fmap_compose.
  by apply list_fmap_ext.
Qed.



Lemma has_key_true {V : Type} (table : gmap string V) k :
  InterviewService.has_key table k = true ↔ is_Some (table !! k).
Proof. unfold InterviewService.has_key. by rewrite bool_decide_eq_true. Qed.

End Selections.

(** X6. An edit that goes through and carries selected questions replaces
    the selection of the interview by exactly the questions sent, each
    with the order sent; these were distinct and in the bank; the
    selections of other interviews and all score rows, also those of
    questions no longer selected, are left as they were. *)
Theorem update_replaces_the_selection
  (id : string) (body : interview_types.UpdateInterviewDTO) (userId : string)
  (db : Database) (code : Z) (result : option InterviewSessionRow) (db' : Database)
  (selected : list interview_types.SelectedQuestionDTO) :
  InterviewController.update id body userId db = (Json code result, db') →
  interview_types.selectedQuestions' body = Some selected →
  NoDup (interview_types.questionId <$> selected)
  ∧ (∀ x, x ∈ selected → is_Some (Question db !! interview_types.questionId x))
  ∧ (∀ q row,
       InterviewQuestion db' !! (id, q) = Some row
       ↔ ∃ x, x ∈ selected ∧ interview_types.questionId x = q
              ∧ row = mkInterviewQuestionRow (interview_types.order x))
  ∧ (∀ i q, i ≠ id → InterviewQuestion db' !! (i, q) = InterviewQuestion db !! (i, q))
  ∧ Score db' = Score db.
Proof.
  intros H Hsel. apply update_Json_inv in H.
  pose proof (updateInterview_rows _ _ _ _ _ _ H) as (_ & Hq). rewrite Hsel in Hq.
  apply updateInterview_tables in H as (old & _ & _ & _ & _ & Hsc & _).
  assert (∃ t, InterviewService.createMany (InterviewService.has_key (Question db)) id
                 (InterviewService.interviewQuestion_rows selected)
                 (prisma.deleteMany id (InterviewQuestion db)) = Return t) as Hok by eauto.
  apply createMany_Return_iff in Hok as (Href & Hnd & _).
  split; [by rewrite <- fst_interviewQuestion_rows|]. split; [|split; [|split; [|exact Hsc]]].
  - intros x Hx. apply has_key_true. rewrite Forall_forall in Href.
    apply (Href (interview_types.questionId x,
                 mkInterviewQuestionRow (interview_types.order x))).
    apply elem_of_interviewQuestion_rows. by exists x.
  - intros q row. rewrite (createMany_lookup _ _ _ _ _ Hq), deleteMany_lookup. cbn.
    destruct (decide (id = id)); [|contradiction]. split.
    + intros [[=]|(k & [= <-] & Hin)]. by apply elem_of_interviewQuestion_rows.
    + intros Hx. right. exists q. split; [reflexivity|]. by apply elem_of_interviewQuestion_rows.
  - intros i q Hne. rewrite (createMany_Return _ _ _ _ _ Hq) by (cbn; congruence).
    rewrite deleteMany_lookup. cbn. by destruct (decide (i = id)).
Qed.

Lemma update_replaces_the_selection_witness :
  ∃ db',
    fst (InterviewController.update "i1"
           (interview_types.mkUpdateInterviewDTO None None
              (Some [interview_types.mkSelectedQuestionDTO "q2" 1;
                     interview_types.mkSelectedQuestionDTO "q3" 2]))
           "u1" Examples.db_setup)
    = Json 200 (Some (mkSession "u1" "Ada" SETUP))
    ∧ snd (InterviewController.update "i1"
             (interview_types.mkUpdateInterviewDTO None None
                (Some [interview_types.mkSelectedQuestionDTO "q2" 1;
                       interview_types.mkSelectedQuestionDTO "q3" 2]))
             "u1" Examples.db_setup) = db'
    ∧ InterviewQuestion db' !! ("i1", "q1") = None
    ∧ InterviewQuestion db' !! ("i1", "q3") = Some (mkInterviewQuestionRow 2).
Proof.
  eexists. split; [vm_compute; reflexivity|]. split; [reflexivity|].
  set (db' := snd _).
  assert (InterviewController.update "i1"
            (interview_types.mkUpdateInterviewDTO None None
               (Some [interview_types.mkSelectedQuestionDTO "q2" 1;
                      interview_types.mkSelectedQuestionDTO "q3" 2]))
            "u1" Examples.db_setup
          = (Json 200 (Some (mkSession "u1" "Ada" SETUP)), db')) as Hrun.
  { subst db'. vm_compute. reflexivity. }
  destruct (update_replaces_the_selection _ _ _ _ _ _ _ _ Hrun eq_refl)
    as (_ & _ & Hrows & _).
  split.
  - destruct (InterviewQuestion db' !! ("i1", "q1")) as [row|] eqn:E; [|reflexivity].
    exfalso. apply Hrows in E as (x & Hx & Hq & _).
    rewrite !elem_of_cons, elem_of_nil in Hx.
    destruct Hx as [->|[->|[]]]; discriminate.
  - apply Hrows. exists (interview_types.mkSelectedQuestionDTO "q3" 2).
    split; [|by split]. right; left.
Defined.

Section Creating.



End Creating.


Section ConcreteConstraints.

(** The constraints, in a form that can be decided on a given database. *)
Lemma constraints_intro (db : Database) :
  map_Forall (fun _ row => is_Some (Section_ db !! sectionId row)) (Question db) →
  map_Forall (fun (k : string * string) (_ : InterviewSectionConfigRow) =>
                is_Some (InterviewSession db !! fst k) ∧ is_Some (Section_ db !! snd k))
             (InterviewSectionConfig db) →
  map_Forall (fun (k : string * string) (_ : InterviewQuestionRow) =>
                is_Some (InterviewSession db !! fst k) ∧ is_Some (Question db !! snd k))
             (InterviewQuestion db) →
  map_Forall (fun (k : string * string) (_ : ScoreRow) =>
                is_Some (InterviewSession db !! fst k) ∧ is_Some (Question db !! snd k))
             (Score db) →
  map_Forall (fun s1 row1 =>
                map_Forall (fun s2 row2 => name row1 = name row2 → s1 = s2) (Section_ db))
             (Section_ db) →
  constraints db.
Proof.
  intros Hq Hc Hi Hs Hn. constructor.
  - intros q row H. apply (Hq q row H).
  - intros i s row H. apply (Hc (i, s) row H).
  - intros i s row H. apply (Hc (i, s) row H).
  - intros i q row H. apply (Hi (i, q) row H).
  - intros i q row H. apply (Hi (i, q) row H).
  - intros i q row H. apply (Hs (i, q) row H).
  - intros s1 s2 row1 row2 H1 H2. apply (Hn s1 row1 H1 s2 row2 H2).
Qed.

End ConcreteConstraints.


(** X8. Deleting an interview answers 404 when there is none and 403 to
    another user, changing nothing; for its owner, whatever its status, it
    removes the session and every section configuration, selected
    question and score of it, and leaves the rows of every other
    interview and the question bank as they were. *)
Theorem remove_deletes_the_interview_and_all_its_rows
  (id userId : string) (db : Database) :
  (InterviewSession db !! id = None →
   InterviewController.remove id userId db = (ErrorJson 404 "Interview not found", db))
  ∧ (∀ session,
       InterviewSession db !! id = Some session → interviewerId session ≠ userId →
       InterviewController.remove id userId db = (ErrorJson 403 "Unauthorized", db))
  ∧ (∀ session,
       InterviewSession db !! id = Some session → interviewerId session = userId →
       ∃ db',
         InterviewController.remove id userId db = (Json 204 tt, db')
         ∧ InterviewSession db' !! id = None
         ∧ (∀ k, InterviewSectionConfig db' !! (id, k) = None
                 ∧ InterviewQuestion db' !! (id, k) = None
                 ∧ Score db' !! (id, k) = None)
         ∧ (∀ other, other ≠ id →
              InterviewSession db' !! other = InterviewSession db !! other
              ∧ ∀ k, InterviewSectionConfig db' !! (other, k)
                     = InterviewSectionConfig db !! (other, k)
                     ∧ InterviewQuestion db' !! (other, k) = InterviewQuestion db !! (other, k)
                     ∧ Score db' !! (other, k) = Score db !! (other, k))
         ∧ Question db' = Question db ∧ Section_ db' = Section_ db).
Proof.
  unfold InterviewController.remove, InterviewService.deleteInterview.
  split; [|split].
  - by intros ->.
  - intros session -> Hother. by destruct (decide (interviewerId session ≠ userId)).
  - intros session -> Howner.
    destruct (decide (interviewerId session ≠ userId)); [contradiction|].
    eexists. split; [reflexivity|]. cbn.
    split; [apply lookup_delete_eq|]. split; [|split; [|done]].
    + intros k. rewrite !deleteMany_lookup. cbn.
      by destruct (decide (id = id)).
    + intros other Hne. split; [by apply lookup_delete_ne|].
      intros k. rewrite !deleteMany_lookup. cbn.
      by destruct (decide (other = id)).
Qed.

(** ** Referential integrity *)

Section Integrity.

Lemma createMany_fk {V W : Type} (referenced : gmap string W) (interviewId : string)
  (rows : list (string * V)) (table table' : gmap (string * string) V) :
  InterviewService.createMany (InterviewService.has_key referenced) interviewId rows table
  = Return table' →
  ∀ key v, table' !! key = Some v →
           table !! key = Some v
           ∨ (fst key = interviewId ∧ is_Some (referenced !! snd key)).
Proof.
  intros H key v Hkey.
  apply (createMany_lookup _ _ _ _ _ H) in Hkey as [Hold|(k & -> & Hin)]; [by left|].
  right. split; [reflexivity|]. cbn.
  assert (∃ t, InterviewService.createMany (InterviewService.has_key referenced)
                 interviewId rows table = Return t) as Hok by eauto.
  apply createMany_Return_iff in Hok as (Href & _). rewrite Forall_forall in Href.
  apply has_key_true. apply (Href (k, v) Hin).
Qed.

(** No request touches the question bank or the sections. *)
Lemma handle_bank userId r db :
  Question (snd (handle userId r db)) = Question db
  ∧ Section_ (snd (handle userId r db)) = Section_ db.
Proof.
  destruct r as [newId body|id' body|id'|id'|id'|body]; cbn [handle].
  - unfold InterviewController.create.
    destruct (ScoreController.falsy _), (interview_types.candidateName' body),
      (interview_types.sectionConfigs' body), (interview_types.selectedQuestions' body);
      cbn; try done.
    destruct (InterviewService.createInterview _ _ _ _) as [[i db']|] eqn:E; cbn; [|done].
    by apply createInterview_tables in E as (_ & _ & _ & _ & -> & ->).
  - unfold InterviewController.update.
    destruct (InterviewService.updateInterview _ _ _ _) as [[i db']|] eqn:E; cbn; [|done].
    by apply updateInterview_tables in E as (old & _ & _ & _ & _ & _ & -> & ->).
  - unfold InterviewController.start.
    destruct (InterviewService.startInterview _ _ _) as [[i db']|] eqn:E; cbn; [|done].
    apply startInterview_inv in E as (old & _ & _ & _ & E). by injection E as -> ->.
  - unfold InterviewController.complete.
    destruct (InterviewService.completeInterview _ _ _) as [[i db']|] eqn:E; cbn; [|done].
    apply completeInterview_inv in E as (old & _ & _ & _ & E). by injection E as -> ->.
  - unfold InterviewController.remove.
    destruct (InterviewService.deleteInterview _ _ _) as [[[] db']|] eqn:E; cbn; [|done].
    by apply deleteInterview_tables in E as (_ & _ & -> & ->).
  - destruct (ScoreController.upsert body userId db) as [res db'] eqn:E. cbn.
    pose proof (upsert_tables body userId db) as (_ & Hq & Hs & _).
    rewrite E in Hq, Hs. by split.
Qed.

(** The rows a request leaves in the two tables of an interview's plan:
    rows that were there, of interviews that still are, or new rows of an
    interview that is there, referencing what exists. *)
Lemma handle_plan userId r db :
  (∀ i k row, InterviewSectionConfig db !! (i, k) = Some row →
              is_Some (InterviewSession db !! i)) →
  (∀ i k row, InterviewQuestion db !! (i, k) = Some row →
              is_Some (InterviewSession db !! i)) →
  (∀ i k row, InterviewSectionConfig (snd (handle userId r db)) !! (i, k) = Some row →
     is_Some (InterviewSession (snd (handle userId r db)) !! i)
     ∧ (InterviewSectionConfig db !! (i, k) = Some row ∨ is_Some (Section_ db !! k)))
  ∧ (∀ i k row, InterviewQuestion (snd (handle userId r db)) !! (i, k) = Some row →
       is_Some (InterviewSession (snd (handle userId r db)) !! i)
       ∧ (InterviewQuestion db !! (i, k) = Some row ∨ is_Some (Question db !! k))).
Proof.
  intros Hc Hq.
  assert ((∀ i k row, InterviewSectionConfig db !! (i, k) = Some row →
             is_Some (InterviewSession db !! i)
             ∧ (InterviewSectionConfig db !! (i, k) = Some row ∨ is_Some (Section_ db !! k)))
          ∧ (∀ i k row, InterviewQuestion db !! (i, k) = Some row →
               is_Some (InterviewSession db !! i)
               ∧ (InterviewQuestion db !! (i, k) = Some row ∨ is_Some (Question db !! k))))
    as Hsame.
  { split; intros i k row H; (split; [eauto | by left]). }
  destruct r as [newId body|id' body|id'|id'|id'|body]; cbn [handle].
  - unfold InterviewController.create.
    destruct (ScoreController.falsy _), (interview_types.candidateName' body),
      (interview_types.sectionConfigs' body), (interview_types.selectedQuestions' body);
      cbn; try exact Hsame.
    destruct (InterviewService.createInterview _ _ _ _) as [[i db']|] eqn:E;
      cbn; [|exact Hsame].
    pose proof (createInterview_rows _ _ _ _ _ _ E) as (_ & H1 & H2).
    apply createInterview_tables in E as (_ & _ & Hs & _).
    split; intros j k row Hrow; rewrite Hs, lookup_insert_is_Some.
    + apply (createMany_fk _ _ _ _ _ H1) in Hrow as [Hold|[Hj Hk]]; cbn in *.
      * split; [|by left]. destruct (decide (newId = j)); [by left|]. right. eauto.
      * split; [by left | by right].
    + apply (createMany_fk _ _ _ _ _ H2) in Hrow as [Hold|[Hj Hk]]; cbn in *.
      * split; [|by left]. destruct (decide (newId = j)); [by left|]. right. eauto.
      * split; [by left | by right].
  - unfold InterviewController.update.
    destruct (InterviewService.updateInterview _ _ _ _) as [[i db']|] eqn:E;
      cbn; [|exact Hsame].
    pose proof (updateInterview_rows _ _ _ _ _ _ E) as (H1 & H2).
    apply updateInterview_tables in E as (old & Hold & _ & _ & Hs & _).
    assert (∀ j, is_Some (InterviewSession db !! j) → is_Some (InterviewSession db' !! j))
      as Hkeep.
    { intros j Hj. destruct Hs as [->|[renamed ->]]; [exact Hj|].
      rewrite lookup_insert_is_Some. destruct (decide (id' = j)); auto. }
    split; intros j k row Hrow.
    + destruct (interview_types.sectionConfigs' body).
      * apply (createMany_fk _ _ _ _ _ H1) in Hrow as [Hrow|[Hj Hk]]; cbn in *.
        -- rewrite deleteMany_lookup in Hrow. destruct (decide (_ = id')); [discriminate|].
           split; [eauto | by left].
        -- subst j. split; [apply Hkeep; by eexists | by right].
      * rewrite H1 in Hrow. split; [eauto | by left].
    + destruct (interview_types.selectedQuestions' body).
      * apply (createMany_fk _ _ _ _ _ H2) in Hrow as [Hrow|[Hj Hk]]; cbn in *.
        -- rewrite deleteMany_lookup in Hrow. destruct (decide (_ = id')); [discriminate|].
           split; [eauto | by left].
        -- subst j. split; [apply Hkeep; by eexists | by right].
      * rewrite H2 in Hrow. split; [eauto | by left].
  - unfold InterviewController.start.
    destruct (InterviewService.startInterview _ _ _) as [[i db']|] eqn:E;
      cbn; [|exact Hsame].
    apply startInterview_inv in E as (old & _ & _ & _ & E). injection E as -> ->. cbn.
    split; intros j k row Hrow; rewrite lookup_insert_is_Some;
      (split; [destruct (decide (id' = j)); [by left | right; eauto] | by left]).
  - unfold InterviewController.complete.
    destruct (InterviewService.completeInterview _ _ _) as [[i db']|] eqn:E;
      cbn; [|exact Hsame].
    apply completeInterview_inv in E as (old & _ & _ & _ & E). injection E as -> ->. cbn.
    split; intros j k row Hrow; rewrite lookup_insert_is_Some;
      (split; [destruct (decide (id' = j)); [by left | right; eauto] | by left]).
  - unfold InterviewController.remove, InterviewService.deleteInterview.
    destruct (InterviewSession db !! id') as [old|]; cbn; [|exact Hsame].
    destruct (decide (interviewerId old ≠ userId)); cbn; [exact Hsame|].
    split; intros j k row Hrow; rewrite deleteMany_lookup in Hrow; cbn in Hrow;
      (destruct (decide (j = id')); [discriminate|]);
      (split; [rewrite lookup_delete_ne by congruence; eauto | by left]).
  - destruct (ScoreController.upsert body userId db) as [res db'] eqn:E. cbn [snd].
    pose proof (upsert_effect body userId db) as Heff. rewrite E in Heff. cbn [snd] in Heff.
    destruct Heff as [->|(i & q & x & interview & row & _ & _ & _ & _ & _ & _ & -> & _)];
      exact Hsame.
Qed.

Lemma handle_constraints userId r db :
  constraints db → constraints (snd (handle userId r db)).
Proof.
  intros [Hqs Hci Hcs Hii Hiq Hsc Hn].
  destruct (handle_bank userId r db) as [Hq Hs].
  destruct (handle_plan userId r db Hci Hii) as [Hc' Hi'].
  constructor.
  - intros q row. rewrite Hq, Hs. apply Hqs.
  - intros i s row H. by apply (Hc' i s row).
  - intros i s row H. rewrite Hs. destruct (Hc' i s row H) as [_ [Hold|Hnew]]; eauto.
  - intros i q row H. by apply (Hi' i q row).
  - intros i q row H. rewrite Hq. destruct (Hi' i q row H) as [_ [Hold|Hnew]]; eauto.
  - by apply handle_foreign_keys.
  - rewrite Hs. apply Hn.
Qed.

End Integrity.

(** X9. The foreign keys of the schema and the uniqueness of section
    names are kept by every request: whatever history is served, each
    section configuration, selected question and score row references an
    interview and a section or question that exist. *)
Theorem requests_keep_the_constraints (history : list (string * Request)) (db : Database) :
  constraints db → constraints (serve history db).
Proof.
  revert db. induction history as [|[userId r] history IH]; intros db Hc; [exact Hc|].
  change (serve ((userId, r) :: history) db)
    with (serve history (snd (handle userId r db))).
  by apply IH, handle_constraints.
Qed.

Lemma requests_keep_the_constraints_witness :
  constraints
    (serve [("u2", CreateInterview "i2" MoreExamples.create_body);
            ("u1", UpsertScore (Examples.body "q2" (3 # 1)%Q None));
            ("u1", RemoveInterview "i1")]
       Examples.db_running).
Proof.
  apply (requests_keep_the_constraints
           [("u2", CreateInterview "i2" MoreExamples.create_body);
            ("u1", UpsertScore (Examples.body "q2" (3 # 1)%Q None));
            ("u1", RemoveInterview "i1")]
           Examples.db_running).
  apply constraints_intro; apply (bool_decide_unpack _); vm_compute; exact I.
Defined.

(** ** Removing a question of the bank *)

Section RemovingAQuestion.

Lemma QuestionService_deleteMany_lookup {V : Type} (questionId : string)
  (table : gmap (string * string) V) key :
  QuestionService.deleteMany questionId table !! key
  = if decide (snd key = questionId) then None else table !! key.
Proof.
  unfold QuestionService.deleteMany. destruct (decide (snd key = questionId)) as [Heq|Hne].
  - apply map_lookup_filter_None. right. intros v _ Hk. by apply Hk.
  - destruct (table !! key) as [v|] eqn:Hv.
    + apply map_lookup_filter_Some. by split.
    + apply map_lookup_filter_None. by left.
Qed.

End RemovingAQuestion.

(** X10. Removing a question: an unknown identifier is answered 404 and
    nothing changes; a question of the bank is removed, whoever asks,
    together with every row that selects it and every score given to it,
    in every interview (also a completed one, also another user's); all
    other rows stay as they were, and the constraints of the schema still
    hold afterwards. *)
Theorem removing_a_question_removes_its_scores_everywhere (id : string) (db : Database) :
  (Question db !! id = None →
   QuestionController.remove id db = (ErrorJson 404 "Question not found", db))
  ∧ (∀ question, Question db !! id = Some question →
     ∃ db', QuestionController.remove id db = (Json 204 tt, db')
       ∧ Question db' !! id = None
       ∧ (∀ i, Score db' !! (i, id) = None ∧ InterviewQuestion db' !! (i, id) = None)
       ∧ (∀ i q, q ≠ id →
            Score db' !! (i, q) = Score db !! (i, q)
            ∧ InterviewQuestion db' !! (i, q) = InterviewQuestion db !! (i, q)
            ∧ Question db' !! q = Question db !! q)
       ∧ Section_ db' = Section_ db
       ∧ InterviewSession db' = InterviewSession db
       ∧ InterviewSectionConfig db' = InterviewSectionConfig db
       ∧ (constraints db → constraints db')).
Proof.
  unfold QuestionController.remove, QuestionService.deleteQuestion. split.
  - intros ->. reflexivity.
  - intros question ->. eexists. split; [reflexivity|]. cbn.
    split; [apply lookup_delete_eq|].
    split.
    { intros i. rewrite !QuestionService_deleteMany_lookup. cbn.
      by destruct (decide (id = id)). }
    split.
    { intros i q Hq. rewrite !QuestionService_deleteMany_lookup. cbn.
      destruct (decide (q = id)); [done|].
      by rewrite lookup_delete_ne by congruence. }
    do 3 (split; [reflexivity|]).
    intros [Hqs Hci Hcs Hii Hiq Hsc Hn]. constructor; cbn.
    + intros q row Hrow. destruct (decide (q = id)) as [->|Hne].
      * by rewrite lookup_delete_eq in Hrow.
      * rewrite lookup_delete_ne in Hrow by congruence. eauto.
    + exact Hci.
    + exact Hcs.
    + intros i q row Hrow. rewrite QuestionService_deleteMany_lookup in Hrow. cbn in Hrow.
      destruct (decide (q = id)); [discriminate|]. eauto.
    + intros i q row Hrow. rewrite QuestionService_deleteMany_lookup in Hrow. cbn in Hrow.
      destruct (decide (q = id)); [discriminate|].
      rewrite lookup_delete_ne by congruence. eauto.
    + intros i q row Hrow. cbn in Hrow.
      rewrite QuestionService_deleteMany_lookup in Hrow. cbn in Hrow.
      destruct (decide (q = id)); [discriminate|].
      destruct (Hsc i q row Hrow) as [H1 H2]. split; [exact H1|]. cbn.
      by rewrite lookup_delete_ne by congruence.
    + exact Hn.
Qed.

(** ** Reading an interview with its relations *)

Section Reading.

Lemma serve_invariant (P : Database → Prop) :
  (∀ userId r db, P db → P (snd (handle userId r db))) →
  ∀ history db, P db → P (serve history db).
Proof.
  intros Hstep history. induction history as [|[userId r] history IH]; intros db Hdb;
    [exact Hdb|].
  change (serve ((userId, r) :: history) db)
    with (serve history (snd (handle userId r db))).
  by apply IH, Hstep.
Qed.

Lemma traverse_Forall2 {A B : Type} (f : A → Result B) (l : list A) :
  Forall (fun x => ∃ y, f x = Return y) l →
  ∃ ys, InterviewData.traverse f l = Return ys ∧ Forall2 (fun x y => f x = Return y) l ys.
Proof.
  induction 1 as [|x l [y Hy] _ (ys & Hys & Hall)]; cbn.
  - exists []. by split.
  - rewrite Hy, Hys. exists (y :: ys). split; [reflexivity | by constructor].
Qed.

Lemma elem_of_findMany {V : Type} (id : string) (table : gmap (string * string) V) kv :
  kv ∈ prisma.findMany id table ↔ fst (fst kv) = id ∧ table !! fst kv = Some (snd kv).
Proof.
  unfold prisma.findMany. rewrite list_elem_of_filter. destruct kv as [k v]. cbn.
  by rewrite elem_of_map_to_list.
Qed.

Lemma orderBy_Permutation {V : Type} (order : V → Z) (rows : list ((string * string) * V)) :
  InterviewData.orderBy order rows ≡ₚ rows.
Proof. apply merge_sort_Permutation. Qed.

Lemma orderBy_StronglySorted {V : Type} (order : V → Z)
  (rows : list ((string * string) * V)) :
  StronglySorted (fun a b => order (snd a) ≤ order (snd b))
    (InterviewData.orderBy order rows).
Proof.
  unfold InterviewData.orderBy.
  apply (@StronglySorted_merge_sort _ (fun a b => order (snd a) ≤ order (snd b))).
  - intros a b c. lia.
  - intros a b. lia.
Qed.

Lemma NoDup_getScoresForInterview id db :
  NoDup (score_questionId <$> ScoreService.getScoresForInterview id db).
Proof.
  unfold ScoreService.getScoresForInterview, prisma.findMany.
  rewrite <- list_fmap_compose. apply (NoDup_fmap_2_strong _).
  - intros [[i1 q1] r1] [[i2 q2] r2] H1 H2 Heq. cbn in Heq. subst q2.
    apply list_elem_of_filter in H1 as [Hi1 H1]. apply list_elem_of_filter in H2 as [Hi2 H2].
    cbn in Hi1, Hi2. subst i1 i2.
    apply elem_of_map_to_list in H1. apply elem_of_map_to_list in H2.
    rewrite H1 in H2. by injection H2 as ->.
  - apply NoDup_filter, NoDup_map_to_list.
Qed.

Lemma findUnique_with_relations_consistent id db session :
  constraints db →
  InterviewSession db !! id = Some session →
  ∃ configs questions,
    InterviewData.findUnique_with_relations id db
    = Return (Some (mkInterviewData session
                      (mkInterview (status session) configs questions
                         (ScoreService.getScoresForInterview id db))))
    ∧ Forall2 (config_of db)
        (InterviewData.orderBy config_order (prisma.findMany id (InterviewSectionConfig db)))
        configs
    ∧ Forall2 (question_of db)
        (InterviewData.orderBy question_order (prisma.findMany id (InterviewQuestion db)))
        questions.
Proof.
  intros [Hqs Hci Hcs Hii Hiq Hsc Hn] Hsession.
  unfold InterviewData.findUnique_with_relations. rewrite Hsession.
  destruct (traverse_Forall2 (InterviewData.include_section db)
              (InterviewData.orderBy config_order
                 (prisma.findMany id (InterviewSectionConfig db))))
    as (configs & -> & Hconfigs).
  { apply Forall_forall. intros [[i s] row] Hin.
    rewrite orderBy_Permutation in Hin. apply elem_of_findMany in Hin as [_ Hrow].
    cbn in Hrow. unfold InterviewData.include_section. cbn.
    destruct (Hcs i s row Hrow) as [section ->]. eauto. }
  destruct (traverse_Forall2 (InterviewData.include_question db)
              (InterviewData.orderBy question_order
                 (prisma.findMany id (InterviewQuestion db))))
    as (questions & -> & Hquestions).
  { apply Forall_forall. intros [[i q] row] Hin.
    rewrite orderBy_Permutation in Hin. apply elem_of_findMany in Hin as [_ Hrow].
    cbn in Hrow. unfold InterviewData.include_question. cbn.
    destruct (Hiq i q row Hrow) as [question Hquestion]. rewrite Hquestion.
    destruct (Hqs q question Hquestion) as [section ->]. eauto. }
  exists configs, questions. split; [reflexivity|]. split.
  - eapply Forall2_impl; [exact Hconfigs|]. intros row sc. unfold InterviewData.include_section.
    destruct (Section_ db !! snd (fst row)) as [section|] eqn:E; [|discriminate].
    intros [= <-]. by exists section.
  - eapply Forall2_impl; [exact Hquestions|]. intros row item.
    unfold InterviewData.include_question.
    destruct (Question db !! snd (fst row)) as [question|] eqn:E; [|discriminate].
    destruct (Section_ db !! sectionId question) as [section|] eqn:E'; [|discriminate].
    intros [= <-]. by exists question, section.
Qed.

Lemma Forall2_elem_of_r {A B : Type} (R : A → B → Prop) l k y :
  Forall2 R l k → y ∈ k → ∃ x, x ∈ l ∧ R x y.
Proof.
  induction 1 as [|x y' l k Hxy _ IH]; intros Hin.
  - by apply elem_of_nil in Hin.
  - apply elem_of_cons in Hin as [->|Hin].
    + exists x. split; [by left | exact Hxy].
    + destruct (IH Hin) as (x' & Hx' & HR). exists x'. split; [by right | exact HR].
Qed.

Lemma relations_persisted id db configs questions st :
  constraints db → Score_in_range db →
  Forall2 (config_of db)
    (InterviewData.orderBy config_order (prisma.findMany id (InterviewSectionConfig db)))
    configs →
  Forall2 (question_of db)
    (InterviewData.orderBy question_order (prisma.findMany id (InterviewQuestion db)))
    questions →
  persisted (mkInterview st configs questions (ScoreService.getScoresForInterview id db)).
Proof.
  intros [Hqs Hci Hcs Hii Hiq Hsc Hn] Hrange Hconfigs Hquestions. constructor; cbn.
  - apply NoDup_getScoresForInterview.
  - intros s Hs. apply elem_of_getScoresForInterview in Hs as (q & row & Hrow & ->). cbn.
    specialize (Hrange _ _ Hrow). lia.
  - intros q sc Hq Hsc'.
    destruct (Forall2_elem_of_r _ _ _ _ Hquestions Hq)
      as (qrow & _ & question & section & _ & Hsection & ->).
    destruct (Forall2_elem_of_r _ _ _ _ Hconfigs Hsc')
      as (crow & _ & section' & Hsection' & ->).
    cbn. split.
    + intros Hname. by apply (Hn _ _ _ _ Hsection Hsection').
    + intros Heq. rewrite Heq, Hsection' in Hsection. by injection Hsection as ->.
Qed.

End Reading.

(** X11. Reading an interview on a database that satisfies the schema's
    constraints never fails on a missing relation: the answer is 404 for
    an unknown identifier, 403 for anyone but the owner, and for the owner
    the session with exactly its section configurations and selected
    questions, each in ascending [order] and joined with its section (and
    question), and exactly its score rows. *)
Theorem getById_returns_the_plan_in_order (id userId : string) (db : Database) :
  constraints db →
  (InterviewSession db !! id = None →
   InterviewData.getById id userId db = ErrorJson 404 "Interview not found")
  ∧ (∀ session, InterviewSession db !! id = Some session →
       (interviewerId session ≠ userId →
        InterviewData.getById id userId db = ErrorJson 403 "Unauthorized")
       ∧ (interviewerId session = userId →
          ∃ data configRows questionRows,
            InterviewData.getById id userId db = Json 200 data
            ∧ data_session data = session
            ∧ interview_status (data_interview data) = status session
            ∧ scores (data_interview data) = ScoreService.getScoresForInterview id db
            ∧ configRows ≡ₚ prisma.findMany id (InterviewSectionConfig db)
            ∧ StronglySorted (fun a b => config_order (snd a) ≤ config_order (snd b))
                configRows
            ∧ Forall2 (config_of db) configRows (sectionConfigs (data_interview data))
            ∧ questionRows ≡ₚ prisma.findMany id (InterviewQuestion db)
            ∧ StronglySorted (fun a b => question_order (snd a) ≤ question_order (snd b))
                questionRows
            ∧ Forall2 (question_of db) questionRows
                (selectedQuestions (data_interview data)))).
Proof.
  intros Hc. unfold InterviewData.getById, InterviewData.getInterview. split.
  - intros Hnone. unfold InterviewData.findUnique_with_relations. by rewrite Hnone.
  - intros session Hsession.
    destruct (findUnique_with_relations_consistent id db session Hc Hsession)
      as (configs & questions & -> & Hconfigs & Hquestions).
    cbn [data_session]. split.
    + intros Hother.
      destruct (decide (interviewerId session ≠ userId)); [reflexivity | contradiction].
    + intros Howner.
      destruct (decide (interviewerId session ≠ userId)); [contradiction|].
      eexists _, _, _. split; [reflexivity|]. cbn.
      do 3 (split; [reflexivity|]).
      split; [apply orderBy_Permutation|].
      split; [apply orderBy_StronglySorted|].
      split; [exact Hconfigs|].
      split; [apply orderBy_Permutation|].
      split; [apply orderBy_StronglySorted | exact Hquestions].
Qed.

Lemma getById_returns_the_plan_in_order_witness :
  ∃ data, InterviewData.getById "i1" "u1" Examples.db_running = Json 200 data.
Proof.
  destruct (getById_returns_the_plan_in_order "i1" "u1" Examples.db_running) as [_ H].
  - apply constraints_intro; apply (bool_decide_unpack _); vm_compute; exact I.
  - destruct (H (mkSession "u1" "Ada" IN_PROGRESS) eq_refl) as [_ H'].
    destruct (H' eq_refl) as (data & _ & _ & Hdata & _). by exists data.
Defined.

(** X12. Whatever requests have been served since a state that satisfied
    the schema's constraints with scores from 1 to 5, the data the export
    service reads for an existing interview is well formed, and on it the
    list page's pill, the Excel summary and the PDF summary show the same
    overall score, the mean of the section means. *)
Theorem list_page_and_exports_agree_on_served_data
  (history : list (string * Request)) (db : Database) (id : string)
  (session : InterviewSessionRow) :
  constraints db → Score_in_range db →
  InterviewSession (serve history db) !! id = Some session →
  ∃ data,
    InterviewData.getInterviewData id (serve history db) = Return data
    ∧ data_session data = session
    ∧ persisted (data_interview data)
    ∧ oQeq (ExportService.overall (data_interview data))
           (Aggregation.overallScore (data_interview data))
    ∧ InterviewListPage.ScorePill (data_interview data)
      = ExportService.generateExcel_avgScore (data_interview data)
    ∧ ExportService.generateExcel_avgScore (data_interview data)
      = ExportService.generatePdf_avgScore (data_interview data).
Proof.
  intros Hc Hr Hsession.
  apply (serve_invariant constraints handle_constraints history) in Hc.
  apply (serve_invariant Score_in_range handle_in_range history) in Hr.
  destruct (findUnique_with_relations_consistent id _ session Hc Hsession)
    as (configs & questions & Hfind & Hconfigs & Hquestions).
  unfold InterviewData.getInterviewData. rewrite Hfind.
  eexists. split; [reflexivity|]. cbn [data_session data_interview].
  split; [reflexivity|].
  pose proof (relations_persisted id _ configs questions (status session)
                Hc Hr Hconfigs Hquestions) as Hp.
  split; [exact Hp|]. split; [by apply export_overall|].
  by apply list_page_and_exports_agree.
Qed.

Lemma list_page_and_exports_agree_on_served_data_witness :
  ∃ data,
    InterviewData.getInterviewData "i1"
      (serve [("u1", UpsertScore (Examples.body "q1" (4 # 1)%Q None));
              ("u1", CompleteInterview "i1")]
         Examples.db_running) = Return data
    ∧ InterviewListPage.ScorePill (data_interview data)
      = ExportService.generatePdf_avgScore (data_interview data).
Proof.
  destruct (list_page_and_exports_agree_on_served_data
              [("u1", UpsertScore (Examples.body "q1" (4 # 1)%Q None));
               ("u1", CompleteInterview "i1")]
              Examples.db_running "i1" (mkSession "u1" "Ada" COMPLETED))
    as (data & Hdata & _ & _ & _ & H1 & H2).
  - apply constraints_intro; apply (bool_decide_unpack _); vm_compute; exact I.
  - intros key row Hrow.
    assert (map_Forall (fun _ row => 1 ≤ score row ≤ 5) (Score Examples.db_running)) as Hall.
    { apply (bool_decide_unpack _). vm_compute. exact I. }
    apply (Hall key row Hrow).
  - vm_compute. reflexivity.
  - exists data. split; [exact Hdata | congruence].
Defined.

(** ** Downloads *)

Section Downloads.

Lemma kept_cases (c : ascii) :
  ExportController.kept c = true →
  if ExportController.whitespace c then c = " "%char else filename_safe c = true.
Proof.
  destruct c as [[] [] [] [] [] [] [] []]; vm_compute; intros H;
    reflexivity || discriminate.
Qed.

Lemma filename_safe_kept (c : ascii) :
  filename_safe c = true →
  ExportController.kept c = true ∧ ExportController.whitespace c = false.
Proof.
  destruct c as [[] [] [] [] [] [] [] []]; vm_compute; intros H;
    (split; reflexivity) || discriminate.
Qed.

Lemma remove_others_kept (s : string) :
  Forall (fun c => ExportController.kept c = true)
    (list_ascii_of_string (ExportController.remove_others s)).
Proof.
  induction s as [|c s IH]; cbn; [constructor|].
  destruct (ExportController.kept c) eqn:Hc; [|exact IH]. cbn. by constructor.
Qed.

Lemma dash_runs_safe (in_run : bool) (s : string) :
  Forall (fun c => ExportController.kept c = true) (list_ascii_of_string s) →
  Forall (fun c => filename_safe c = true)
    (list_ascii_of_string (ExportController.dash_runs in_run s)).
Proof.
  revert in_run. induction s as [|c s IH]; intros in_run H; cbn; [constructor|].
  cbn in H. apply Forall_cons in H as [Hc H]. apply kept_cases in Hc.
  destruct (ExportController.whitespace c).
  - destruct in_run; [by apply IH|]. cbn. constructor; [reflexivity | by apply IH].
  - cbn. constructor; [exact Hc | by apply IH].
Qed.

Lemma safe_fixed (s : string) :
  Forall (fun c => filename_safe c = true) (list_ascii_of_string s) →
  ExportController.remove_others s = s ∧ ExportController.dash_runs false s = s.
Proof.
  induction s as [|c s IH]; cbn; [done|].
  intros H. apply Forall_cons in H as [Hc H]. apply filename_safe_kept in Hc as [-> ->].
  destruct (IH H) as [-> ->]. done.
Qed.

Lemma export_consistent {Buffer : Type} (generate : InterviewData → Buffer)
  (contentType extension id userId today : string) (db : Database) :
  constraints db →
  (InterviewSession db !! id = None →
   ExportController.export generate contentType extension id userId today db
   = ExportController.Refused 404 "Interview not found")
  ∧ (∀ session, InterviewSession db !! id = Some session →
       (interviewerId session ≠ userId →
        ExportController.export generate contentType extension id userId today db
        = ExportController.Refused 403 "Unauthorized")
       ∧ (interviewerId session = userId →
          ∃ data,
            InterviewData.getInterviewData id db = Return data
            ∧ data_session data = session
            ∧ ExportController.export generate contentType extension id userId today db
              = ExportController.Sent contentType
                  (ExportController.attachment
                     (ExportController.filename (candidateName session) today extension))
                  (generate data))).
Proof.
  intros Hc. unfold ExportController.export, InterviewData.getInterviewData. split.
  - intros Hnone. unfold InterviewData.findUnique_with_relations. by rewrite Hnone.
  - intros session Hsession.
    destruct (findUnique_with_relations_consistent id db session Hc Hsession)
      as (configs & questions & -> & _ & _).
    cbn [data_session]. split.
    + intros Hother.
      destruct (decide (interviewerId session ≠ userId)); [reflexivity | contradiction].
    + intros Howner.
      destruct (decide (interviewerId session ≠ userId)); [contradiction|].
      eexists. split; [reflexivity|]. split; reflexivity.
Qed.

End Downloads.

(** X13. On a database that satisfies the schema's constraints, both
    exports answer 404 for an unknown interview and 403 to anyone but its
    owner; the owner is sent the document generated from the interview's
    data, with the format's content type and a file name made of the
    candidate's name and the day. *)
Theorem exports_are_sent_to_the_owner_only {Buffer : Type}
  (generatePdf generateExcel : InterviewData → Buffer)
  (id userId today : string) (db : Database) :
  constraints db →
  (InterviewSession db !! id = None →
   ExportController.exportPdf generatePdf id userId today db
   = ExportController.Refused 404 "Interview not found"
   ∧ ExportController.exportExcel generateExcel id userId today db
     = ExportController.Refused 404 "Interview not found")
  ∧ (∀ session, InterviewSession db !! id = Some session →
       (interviewerId session ≠ userId →
        ExportController.exportPdf generatePdf id userId today db
        = ExportController.Refused 403 "Unauthorized"
        ∧ ExportController.exportExcel generateExcel id userId today db
          = ExportController.Refused 403 "Unauthorized")
       ∧ (interviewerId session = userId →
          ∃ data,
            InterviewData.getInterviewData id db = Return data
            ∧ data_session data = session
            ∧ ExportController.exportPdf generatePdf id userId today db
              = ExportController.Sent "application/pdf"
                  (ExportController.attachment
                     ("starcamp-interview-"
                      ++ ExportController.sanitized (candidateName session)
                      ++ "-" ++ today ++ ".pdf"))
                  (generatePdf data)
            ∧ ExportController.exportExcel generateExcel id userId today db
              = ExportController.Sent
                  "application/vnd.openxmlformats-officedocument.spreadsheetml.sheet"
                  (ExportController.attachment
                     ("starcamp-interview-"
                      ++ ExportController.sanitized (candidateName session)
                      ++ "-" ++ today ++ ".xlsx"))
                  (generateExcel data))).
Proof.
  intros Hc. unfold ExportController.exportPdf, ExportController.exportExcel.
  pose proof (export_consistent generatePdf "application/pdf" ".pdf" id userId today db Hc)
    as [Hpdf404 Hpdf].
  pose proof (export_consistent generateExcel
                "application/vnd.openxmlformats-officedocument.spreadsheetml.sheet" ".xlsx"
                id userId today db Hc) as [Hxls404 Hxls].
  split; [by split; [apply Hpdf404 | apply Hxls404]|].
  intros session Hsession.
  destruct (Hpdf session Hsession) as [Hpdf403 Hpdf200].
  destruct (Hxls session Hsession) as [Hxls403 Hxls200]. split.
  - intros Hother. by split; [apply Hpdf403 | apply Hxls403].
  - intros Howner.
    destruct (Hpdf200 Howner) as (data & Hdata & Hs & Hsent).
    destruct (Hxls200 Howner) as (data' & Hdata' & _ & Hsent').
    rewrite Hdata in Hdata'. injection Hdata' as <-.
    exists data. by repeat split.
Qed.

Lemma exports_are_sent_to_the_owner_only_witness :
  ExportController.exportPdf (fun data => candidateName (data_session data))
    "i1" "u2" "2026-02-11" Examples.db_running
  = ExportController.Refused 403 "Unauthorized".
Proof.
  destruct (exports_are_sent_to_the_owner_only
              (fun data => candidateName (data_session data))
              (fun data => candidateName (data_session data))
              "i1" "u2" "2026-02-11" Examples.db_running) as [_ H].
  - apply constraints_intro; apply (bool_decide_unpack _); vm_compute; exact I.
  - destruct (H (mkSession "u1" "Ada" IN_PROGRESS) eq_refl) as [H' _].
    apply H'. cbn. discriminate.
Defined.

(** X14. The candidate's name enters a download's file name with nothing
    but letters, digits, hyphens and underscores left: no quote, space,
    line break, dot or slash of the name reaches the Content-Disposition
    header, and a name already of that form is used as it is. *)
Theorem sanitized_name_has_only_safe_characters (candidateName : string) :
  Forall (fun c => filename_safe c = true)
    (list_ascii_of_string (ExportController.sanitized candidateName))
  ∧ ExportController.sanitized (ExportController.sanitized candidateName)
    = ExportController.sanitized candidateName
  ∧ (Forall (fun c => filename_safe c = true) (list_ascii_of_string candidateName) →
     ExportController.sanitized candidateName = candidateName).
Proof.
  assert (Forall (fun c => filename_safe c = true)
            (list_ascii_of_string (ExportController.sanitized candidateName))) as Hsafe.
  { apply dash_runs_safe, remove_others_kept. }
  split; [exact Hsafe|]. split.
  - unfold ExportController.sanitized at 1.
    destruct (safe_fixed _ Hsafe) as [-> ->]. reflexivity.
  - intros H. unfold ExportController.sanitized. by destruct (safe_fixed _ H) as [-> ->].
Qed.

(** ** What a save cycle stores *)

Section Saving.

Lemma serve_cons userId r history db :
  serve ((userId, r) :: history) db = serve history (snd (handle userId r db)).
Proof. reflexivity. Qed.

(** The upserts for a list of entries, each acceptable, leave one row per
    entry, the later of two entries for a question. *)
Lemma serve_saved_bodies userId id session (l : list (string * LiveInterviewPage.Entry)) db :
  id ≠ EmptyString →
  InterviewSession db !! id = Some session →
  interviewerId session = userId →
  Forall (fun kv => fst kv ≠ EmptyString
                    ∧ 1 ≤ LiveInterviewPage.entry_score (snd kv) ≤ 5
                    ∧ (is_Some (Score db !! (id, fst kv)) ∨ is_Some (Question db !! fst kv)))
         l →
  let db' := serve ((fun b => (userId, UpsertScore b)) <$> (saved_body id <$> l)) db in
  Score db' = foldl (fun m kv => <[(id, fst kv) := saved_row (snd kv)]> m) (Score db) l
  ∧ InterviewSession db' = InterviewSession db
  ∧ Question db' = Question db
  ∧ Section_ db' = Section_ db
  ∧ InterviewSectionConfig db' = InterviewSectionConfig db
  ∧ InterviewQuestion db' = InterviewQuestion db.
Proof.
  intros Hid. revert db. induction l as [|[q e] l IH]; intros db Hsession Howner Hall db'.
  - subst db'. by repeat split.
  - subst db'. apply Forall_cons in Hall as [(Hq & He & Hthere) Hall]. cbn in Hq, He, Hthere.
    change (serve ((fun b => (userId, UpsertScore b)) <$> (saved_body id <$> (q, e) :: l)) db)
      with (serve ((fun b => (userId, UpsertScore b)) <$> (saved_body id <$> l))
              (snd (handle userId (UpsertScore (saved_body id (q, e))) db))).
    cbn [handle foldl]. unfold saved_body at 2 4 6 8 10 12. cbn [fst snd].
    rewrite (upsert_accepted id q _ _ userId db session Hid Hq He Hsession Howner).
    assert (ScoreService.upsertScore
              (ScoreService.mkUpsertData id q (LiveInterviewPage.entry_score e)
                 (Some (LiveInterviewPage.entry_notes e))) db
            = Return (ScoreItem_of (id, q) (saved_row e),
                      set_Score (<[(id, q) := saved_row e]> (Score db)) db)) as ->.
    { destruct (Score db !! (id, q)) as [old|] eqn:Hold.
      - by rewrite (upsertScore_update _ _ _ _ _ old Hold).
      - destruct Hthere as [[? [=]]|Hbank].
        rewrite upsertScore_create; [reflexivity | exact Hold | by eexists | exact Hbank]. }
    cbn [snd].
    destruct (IH (set_Score (<[(id, q) := saved_row e]> (Score db)) db))
      as (H1 & H2 & H3 & H4 & H5 & H6); [exact Hsession | exact Howner | |].
    + eapply Forall_impl; [exact Hall|]. intros [q' e'] (Hq' & He' & Hthere'). cbn in *.
      split; [exact Hq'|]. split; [exact He'|].
      destruct Hthere' as [Hrow|Hbank]; [left | by right].
      rewrite lookup_insert_is_Some. destruct (decide ((id, q) = (id, q'))); auto.
    + by repeat split.
Qed.

Lemma foldl_saved_lookup (id : string) (l : list (string * LiveInterviewPage.Entry))
  (m : gmap (string * string) ScoreRow) :
  NoDup (fst <$> l) →
  (∀ q e, (q, e) ∈ l →
     foldl (fun m kv => <[(id, fst kv) := saved_row (snd kv)]> m) m l !! (id, q)
     = Some (saved_row e))
  ∧ (∀ i q, (i ≠ id ∨ q ∉ fst <$> l) →
       foldl (fun m kv => <[(id, fst kv) := saved_row (snd kv)]> m) m l !! (i, q)
       = m !! (i, q)).
Proof.
  revert m. induction l as [|[q0 e0] l IH]; intros m Hnd.
  - split; [intros q e H; by apply elem_of_nil in H | reflexivity].
  - rewrite fmap_cons in Hnd. apply NoDup_cons in Hnd as [Hq0 Hnd]. cbn in Hq0.
    destruct (IH (<[(id, q0) := saved_row e0]> m) Hnd) as [Hin Hout]. split.
    + intros q e Hqe. cbn [foldl fst snd]. apply elem_of_cons in Hqe as [[= -> ->]|Hqe].
      * rewrite Hout by (by right). apply lookup_insert_eq.
      * by apply Hin.
    + intros i q Hiq. cbn [foldl fst snd]. rewrite Hout.
      * apply lookup_insert_ne. intros [= -> ->]. destruct Hiq as [Hi|Hq]; [done|].
        apply Hq. rewrite fmap_cons. by left.
      * destruct Hiq as [Hi|Hq]; [by left | right]. intros H. apply Hq.
        rewrite fmap_cons. by right.
Qed.

Lemma NoDup_fst_filter_map_to_list {V : Type} (P : string * V → Prop)
  `{!∀ kv, Decision (P kv)} (m : gmap string V) :
  NoDup (fst <$> filter P (map_to_list m)).
Proof.
  apply (NoDup_fmap_2_strong _).
  - intros [q1 e1] [q2 e2] H1 H2 Heq. cbn in Heq. subst q2.
    apply list_elem_of_filter in H1 as [_ H1]. apply list_elem_of_filter in H2 as [_ H2].
    apply elem_of_map_to_list in H1. apply elem_of_map_to_list in H2.
    rewrite H1 in H2. by injection H2 as ->.
  - apply NoDup_filter, NoDup_map_to_list.
Qed.

(** The effect of a save cycle on the score rows. *)
Lemma saveScores_stored (id userId : string) (session : InterviewSessionRow)
  (scores : gmap string LiveInterviewPage.Entry) (db : Database) :
  id ≠ EmptyString →
  InterviewSession db !! id = Some session →
  interviewerId session = userId →
  (∀ q entry, scores !! q = Some entry → 0 < LiveInterviewPage.entry_score entry →
              q ≠ EmptyString ∧ LiveInterviewPage.entry_score entry ≤ 5
              ∧ (is_Some (Score db !! (id, q)) ∨ is_Some (Question db !! q))) →
  let db' := serve ((fun b => (userId, UpsertScore b))
                    <$> LiveInterviewPage.saveScores (Some id) scores) db in
  (∀ q entry, scores !! q = Some entry → 0 < LiveInterviewPage.entry_score entry →
     Score db' !! (id, q) = Some (saved_row entry))
  ∧ (∀ i q, (i ≠ id ∨ ∀ entry, scores !! q = Some entry →
                               LiveInterviewPage.entry_score entry ≤ 0) →
       Score db' !! (i, q) = Score db !! (i, q))
  ∧ InterviewSession db' = InterviewSession db.
Proof.
  intros Hid Hsession Howner Hok db'. subst db'.
  rewrite saveScores_unfold by exact Hid.
  set (l := filter (fun kv : string * LiveInterviewPage.Entry =>
                      0 < LiveInterviewPage.entry_score (snd kv)) (map_to_list scores)).
  change (fun kv : string * LiveInterviewPage.Entry =>
            ScoreController.mkBody (Some id) (Some (fst kv))
              (Some (inject_Z (LiveInterviewPage.entry_score (snd kv))))
              (Some (LiveInterviewPage.entry_notes (snd kv))))
    with (saved_body id).
  assert (∀ q e, (q, e) ∈ l ↔ scores !! q = Some e ∧ 0 < LiveInterviewPage.entry_score e)
    as Hl.
  { intros q e. subst l. rewrite list_elem_of_filter, elem_of_map_to_list. cbn. tauto. }
  destruct (serve_saved_bodies userId id session l db Hid Hsession Howner)
    as (Hscore & Hsess & _).
  { apply Forall_forall. intros [q e] Hin. apply Hl in Hin as [Hlook Hpos]. cbn.
    destruct (Hok q e Hlook Hpos) as (Hq & Hle & Hthere).
    split; [exact Hq|]. split; [lia | exact Hthere]. }
  destruct (foldl_saved_lookup id l (Score db))
    as [Hin Hout]; [apply NoDup_fst_filter_map_to_list|].
  split; [|split; [|exact Hsess]].
  - intros q e Hlook Hpos. rewrite Hscore. apply Hin. by apply Hl.
  - intros i q Hiq. rewrite Hscore. apply Hout.
    destruct Hiq as [Hi|Hq]; [by left | right].
    intros Hmem. apply list_elem_of_fmap in Hmem as ([q' e] & -> & Hmem).
    apply Hl in Hmem as [Hlook Hpos]. cbn in Hq. specialize (Hq e Hlook). lia.
Qed.

End Saving.



(** ** Opening the live page *)

Section Loading.

Lemma foldl_insert_lookup {A V : Type} (key : A → string) (val : A → V)
  (l : list A) (m : gmap string V) :
  NoDup (key <$> l) →
  (∀ x, x ∈ l → foldl (fun m x => <[key x := val x]> m) m l !! key x = Some (val x))
  ∧ (∀ k, k ∉ key <$> l → foldl (fun m x => <[key x := val x]> m) m l !! k = m !! k).
Proof.
  revert m. induction l as [|x0 l IH]; intros m Hnd.
  - split; [intros x H; by apply elem_of_nil in H | reflexivity].
  - rewrite fmap_cons in Hnd. apply NoDup_cons in Hnd as [Hx0 Hnd].
    destruct (IH (<[key x0 := val x0]> m) Hnd) as [Hin Hout]. split.
    + intros x Hx. cbn [foldl]. apply elem_of_cons in Hx as [->|Hx].
      * rewrite Hout by exact Hx0. apply lookup_insert_eq.
      * by apply Hin.
    + intros k Hk. cbn [foldl]. rewrite Hout.
      * apply lookup_insert_ne. intros <-. apply Hk. rewrite fmap_cons. by left.
      * intros H. apply Hk. rewrite fmap_cons. by right.
Qed.

(** The buffer made of the listed scores has an entry for each row. *)
Lemma scoreMap_lookup (id : string) (db : Database) (q : string) :
  LiveInterview.scoreMap (ScoreService.getScoresForInterview id db) !! q
  = loaded_entry <$> Score db !! (id, q).
Proof.
  unfold LiveInterview.scoreMap.
  destruct (foldl_insert_lookup score_questionId
              (fun s => LiveInterviewPage.mkEntry (score_value s)
                          (default EmptyString (score_notes s)))
              (ScoreService.getScoresForInterview id db) ∅
              (NoDup_getScoresForInterview id db)) as [Hin Hout].
  destruct (Score db !! (id, q)) as [row|] eqn:Hrow; cbn.
  - assert (ScoreItem_of (id, q) row ∈ ScoreService.getScoresForInterview id db) as Hmem.
    { apply elem_of_getScoresForInterview. by exists q, row. }
    apply (Hin _ Hmem).
  - rewrite Hout; [apply lookup_empty|].
    intros Hmem. apply list_elem_of_fmap in Hmem as (s & -> & Hs).
    apply elem_of_getScoresForInterview in Hs as (q' & row & Hrow' & ->). cbn in Hrow.
    congruence.
Qed.

Lemma getById_consistent id userId db session :
  constraints db →
  InterviewSession db !! id = Some session →
  interviewerId session = userId →
  ∃ data, InterviewData.getById id userId db = Json 200 data ∧ data_session data = session.
Proof.
  intros Hc Hsession Howner. unfold InterviewData.getById, InterviewData.getInterview.
  destruct (findUnique_with_relations_consistent id db session Hc Hsession)
    as (configs & questions & -> & _). cbn [data_session].
  destruct (decide (interviewerId session ≠ userId)); [contradiction|].
  eexists. by split.
Qed.

Lemma loadInterview_owner id userId db session :
  constraints db → id ≠ EmptyString →
  InterviewSession db !! id = Some session →
  interviewerId session = userId →
  ∃ data,
    data_session data = session
    ∧ LiveInterview.loadInterview (Some id) userId db
      = (LiveInterview.mkLoaded (Some data)
           (LiveInterview.scoreMap (ScoreService.getScoresForInterview id db)) false,
         if decide (status session = SETUP)
         then snd (InterviewService.set_status id session IN_PROGRESS db)
         else db).
Proof.
  intros Hc Hid Hsession Howner.
  destruct (getById_consistent id userId db session Hc Hsession Howner) as (data & Hget & Hs).
  exists data. split; [exact Hs|].
  unfold LiveInterview.loadInterview. rewrite falsy_Some by exact Hid.
  rewrite Hget, Hs.
  destruct (decide (status session = SETUP)) as [Hst|Hst].
  - unfold InterviewController.start.
    rewrite (startInterview_Return id userId db session Hsession Howner Hst).
    unfold ScoreController.listByInterview. cbn.
    rewrite lookup_insert_eq. cbn.
    destruct (decide (interviewerId session ≠ userId)); [contradiction|]. reflexivity.
  - unfold ScoreController.listByInterview. rewrite Hsession.
    destruct (decide (interviewerId session ≠ userId)); [contradiction|]. reflexivity.
Qed.

End Loading.

(** X16. Opening the live page.  On a database that satisfies the
    schema's constraints, for an unknown interview or one of another
    user the page sets its error and changes nothing; for the owner it
    starts an interview that was in SETUP and leaves any other status as
    it is (also COMPLETED), changes no other row, and fills the buffer
    with one entry per stored score row, with the row's score and its
    notes, the empty text standing for no notes. *)
Theorem loadInterview_starts_the_interview_and_fills_the_buffer
  (id userId : string) (db : Database) :
  constraints db → id ≠ EmptyString →
  (InterviewSession db !! id = None →
   LiveInterview.loadInterview (Some id) userId db
   = (LiveInterview.mkLoaded None ∅ true, db))
  ∧ (∀ session, InterviewSession db !! id = Some session →
       (interviewerId session ≠ userId →
        LiveInterview.loadInterview (Some id) userId db
        = (LiveInterview.mkLoaded None ∅ true, db))
       ∧ (interviewerId session = userId →
          ∃ data db',
            LiveInterview.loadInterview (Some id) userId db
            = (LiveInterview.mkLoaded (Some data)
                 (LiveInterview.scoreMap (ScoreService.getScoresForInterview id db)) false,
               db')
            ∧ data_session data = session
            ∧ InterviewSession db' !! id
              = Some (mkSession userId (candidateName session)
                        (if decide (status session = SETUP) then IN_PROGRESS
                         else status session))
            ∧ (∀ i, i ≠ id → InterviewSession db' !! i = InterviewSession db !! i)
            ∧ Score db' = Score db
            ∧ InterviewQuestion db' = InterviewQuestion db
            ∧ InterviewSectionConfig db' = InterviewSectionConfig db
            ∧ (∀ q, LiveInterview.scoreMap (ScoreService.getScoresForInterview id db) !! q
                    = loaded_entry <$> Score db !! (id, q)))).
Proof.
  intros Hc Hid. split; [|intros session Hsession; split].
  - intros Hnone. unfold LiveInterview.loadInterview. rewrite falsy_Some by exact Hid.
    unfold InterviewData.getById, InterviewData.getInterview,
      InterviewData.findUnique_with_relations. by rewrite Hnone.
  - intros Hother. unfold LiveInterview.loadInterview. rewrite falsy_Some by exact Hid.
    unfold InterviewData.getById, InterviewData.getInterview.
    destruct (findUnique_with_relations_consistent id db session Hc Hsession)
      as (configs & questions & -> & _). cbn [data_session].
    destruct (decide (interviewerId session ≠ userId)); [reflexivity | contradiction].
  - intros Howner.
    destruct (loadInterview_owner id userId db session Hc Hid Hsession Howner)
      as (data & Hs & Hload).
    eexists data, _. split; [exact Hload|]. split; [exact Hs|].
    destruct (decide (status session = SETUP)) as [Hst|Hst]; cbn.
    + rewrite lookup_insert_eq, Howner.
      split; [reflexivity|]. split; [intros i Hi; by apply lookup_insert_ne|].
      do 3 (split; [reflexivity|]). apply scoreMap_lookup.
    + split; [rewrite Hsession; by destruct session; cbn in *; subst|].
      split; [reflexivity|]. do 3 (split; [reflexivity|]). apply scoreMap_lookup.
Qed.

Lemma loadInterview_starts_the_interview_and_fills_the_buffer_witness :
  ∃ data db',
    LiveInterview.loadInterview (Some "i1") "u1" Examples.db_setup
    = (LiveInterview.mkLoaded (Some data)
         (LiveInterview.scoreMap (ScoreService.getScoresForInterview "i1" Examples.db_setup))
         false, db')
    ∧ status <$> InterviewSession db' !! "i1" = Some IN_PROGRESS.
Proof.
  destruct (loadInterview_starts_the_interview_and_fills_the_buffer
              "i1" "u1" Examples.db_setup) as [_ H].
  - apply constraints_intro; apply (bool_decide_unpack _); vm_compute; exact I.
  - discriminate.
  - destruct (H (mkSession "u1" "Ada" SETUP) eq_refl) as [_ H'].
    destruct (H' eq_refl) as (data & db' & Hload & _ & Hsession & _).
    exists data, db'. split; [exact Hload|]. by rewrite Hsession.
Defined.

(** X17. Opening the live page and saving without an edit.  For the
    owner, on a database that satisfies the schema's constraints with
    scores from 1 to 5 and no question with an empty identifier, after
    [loadInterview] and one save cycle of the buffer it has set every
    score row of the interview has the score it had, its notes if it had
    any and the empty text otherwise; no row is added and the rows of
    other interviews are as they were. *)
Theorem load_then_save_keeps_the_scores
  (id userId : string) (session : InterviewSessionRow) (db : Database) :
  constraints db → Score_in_range db → Question db !! EmptyString = None →
  id ≠ EmptyString →
  InterviewSession db !! id = Some session →
  interviewerId session = userId →
  let loaded := LiveInterview.loadInterview (Some id) userId db in
  let db' := serve ((fun b => (userId, UpsertScore b))
                    <$> LiveInterviewPage.saveScores (Some id)
                          (LiveInterview.loaded_scores (fst loaded)))
                   (snd loaded) in
  (∀ q row, Score db !! (id, q) = Some row →
            Score db' !! (id, q)
            = Some (mkScoreRow (score row) (Some (default EmptyString (notes row)))))
  ∧ (∀ q, Score db !! (id, q) = None → Score db' !! (id, q) = None)
  ∧ (∀ i q, i ≠ id → Score db' !! (i, q) = Score db !! (i, q)).
Proof.
  intros Hc Hr Hempty Hid Hsession Howner loaded db'. subst db' loaded.
  destruct (loadInterview_owner id userId db session Hc Hid Hsession Howner)
    as (data & _ & ->). cbn [fst snd LiveInterview.loaded_scores].
  set (db1 := if decide (status session = SETUP)
              then snd (InterviewService.set_status id session IN_PROGRESS db) else db).
  assert (Score db1 = Score db ∧ Question db1 = Question db
          ∧ ∃ session1, InterviewSession db1 !! id = Some session1
                        ∧ interviewerId session1 = userId)
    as (Hscore1 & Hquestion1 & session1 & Hsession1 & Howner1).
  { subst db1. destruct (decide (status session = SETUP)); cbn.
    - do 2 (split; [reflexivity|]). eexists. rewrite lookup_insert_eq. by split.
    - do 2 (split; [reflexivity|]). by exists session. }
  destruct (saveScores_stored id userId session1
              (LiveInterview.scoreMap (ScoreService.getScoresForInterview id db)) db1
              Hid Hsession1 Howner1) as (Hin & Hout & _).
  { intros q entry Hlook Hpos. rewrite scoreMap_lookup in Hlook.
    destruct (Score db !! (id, q)) as [row|] eqn:Hrow; [|discriminate].
    injection Hlook as <-. cbn.
    destruct Hc as [_ _ _ _ _ Hfk _]. destruct (Hfk id q row Hrow) as [_ Hbank].
    split; [intros ->; rewrite Hempty in Hbank; by destruct Hbank|].
    split; [apply (Hr _ _ Hrow)|]. left. rewrite Hscore1, Hrow. by eexists. }
  split; [|split].
  - intros q row Hrow.
    rewrite (Hin q (loaded_entry row)); [reflexivity | by rewrite scoreMap_lookup, Hrow|].
    cbn. specialize (Hr _ _ Hrow). lia.
  - intros q Hnone. rewrite Hout, Hscore1; [exact Hnone|]. right.
    intros entry Hlook. rewrite scoreMap_lookup, Hnone in Hlook. discriminate.
  - intros i q Hi. rewrite Hout, Hscore1; [reflexivity | by left].
Qed.

Lemma load_then_save_keeps_the_scores_witness :
  Score (serve ((fun b => ("u1", UpsertScore b))
                <$> LiveInterviewPage.saveScores (Some "i1")
                      (LiveInterview.loaded_scores
                         (fst (LiveInterview.loadInterview (Some "i1") "u1"
                                 Examples.db_scored))))
           (snd (LiveInterview.loadInterview (Some "i1") "u1" Examples.db_scored)))
    !! ("i1", "q1")
  = Some (mkScoreRow 2 (Some "slow start")).
Proof.
  destruct (load_then_save_keeps_the_scores "i1" "u1" (mkSession "u1" "Ada" IN_PROGRESS)
              Examples.db_scored) as (H & _ & _).
  - apply constraints_intro; apply (bool_decide_unpack _); vm_compute; exact I.
  - intros key row Hrow.
    assert (map_Forall (fun _ row => 1 ≤ score row ≤ 5) (Score Examples.db_scored)) as Hall.
    { apply (bool_decide_unpack _). vm_compute. exact I. }
    apply (Hall key row Hrow).
  - reflexivity.
  - discriminate.
  - reflexivity.
  - reflexivity.
  - apply (H "q1" (mkScoreRow 2 (Some "slow start"))). reflexivity.
Defined.

(** ** Moving through the interview *)

Section Navigation.

Lemma at_index_Some {A : Type} (l : list A) (i : Z) :
  0 ≤ i < Z.of_nat (length l) → ∃ x, LiveInterview.at_index l i = Some x ∧ x ∈ l.
Proof.
  intros Hi. unfold LiveInterview.at_index.
  destruct (i <? 0) eqn:E; [apply Z.ltb_lt in E; lia|].
  destruct (lookup_lt_is_Some_2 l (Z.to_nat i)) as [x Hx]; [lia|].
  exists x. split; [exact Hx|]. by apply list_elem_of_lookup_2 in Hx.
Qed.

Lemma at_index_elem_of {A : Type} (l : list A) (i : Z) x :
  LiveInterview.at_index l i = Some x → x ∈ l.
Proof.
  unfold LiveInterview.at_index. destruct (i <? 0); [discriminate|].
  apply list_elem_of_lookup_2.
Qed.

Lemma questionsInSection_Some interview st :
  0 ≤ LiveInterviewPage.currentSectionIdx st < Z.of_nat (length (sectionConfigs interview)) →
  ∃ questions, LiveInterview.questionsInSection interview st = Some questions
               ∧ ∀ q, q ∈ questions → q ∈ selectedQuestions interview.
Proof.
  intros Hs. unfold LiveInterview.questionsInSection, LiveInterview.currentSection.
  destruct (at_index_Some _ _ Hs) as (section & -> & _). cbn.
  eexists. split; [reflexivity|]. intros q Hq. by apply list_elem_of_filter in Hq as [_ Hq].
Qed.

Lemma fits_first_question interview loaded s now scores :
  0 ≤ s < Z.of_nat (length (sectionConfigs interview)) →
  (∀ q entry, scores !! q = Some entry →
     0 ≤ LiveInterviewPage.entry_score entry ≤ 5
     ∧ (is_Some (loaded !! q) ∨ q ∈ item_questionId <$> selectedQuestions interview)) →
  fits interview loaded (LiveInterviewPage.mkState s 0 now scores).
Proof.
  intros Hs Hscores. constructor; cbn; [exact Hs | | exact Hscores].
  intros [|q questions] _; [by right | left]. cbn. lia.
Qed.

Lemma act_fits id interview loaded a st :
  fits interview loaded st →
  ∃ st', LiveInterview.act id interview a st = Some st' ∧ fits interview loaded st'.
Proof.
  intros Hfits. pose proof Hfits as [Hs Hq Hb]. unfold LiveInterview.act.
  destruct (questionsInSection_Some interview st Hs) as (questions & Hquestions & Hsel).
  rewrite Hquestions. eexists. split; [reflexivity|].
  specialize (Hq questions Hquestions).
  assert (∀ idx,
    (0 ≤ idx < Z.of_nat (length questions)) →
    fits interview loaded (LiveInterview.setCurrentQuestionIdx idx st)) as Hset.
  { intros idx Hidx. constructor; cbn; [exact Hs | | exact Hb].
    intros questions' H'.
    assert (questions' = questions) as ->; [|by left].
    unfold LiveInterview.questionsInSection, LiveInterview.currentSection in *. cbn in H'.
    rewrite H' in Hquestions. by injection Hquestions. }
  assert (∀ f,
    (∀ q entry, f (LiveInterviewPage.state_scores st) !! q = Some entry →
       0 ≤ LiveInterviewPage.entry_score entry ≤ 5
       ∧ (is_Some (loaded !! q) ∨ q ∈ item_questionId <$> selectedQuestions interview)) →
    fits interview loaded (LiveInterview.setScores f st)) as Hedit.
  { intros f Hf. constructor; cbn; [exact Hs | | exact Hf].
    intros questions' H'.
    assert (questions' = questions) as ->; [|exact Hq].
    unfold LiveInterview.questionsInSection, LiveInterview.currentSection in *. cbn in H'.
    rewrite H' in Hquestions. by injection Hquestions. }
  destruct a as [| |idx|now|s|notes].
  - unfold LiveInterview.handleNextQuestion.
    destruct (_ <? _) eqn:E; [|exact Hfits]. apply Z.ltb_lt in E.
    apply Hset. destruct Hq as [Hq|[Hq ->]]; [lia | cbn in E; lia].
  - unfold LiveInterview.handlePrevQuestion.
    destruct (_ <? _) eqn:E; [|exact Hfits]. apply Z.ltb_lt in E.
    apply Hset. destruct Hq as [Hq|[Hq ->]]; lia.
  - case_bool_decide as Hidx; [|exact Hfits]. apply Hset. lia.
  - unfold LiveInterviewPage.handleNextSection.
    destruct (_ <? _) eqn:E.
    + apply Z.ltb_lt in E. cbn [snd]. apply fits_first_question; [lia | exact Hb].
    + destruct id as [i|]; [destruct (ScoreController.falsy _)|]; exact Hfits.
  - destruct (LiveInterview.at_index questions _) as [q|] eqn:Hcur; [|exact Hfits].
    case_bool_decide as Hin; [|exact Hfits].
    apply Hedit. intros q' entry. unfold LiveInterviewPage.updateScore.
    destruct (decide (item_questionId q = q')) as [<-|Hne].
    + rewrite lookup_insert_eq. intros [= <-]. cbn. split.
      * repeat (apply elem_of_cons in Hin as [->|Hin]; [lia|]). by apply elem_of_nil in Hin.
      * right. apply list_elem_of_fmap. exists q. split; [reflexivity|].
        apply Hsel. by apply at_index_elem_of in Hcur.
    + rewrite lookup_insert_ne by exact Hne. apply Hb.
  - destruct (LiveInterview.at_index questions _) as [q|] eqn:Hcur; [|exact Hfits].
    apply Hedit. intros q' entry. unfold LiveInterviewPage.updateNotes.
    destruct (decide (item_questionId q = q')) as [<-|Hne].
    + rewrite lookup_insert_eq. intros [= <-]. cbn. split.
      * destruct (LiveInterviewPage.state_scores st !! item_questionId q) as [old|] eqn:Hold;
          cbn; [apply (Hb _ _ Hold) | lia].
      * right. apply list_elem_of_fmap. exists q. split; [reflexivity|].
        apply Hsel. by apply at_index_elem_of in Hcur.
    + rewrite lookup_insert_ne by exact Hne. apply Hb.
Qed.

Lemma run_fits id interview loaded actions st :
  fits interview loaded st →
  ∃ st', LiveInterview.run id interview actions st = Some st' ∧ fits interview loaded st'.
Proof.
  revert st. induction actions as [|a actions IH]; intros st Hst; cbn.
  - by exists st.
  - destruct (act_fits id interview loaded a st Hst) as (st' & -> & Hst'). by apply IH.
Qed.

End Navigation.

(** X18. On the live page of an interview that has a section, whatever
    the interviewer does (next and previous question, a progress dot, next
    section, a score of the panel, notes), the page renders: the current
    section is always one of the plan; the current question is one of the
    section's, and there is none only in a section without questions; the
    buffer only ever holds scores from 0 to 5, for questions it was loaded
    with or questions selected for the interview. *)
Theorem live_page_stays_within_the_plan
  (id : option string) (interview : Interview) (now : Z)
  (loaded : gmap string LiveInterviewPage.Entry) (actions : list LiveInterview.Action) :
  (0 < length (sectionConfigs interview))%nat →
  (∀ q entry, loaded !! q = Some entry → 0 ≤ LiveInterviewPage.entry_score entry ≤ 5) →
  ∃ st section questions,
    LiveInterview.run id interview actions (LiveInterview.initial now loaded) = Some st
    ∧ LiveInterview.currentSection interview st = Some section
    ∧ section ∈ sectionConfigs interview
    ∧ LiveInterview.questionsInSection interview st = Some questions
    ∧ (questions ≠ [] →
       ∃ q, LiveInterview.currentQuestion interview st = Some q ∧ q ∈ questions
            ∧ item_question_sectionId q = config_sectionId section)
    ∧ (questions = [] → LiveInterview.currentQuestion interview st = None)
    ∧ (∀ q entry, LiveInterviewPage.state_scores st !! q = Some entry →
         0 ≤ LiveInterviewPage.entry_score entry ≤ 5
         ∧ (is_Some (loaded !! q) ∨ q ∈ item_questionId <$> selectedQuestions interview)).
Proof.
  intros Hplan Hloaded.
  destruct (run_fits id interview loaded actions (LiveInterview.initial now loaded))
    as (st & Hrun & [Hs Hq Hb]).
  { apply fits_first_question; [lia|]. intros q entry Hlook.
    split; [by apply (Hloaded q) | left; by eexists]. }
  destruct (at_index_Some _ _ Hs) as (section & Hsection & Hin).
  exists st, section.
  eexists. split; [exact Hrun|]. split; [exact Hsection|]. split; [exact Hin|].
  unfold LiveInterview.currentQuestion, LiveInterview.questionsInSection.
  unfold LiveInterview.currentSection in Hsection |- *. rewrite Hsection. cbn.
  split; [reflexivity|].
  specialize (Hq _ ltac:(unfold LiveInterview.questionsInSection, LiveInterview.currentSection;
                         rewrite Hsection; reflexivity)).
  split; [|split; [|exact Hb]].
  - intros Hne. destruct Hq as [Hq|[_ Hq]]; [|contradiction].
    destruct (at_index_Some _ _ Hq) as (q & Hcur & Hmem).
    exists q. split; [exact Hcur|]. split; [exact Hmem|].
    by apply list_elem_of_filter in Hmem as [Hmem _].
  - intros ->. unfold LiveInterview.at_index. destruct (_ <? 0); reflexivity.
Qed.

Lemma live_page_stays_within_the_plan_witness :
  ∃ st,
    LiveInterview.run (Some "i1") Examples.interview_i1
      [LiveInterview.ScoreChange 4; LiveInterview.NextQuestion;
       LiveInterview.NotesChange "clear"; LiveInterview.NextSection 2000]
      (LiveInterview.initial 1000 ∅) = Some st.
Proof.
  destruct (live_page_stays_within_the_plan (Some "i1") Examples.interview_i1 1000 ∅
              [LiveInterview.ScoreChange 4; LiveInterview.NextQuestion;
               LiveInterview.NotesChange "clear"; LiveInterview.NextSection 2000])
    as (st & _ & _ & Hrun & _).
  - cbn. lia.
  - intros q entry Hlook. by rewrite lookup_empty in Hlook.
  - by exists st.
Defined.

(** X19. A progress dot shows a question as scored exactly when a save
    cycle sends an upsert for it: both look for a buffer entry with a
    positive score, so notes typed for a question without a score show no
    tick and are not sent. *)
Theorem dot_is_done_exactly_when_the_score_is_sent
  (id : string) (questions : list InterviewQuestionItem)
  (st : LiveInterviewPage.State) (idx : Z) :
  id ≠ EmptyString →
  LiveInterview.isQuestionScored questions st idx = true
  ↔ ∃ q, LiveInterview.at_index questions idx = Some q
         ∧ ∃ body, body ∈ LiveInterviewPage.saveScores (Some id)
                             (LiveInterviewPage.state_scores st)
                   ∧ ScoreController.body_questionId body = Some (item_questionId q).
Proof.
  intros Hid. rewrite saveScores_unfold by exact Hid.
  unfold LiveInterview.isQuestionScored. split.
  - destruct (LiveInterview.at_index questions idx) as [q|]; [|discriminate].
    destruct (LiveInterviewPage.state_scores st !! item_questionId q) as [entry|] eqn:Hentry;
      [|discriminate].
    intros Hpos. apply Z.ltb_lt in Hpos. exists q. split; [reflexivity|].
    eexists. split.
    + apply list_elem_of_fmap. exists (item_questionId q, entry). split; [reflexivity|].
      apply list_elem_of_filter. split; [exact Hpos|]. by apply elem_of_map_to_list.
    + reflexivity.
  - intros (q & -> & body & Hbody & Hq).
    apply list_elem_of_fmap in Hbody as ([q' entry] & -> & Hin).
    apply list_elem_of_filter in Hin as [Hpos Hin]. apply elem_of_map_to_list in Hin.
    cbn in Hq, Hpos. injection Hq as ->. rewrite Hin. by apply Z.ltb_lt.
Qed.

Lemma dot_is_done_exactly_when_the_score_is_sent_witness :
  LiveInterview.isQuestionScored (selectedQuestions Examples.interview_i1)
    (LiveInterview.initial 1000 Examples.buffer_notes_only) 0 = true
  ↔ ∃ q, LiveInterview.at_index (selectedQuestions Examples.interview_i1) 0 = Some q
         ∧ ∃ body, body ∈ LiveInterviewPage.saveScores (Some "i1")
                             (LiveInterviewPage.state_scores
                                (LiveInterview.initial 1000 Examples.buffer_notes_only))
                   ∧ ScoreController.body_questionId body = Some (item_questionId q).
Proof.
  apply (dot_is_done_exactly_when_the_score_is_sent "i1"
           (selectedQuestions Examples.interview_i1)
           (LiveInterview.initial 1000 Examples.buffer_notes_only) 0).
  discriminate.
Defined.

(** ** The countdown *)

(** X20. The section timer's display.  The minutes and seconds shown are
    the whole seconds that remain, the seconds below 60; they never exceed
    the allotted time, never go up as time passes, and stay at 0:00 once
    the time is used up; the warning, once on, stays on. *)
Theorem SectionTimer_display_counts_down
  (props : SectionTimer.Props) (elapsed elapsed' : Z) :
  let view := SectionTimer.render props elapsed in
  let view' := SectionTimer.render props elapsed' in
  (0 ≤ SectionTimer.minutes view ∧ 0 ≤ SectionTimer.seconds view < 60
   ∧ SectionTimer.minutes view * 60 + SectionTimer.seconds view
     = SectionTimer.remaining view / 1000)
  ∧ (0 ≤ elapsed →
     SectionTimer.minutes view * 60 + SectionTimer.seconds view
     ≤ Z.max 0 (SectionTimer.durationMinutes props * 60))
  ∧ (elapsed ≤ elapsed' →
     SectionTimer.remaining view' ≤ SectionTimer.remaining view
     ∧ SectionTimer.minutes view' * 60 + SectionTimer.seconds view'
       ≤ SectionTimer.minutes view * 60 + SectionTimer.seconds view
     ∧ (SectionTimer.warning view = true → SectionTimer.warning view' = true))
  ∧ (SectionTimer.durationMinutes props * 60000 ≤ elapsed →
     SectionTimer.minutes view = 0 ∧ SectionTimer.seconds view = 0
     ∧ SectionTimer.warning view = true).
Proof.
  intros view view'. subst view view'. unfold SectionTimer.render.
  cbn [SectionTimer.minutes SectionTimer.seconds SectionTimer.remaining SectionTimer.warning].
  set (total := SectionTimer.durationMinutes props * 60 * 1000).
  assert (∀ r, 0 ≤ r →
            0 ≤ r / 60000 ∧ 0 ≤ Z.rem r 60000 / 1000 < 60
            ∧ r / 60000 * 60 + Z.rem r 60000 / 1000 = r / 1000) as Hdigits.
  { intros r Hr. rewrite Z.rem_mod_nonneg by lia.
    pose proof (Z.div_mod r 60000 ltac:(lia)) as H1.
    pose proof (Z.mod_pos_bound r 60000 ltac:(lia)) as H2.
    pose proof (Z.div_mod (r mod 60000) 1000 ltac:(lia)) as H3.
    pose proof (Z.mod_pos_bound (r mod 60000) 1000 ltac:(lia)) as H4.
    assert (r / 1000 = r / 60000 * 60 + r mod 60000 / 1000) as ->.
    { symmetry. apply (Z.div_unique r 1000 _ ((r mod 60000) mod 1000)); lia. }
    split; [apply Z.div_pos; lia|].
    split; [|reflexivity].
    split; [apply Z.div_pos; lia | apply Z.div_lt_upper_bound; lia]. }
  split; [apply Hdigits; lia|]. split; [|split].
  - intros Helapsed. destruct (Hdigits (Z.max 0 (total - elapsed)) ltac:(lia)) as (_ & _ & ->).
    apply Z.div_le_upper_bound; [lia|]. subst total. lia.
  - intros Hle. split; [lia|]. split.
    + destruct (Hdigits (Z.max 0 (total - elapsed)) ltac:(lia)) as (_ & _ & ->).
      destruct (Hdigits (Z.max 0 (total - elapsed')) ltac:(lia)) as (_ & _ & ->).
      apply Z.div_le_mono; lia.
    + intros H. apply Z.ltb_lt in H. apply Z.ltb_lt. lia.
  - intros Hup. replace (Z.max 0 (total - elapsed)) with 0 by (subst total; lia).
    by repeat split.
Qed.

(** ** Section averages on the results page *)

(** X21. Section by section the results page and the two exports agree:
    when section names identify the sections of the plan, the page, which
    groups questions by section id, shows for each section the name and
    average that the Excel sheet and the PDF, which group by section name,
    print, in the same order. *)
Theorem results_page_section_averages_are_those_of_the_exports (interview : Interview) :
  (∀ q sc, q ∈ selectedQuestions interview → sc ∈ sectionConfigs interview →
     (item_question_section_name q = config_section_name sc
      ↔ item_question_sectionId q = config_sectionId sc)) →
  (fun g => (InterviewResultsPage.group_section_name g, InterviewResultsPage.group_avg g))
  <$> InterviewResultsPage.sectionGroups interview (scores interview)
  = ExportService.generateExcel_sectionAvgs interview
  ∧ ExportService.generateExcel_sectionAvgs interview
    = ExportService.generatePdf_sectionAvgs interview.
Proof.
  intros Hnames. split; [|reflexivity].
  unfold InterviewResultsPage.sectionGroups, ExportService.generateExcel_sectionAvgs.
  rewrite <- list_fmap_compose. apply list_fmap_ext. intros i sc Hsc.
  apply list_elem_of_lookup_2 in Hsc. cbn.
  unfold ExportService.sectionAvg, ExportService.sScores, ExportService.sectionQs,
    ExportService.average, InterviewResultsPage.scoreMap, ExportService.scoreMap.
  rewrite (filter_ext_in (fun q => item_question_section_name q = config_section_name sc)
             (fun q => item_question_sectionId q = config_sectionId sc))
    by (intros q Hq; by apply Hnames).
  reflexivity.
Qed.

Lemma results_page_section_averages_are_those_of_the_exports_witness :
  (fun g => (InterviewResultsPage.group_section_name g, InterviewResultsPage.group_avg g))
  <$> InterviewResultsPage.sectionGroups Examples.scenario_rounding
        (scores Examples.scenario_rounding)
  = ExportService.generatePdf_sectionAvgs Examples.scenario_rounding.
Proof.
  destruct (results_page_section_averages_are_those_of_the_exports
              Examples.scenario_rounding) as [H1 H2].
  - assert (Forall (fun q =>
              Forall (fun sc =>
                        item_question_section_name q = config_section_name sc
                        ↔ item_question_sectionId q = config_sectionId sc)
                     (sectionConfigs Examples.scenario_rounding))
              (selectedQuestions Examples.scenario_rounding)) as Hall.
    { apply (bool_decide_unpack _). vm_compute. exact I. }
    intros q sc Hq Hsc. rewrite Forall_forall in Hall. specialize (Hall q Hq).
    rewrite Forall_forall in Hall. by apply Hall.
  - by rewrite H1.
Defined.

(** ** Setting an interview up *)

Section SettingUp.








End SettingUp.



(** ** Ending the interview *)


